(** * Telegram-File-Monitor: a shallow embedding of [file_monitor.py]

    The program polls a remote file server by numeric index and file
    extension, downloads what it finds and reports to an operator through a
    messaging bot.  This development embeds the polling loop, the existence
    probe, the downloader, the notifier and the status counters, and proves
    the properties of the specification about them.

    Python integers are unbounded and are modelled by [Z]; the seen-set is a
    [gset string]; the download directory is a finite map from paths to file
    contents.  Everything the program does to the outside world (requests,
    log lines, file writes) is recorded, in order, in a list of events, and
    everything the outside world answers is read from an environment that
    sees that list. *)

From stdpp Require Import gmap strings pretty list numbers.
From Stdlib Require Import ZArith Lia Ascii String.

Local Open Scope string_scope.
Local Open Scope Z_scope.

(** ** The Python runtime functions the program calls *)

Module Py.

(** The characters [int] skips as white space around a literal, among the
    code points below 256 (header values are decoded as latin-1): the ASCII
    ones from tab to carriage return and the space, and of the others the
    next-line and the no-break space.  (The separators 28 to 31, which
    [str.strip] removes, are not skipped by [int].) *)
Definition is_space (a : ascii) : bool :=
  let n := nat_of_ascii a in
  ((9 <=? n)%nat && (n <=? 13)%nat) || (n =? 32)%nat
  || (n =? 133)%nat || (n =? 160)%nat.

Definition digit_val (a : ascii) : option Z :=
  let n := nat_of_ascii a in
  if ((48 <=? n)%nat && (n <=? 57)%nat) then Some (Z.of_nat n - 48) else None.

Fixpoint lstrip (s : string) : string :=
  match s with
  | String a r => if is_space a then lstrip r else s
  | EmptyString => s
  end.

(** Digits of a decimal literal; a single underscore may stand between two
    digits.  Returns the value read, the number of digits read (leading
    zeros count, underscores do not) and what follows the literal. *)
Fixpoint scan_digits (after_underscore : bool) (acc digits : Z) (s : string)
  : option (Z * Z * string) :=
  match s with
  | String a r =>
      match digit_val a with
      | Some d => scan_digits false (10 * acc + d) (digits + 1) r
      | None =>
          if after_underscore then None
          else if Ascii.eqb a "_" then scan_digits true acc digits r
          else Some (acc, digits, s)
      end
  | EmptyString => if after_underscore then None else Some (acc, digits, s)
  end.

(** The interpreter's limit on the digits of a decimal literal that [int]
    converts: the default of [sys.get_int_max_str_digits()], which the
    program does not change. *)
Definition int_max_str_digits : Z := 4300.

Definition unsigned_literal (s : string) : option Z :=
  match s with
  | String a _ =>
      match digit_val a with
      | Some _ =>
          match scan_digits false 0 0 s with
          | Some (v, digits, rest) =>
              match lstrip rest with
              | EmptyString =>
                  if int_max_str_digits <? digits then None else Some v
              | _ => None
              end
          | None => None
          end
      | None => None
      end
  | EmptyString => None
  end.

(** [int(s)] for a string, base ten: [None] stands for [ValueError], which
    [int] raises for a string that is not a literal and for a literal of
    more than [int_max_str_digits] digits. *)
Definition int (s : string) : option Z :=
  match lstrip s with
  | String "+" r => unsigned_literal r
  | String "-" r => Z.opp <$> unsigned_literal r
  | t => unsigned_literal t
  end.

(** The least magnitude of an integer that has no [float]: the midpoint
    between the largest double and [2^1024] rounds up. *)
Definition float_overflow_bound : Z := 2 ^ 1024 - 2 ^ 970.

(** [float(n)] raises [OverflowError]. *)
Definition float_overflows (n : Z) : bool := float_overflow_bound <=? Z.abs n.

(** [n / (1024 * 1024)] on integers raises [OverflowError]: the quotient,
    [n] scaled by [2^-20], has no [float]. *)
Definition truediv_mb_overflows (n : Z) : bool :=
  float_overflow_bound * (1024 * 1024) <=? Z.abs n.

(** [s.rfind(c)]: the last index of [c], or [-1]. *)
Fixpoint rfind_from (c : ascii) (s : string) (i last : Z) : Z :=
  match s with
  | EmptyString => last
  | String a r => rfind_from c r (i + 1) (if Ascii.eqb a c then i else last)
  end.

Definition rfind (c : ascii) (s : string) : Z := rfind_from c s 0 (-1).

Fixpoint str_take (n : nat) (s : string) : string :=
  match n, s with
  | S m, String a r => String a (str_take m r)
  | _, _ => EmptyString
  end.

Fixpoint str_drop (n : nat) (s : string) : string :=
  match n, s with
  | S m, String _ r => str_drop m r
  | _, _ => s
  end.

Definition startswith_sep (p : string) : bool :=
  match p with String "/" _ => true | _ => false end.

Fixpoint endswith_sep (p : string) : bool :=
  match p with
  | EmptyString => false
  | String a EmptyString => Ascii.eqb a "/"
  | String _ r => endswith_sep r
  end.

(** [os.path.join(a, p)] of [posixpath], two arguments. *)
Definition path_join (a p : string) : string :=
  if startswith_sep p then p
  else match a with
       | EmptyString => p
       | _ => if endswith_sep a then a +:+ p else a +:+ "/" +:+ p
       end.

(** [os.path.basename(p)]. *)
Definition basename (p : string) : string :=
  str_drop (Z.to_nat (rfind "/" p + 1)) p.

(** Among the first [n] characters of [s], one is not a dot. *)
Fixpoint has_non_dot (n : nat) (s : string) : bool :=
  match n, s with
  | S m, String a r => if Ascii.eqb a "." then has_non_dot m r else true
  | _, _ => false
  end.

(** [os.path.splitext(p)] of [posixpath]: the extension starts at the last
    dot of the last path component, unless only dots precede it there. *)
Definition splitext (p : string) : string * string :=
  let sepIndex := rfind "/" p in
  let dotIndex := rfind "." p in
  if (sepIndex <? dotIndex)
     && has_non_dot (Z.to_nat (dotIndex - (sepIndex + 1)))
                    (str_drop (Z.to_nat (sepIndex + 1)) p)
  then (str_take (Z.to_nat dotIndex) p, str_drop (Z.to_nat dotIndex) p)
  else (p, EmptyString).

End Py.

Arguments Py.float_overflow_bound : simpl never.
Arguments Py.float_overflows : simpl never.
Arguments Py.truediv_mb_overflows : simpl never.

(** ** Configuration, messages, events and the environment *)

(** The module-level constants read from the process environment. *)
Record Config := {
  BOT_TOKEN : option string;
  CHAT_ID : Z;
  MONITOR_TOKEN : option string;
  DOWNLOAD_DIR : string;
  LOG_DIR : string;
  CHECK_INTERVAL : Z;
  REPORT_INTERVAL : Z;
  START_INDEX : Z;
  END_INDEX : Z;
  SUPPORTED_EXTENSIONS : list string
}.

(** The exceptions the modelled code can meet. [RequestException] is the one
    the [requests] calls raise on a transport failure. *)
Inductive Exn :=
| RequestException
| ValueError
| OverflowError
| ZeroDivisionError
| OSError.

Global Instance Exn_eq_dec : EqDecision Exn.
Proof. solve_decision. Defined.

(** What a log line or a notification says: the kind of message and the
    values formatted into it (the wording itself is not modelled). *)
Inductive Msg :=
| MsgConfigValid
| MsgSetChatId
| MsgSendFailed
| MsgStartup
| MsgProbeError
| MsgDownloading (filename : string)
| MsgRenamed (filename : string)
| MsgDownloadCompleted (filename : string) (file_size download_time : Z)
| MsgDownloadFailed (filename : string) (status : Z) (excerpt : string)
| MsgDownloadError
| MsgChecking (filename : string)
| MsgNewFile (filename : string) (file_size : Z)
| MsgProcessError (filename : string) (e : Exn)
| MsgStartingCheck
| MsgCurrentIndex (index : Z)
| MsgCycleCompleted (start_index end_index : Z)
| MsgStatusReport (days hours minutes checks found downloaded index : Z)
                  (last_check : option Z)
| MsgInitialCheck
| MsgEnteringLoop
| MsgInterrupted
| MsgStopped
| MsgSystemError (e : Exn).

(** What the program does to the outside world, in order. *)
Inductive Event :=
| EvLog (is_error : bool) (m : Msg)
| EvHead (url : string)
| EvGet (url : string)
| EvPost (m : Msg)
| EvMakedirs (path : string)
| EvOpen (path : string).

(** A network call either receives something or fails in transport. *)
Inductive Net (A : Type) :=
| Got (a : A)
| Failed.
Arguments Got {A} a.
Arguments Failed {A}.

(** The parts of a [requests] response the program reads: the status, the
    [content-length] header when there is one, and the body, whose reading
    can itself fail in transport (the download streams). *)
Record Response := {
  status_code : Z;
  content_length : option string;
  content : Net string
}.

(** The outside world.  Every answer may depend on all that happened
    before: the list of events so far.  [makedirs] says whether the
    directory can be made, [open_wb] whether the file can be opened for
    writing, and [write_wb], for a path and the content to write, whether
    writing and closing go through: [None] when they do, [Some n] when they
    fail after [n] characters have reached the file. *)
Record Env := {
  now : list Event → Z;
  http_head : list Event → string → Net Response;
  http_get : list Event → string → Net Response;
  http_post : list Event → Msg → Net unit;
  makedirs : list Event → string → bool;
  open_wb : list Event → string → bool;
  write_wb : list Event → string → string → option nat
}.

(** ** The status reporter *)

Module StatusReporter.

Record t := {
  start_time : Z;
  files_found : Z;
  files_downloaded : Z;
  last_check_time : option Z;
  current_index : Z;
  checks_performed : Z
}.

(** [StatusReporter.__init__], at the time [clock]. *)
Definition init (clock : Z) : t :=
  {| start_time := clock;
     files_found := 0;
     files_downloaded := 0;
     last_check_time := None;
     current_index := 0;
     checks_performed := 0 |}.

(** [StatusReporter.update_stats], at the time [clock]. *)
Definition update_stats (self : t) (clock : Z) (found downloaded : Z) : t :=
  {| start_time := start_time self;
     files_found := files_found self + found;
     files_downloaded := files_downloaded self + downloaded;
     last_check_time := Some clock;
     current_index := current_index self;
     checks_performed := checks_performed self + 1 |}.

Definition set_current_index (self : t) (i : Z) : t :=
  {| start_time := start_time self;
     files_found := files_found self;
     files_downloaded := files_downloaded self;
     last_check_time := last_check_time self;
     current_index := i;
     checks_performed := checks_performed self |}.

(** [StatusReporter.get_status_report], at the time [clock]; times are in
    microseconds. *)
Definition get_status_report (self : t) (clock : Z) : Msg :=
  let runtime := (clock - start_time self) `div` 1000000 in
  let days := runtime `div` 86400 in
  let seconds := runtime `mod` 86400 in
  let hours := seconds `div` 3600 in
  let minutes := (seconds `mod` 3600) `div` 60 in
  MsgStatusReport days hours minutes (checks_performed self)
    (files_found self) (files_downloaded self) (current_index self)
    (last_check_time self).

End StatusReporter.

(** ** The monitor object and the machine state *)

Module FileMonitor.

Record t := {
  current_index : Z;
  found_files : gset string;
  status_reporter : StatusReporter.t
}.

End FileMonitor.

(** The machine: the record of events, the regular files of the file system
    under the path they were written to (directories and links are not
    modelled: a path exists when a file is stored under it), and the monitor
    object. *)
Record State := {
  events : list Event;
  files : gmap string string;
  self : FileMonitor.t
}.

Definition add_event (e : Event) (s : State) : State :=
  {| events := events s ++ [e]; files := files s; self := self s |}.

Definition put_file (path body : string) (s : State) : State :=
  {| events := events s; files := <[path := body]> (files s); self := self s |}.

Definition put_self (m : FileMonitor.t) (s : State) : State :=
  {| events := events s; files := files s; self := m |}.

Definition put_current_index (i : Z) (s : State) : State :=
  put_self {| FileMonitor.current_index := i;
              FileMonitor.found_files := FileMonitor.found_files (self s);
              FileMonitor.status_reporter := FileMonitor.status_reporter (self s) |} s.

Definition add_found_file (url : string) (s : State) : State :=
  put_self {| FileMonitor.current_index := FileMonitor.current_index (self s);
              FileMonitor.found_files := {[url]} ∪ FileMonitor.found_files (self s);
              FileMonitor.status_reporter := FileMonitor.status_reporter (self s) |} s.

Definition put_status_reporter (r : StatusReporter.t) (s : State) : State :=
  put_self {| FileMonitor.current_index := FileMonitor.current_index (self s);
              FileMonitor.found_files := FileMonitor.found_files (self s);
              FileMonitor.status_reporter := r |} s.

(** ** Computations: state, exceptions, and running out of loop fuel *)

Inductive Result (A : Type) :=
| Ret (a : A)
| Raise (e : Exn)
| OutOfFuel.
Arguments Ret {A} a.
Arguments Raise {A} e.
Arguments OutOfFuel {A}.

(** The state survives an exception, as the attributes of a Python object
    do. *)
Definition M (A : Type) : Type := State → Result A * State.

Global Instance M_ret : MRet M := λ A a s, (Ret a, s).

Global Instance M_bind : MBind M := λ A B f m s,
  match m s with
  | (Ret a, s') => f a s'
  | (Raise e, s') => (Raise e, s')
  | (OutOfFuel, s') => (OutOfFuel, s')
  end.

Definition raise {A} (e : Exn) : M A := λ s, (Raise e, s).

Definition out_of_fuel {A} : M A := λ s, (OutOfFuel, s).

(** [try: body  except <the exceptions catches accepts> as e: handler e]. *)
Definition try_except {A} (body : M A) (catches : Exn → bool)
    (handler : Exn → M A) : M A := λ s,
  match body s with
  | (Raise e, s') => if catches e then handler e s' else (Raise e, s')
  | r => r
  end.

Definition is_RequestException (e : Exn) : bool :=
  match e with RequestException => true | _ => false end.

Definition is_Exception (e : Exn) : bool := true.

Definition gets {A} (f : State → A) : M A := λ s, (Ret (f s), s).

Definition modify (f : State → State) : M unit := λ s, (Ret tt, f s).

Definition emit (e : Event) : M unit := modify (add_event e).

(** ** The program *)

Section Program.

Variable cfg : Config.
Variable env : Env.

(** An f-string prints an unset token as [None]. *)
Definition str_of_token (t : option string) : string := default "None" t.

Definition BASE_URL : string :=
  "https://api.telegram.org/file/bot" +:+ str_of_token (MONITOR_TOKEN cfg)
    +:+ "/documents/".

(** A Python string is false when empty, an integer when zero. *)
Definition token_set (t : option string) : bool :=
  match t with Some (String _ _) => true | _ => false end.

(** [validate_config]: the first failed check raises [ValueError]; the
    [logging.debug] line at its end is below the level of the log. *)
Definition validate_config : M unit :=
  if negb (token_set (BOT_TOKEN cfg)) then raise ValueError
  else if CHAT_ID cfg =? 0 then raise ValueError
  else if negb (token_set (MONITOR_TOKEN cfg)) then raise ValueError
  else if END_INDEX cfg <? START_INDEX cfg then raise ValueError
  else match SUPPORTED_EXTENSIONS cfg with
       | [] => raise ValueError
       | _ => emit (EvLog false MsgConfigValid)
       end.

Definition datetime_now : M Z := gets (λ s, now env (events s)).

(** [requests.head(url, timeout=10)]. *)
Definition requests_head (url : string) : M Response := λ s,
  match http_head env (events s) url with
  | Got r => (Ret r, add_event (EvHead url) s)
  | Failed => (Raise RequestException, add_event (EvHead url) s)
  end.

(** [requests.get(url, timeout=30, stream=True)]. *)
Definition requests_get (url : string) : M Response := λ s,
  match http_get env (events s) url with
  | Got r => (Ret r, add_event (EvGet url) s)
  | Failed => (Raise RequestException, add_event (EvGet url) s)
  end.

(** [requests.post(url, json=data, timeout=10)] to the bot's [sendMessage]. *)
Definition requests_post (message : Msg) : M unit := λ s,
  match http_post env (events s) message with
  | Got _ => (Ret tt, add_event (EvPost message) s)
  | Failed => (Raise RequestException, add_event (EvPost message) s)
  end.

(** [response.content] and [response.text]: reading the body. *)
Definition read_content (response : Response) : M string :=
  match content response with
  | Got body => mret body
  | Failed => raise RequestException
  end.

(** [int(response.headers.get("content-length", 0))]. *)
Definition content_length_int (response : Response) : M Z :=
  match content_length response with
  | None => mret 0
  | Some h => match Py.int h with
              | Some n => mret n
              | None => raise ValueError
              end
  end.

(** The first statement of [print_status]: [logging.error] or
    [logging.info]. *)
Definition logging (is_error : bool) (message : Msg) : M unit :=
  emit (EvLog is_error message).

(** [send_telegram_message].  Its two calls [print_status(..., True)] leave
    [notify_telegram] false, so only the logging statement of [print_status]
    runs there. *)
Definition send_telegram_message (message : Msg) : M unit :=
  if CHAT_ID cfg =? 0 then logging true MsgSetChatId
  else try_except (requests_post message) is_RequestException
         (λ _, logging true MsgSendFailed).

(** [print_status(message, is_error, notify_telegram)]. *)
Definition print_status (message : Msg) (is_error notify_telegram : bool)
  : M unit :=
  logging is_error message;;
  if notify_telegram && negb (CHAT_ID cfg =? 0)
  then send_telegram_message message
  else mret tt.

(** [FileMonitor.check_file_exists]. *)
Definition check_file_exists (url : string) : M (bool * Z) :=
  try_except
    (response ← requests_head url;
     if status_code response =? 200 then
       file_size ← content_length_int response;
       mret (true, file_size)
     else mret (false, 0))
    is_RequestException
    (λ _, print_status MsgProbeError true true;; mret (false, 0)).

(** The name tried for a counter value: [f"{base_name}_{counter}{ext}"]
    joined to the download directory. *)
Definition numbered_path (base_name ext : string) (counter : Z) : string :=
  Py.path_join (DOWNLOAD_DIR cfg) (base_name +:+ "_" +:+ pretty counter +:+ ext).

(** The loop [while os.path.exists(final_path)] of [download_file], on the
    files [fs]: the free path and the counter it leaves.  [None] when the
    fuel runs out. *)
Fixpoint free_path (fuel : nat) (fs : gmap string string)
    (base_name ext final_path : string) (counter : Z) : option (string * Z) :=
  match fs !! final_path with
  | None => Some (final_path, counter)
  | Some _ =>
      match fuel with
      | O => None
      | S fuel' =>
          free_path fuel' fs base_name ext
            (numbered_path base_name ext counter) (counter + 1)
      end
  end.

(** [with open(final_path, "wb") as f: f.write(response.content)]: the file
    is created or truncated by [open], then the body is read, written and
    the file closed.  [open] can fail, which leaves no file.  Writing or
    closing can fail too, after some number of characters of the body has
    reached the file; both failures raise [OSError]. *)
Definition write_file (final_path : string) (response : Response) : M unit :=
  opened ← gets (λ s, open_wb env (events s) final_path);
  emit (EvOpen final_path);;
  if opened : bool then
    modify (put_file final_path "");;
    body ← read_content response;
    failure ← gets (λ s, write_wb env (events s) final_path body);
    match failure with
    | None => modify (put_file final_path body)
    | Some n => modify (put_file final_path (Py.str_take n body));; raise OSError
    end
  else raise OSError.

(** [file_size / (1024 * 1024 * download_time)]: the integer has to become a
    float, and the divisor must not be zero. *)
Definition download_speed (file_size download_time : Z) : M unit :=
  if Py.float_overflows file_size then raise OverflowError
  else if download_time =? 0 then raise ZeroDivisionError
  else mret tt.

(** [file_size / (1024 * 1024)]. *)
Definition size_in_mb (file_size : Z) : M unit :=
  if Py.truediv_mb_overflows file_size then raise OverflowError else mret tt.

(** The [try] block of [FileMonitor.download_file].  The loop gets as much
    fuel as there are files, plus one; [free_path_enough] shows that it is
    enough. *)
Definition download_file_try (url filename : string) : M bool :=
  print_status (MsgDownloading filename) false false;;
  start_time ← datetime_now;
  response ← requests_get url;
  if status_code response =? 200 then
    let '(base_name, ext) := Py.splitext filename in
    fs ← gets files;
    match free_path (S (size fs)) fs base_name ext
            (Py.path_join (DOWNLOAD_DIR cfg) filename) 1 with
    | None => out_of_fuel
    | Some (final_path, counter) =>
        filename ← (if 1 <? counter then
                      print_status (MsgRenamed (Py.basename final_path))
                        false false;;
                      mret (Py.basename final_path)
                    else mret filename);
        file_size ← content_length_int response;
        size_in_mb file_size;;
        write_file final_path response;;
        end_time ← datetime_now;
        download_speed file_size (end_time - start_time);;
        print_status
          (MsgDownloadCompleted filename file_size (end_time - start_time))
          false true;;
        mret true
    end
  else
    text ← read_content response;
    print_status
      (MsgDownloadFailed filename (status_code response) (Py.str_take 200 text))
      true true;;
    mret false.

(** [FileMonitor.download_file]. *)
Definition download_file (url filename : string) : M bool :=
  try_except (download_file_try url filename) is_RequestException
    (λ _, print_status MsgDownloadError true true;; mret false).

Definition filename_of (index : Z) (ext : string) : string :=
  "file_" +:+ pretty index +:+ "." +:+ ext.

Definition url_of (index : Z) (ext : string) : string :=
  BASE_URL +:+ "/" +:+ filename_of index ext.

(** The [try] block of [process_file]; [None] when it falls through to the
    final [return False, False]. *)
Definition process_file_try (url filename : string) : M (option (bool * bool)) :=
  '(exists_, file_size) ← check_file_exists url;
  if exists_ : bool then
    size_in_mb file_size;;
    send_telegram_message (MsgNewFile filename file_size);;
    downloaded ← download_file url filename;
    if downloaded : bool then
      modify (add_found_file url);;
      mret (Some (true, true))
    else mret (Some (true, false))
  else mret None.

(** [FileMonitor.process_file]. *)
Definition process_file (index : Z) (ext : string) : M (bool * bool) :=
  let filename := filename_of index ext in
  let url := url_of index ext in
  found_files ← gets (λ s, FileMonitor.found_files (self s));
  if decide (url ∈ found_files) then mret (false, false)
  else
    print_status (MsgChecking filename) false false;;
    r ← try_except (process_file_try url filename) is_Exception
          (λ e, print_status (MsgProcessError filename e) true true;;
                mret None);
    mret (default (false, false) r).

(** [FileMonitor.send_status_report]. *)
Definition send_status_report : M unit :=
  clock ← datetime_now;
  reporter ← gets (λ s, FileMonitor.status_reporter (self s));
  send_telegram_message (StatusReporter.get_status_report reporter clock).

(** The [for ext in SUPPORTED_EXTENSIONS] loop of [check_new_files], with
    the two local counters. *)
Fixpoint for_ext (exts : list string) (counts : Z * Z) : M (Z * Z) :=
  match exts with
  | [] => mret counts
  | ext :: rest =>
      index ← gets (λ s, FileMonitor.current_index (self s));
      '(found, downloaded) ← process_file index ext;
      for_ext rest
        (if found : bool
         then (counts.1 + 1, if downloaded : bool then counts.2 + 1 else counts.2)
         else counts)
  end.

(** The [while self.current_index <= END_INDEX] loop of [check_new_files]. *)
Fixpoint while_index (fuel : nat) (counts : Z * Z) : M (Z * Z) :=
  index ← gets (λ s, FileMonitor.current_index (self s));
  if index <=? END_INDEX cfg then
    match fuel with
    | O => out_of_fuel
    | S fuel' =>
        counts ← for_ext (SUPPORTED_EXTENSIONS cfg) counts;
        modify (λ s, put_current_index (FileMonitor.current_index (self s) + 1) s);;
        index ← gets (λ s, FileMonitor.current_index (self s));
        if END_INDEX cfg <? index then
          modify (put_current_index (START_INDEX cfg));;
          print_status (MsgCycleCompleted (START_INDEX cfg) (END_INDEX cfg))
            false false;;
          mret counts
        else while_index fuel' counts
    end
  else mret counts.

(** The status reporter's part of [check_new_files]. *)
Definition record_pass (counts : Z * Z) : M unit :=
  clock ← datetime_now;
  modify (λ s, put_status_reporter
     (StatusReporter.update_stats (FileMonitor.status_reporter (self s)) clock
        counts.1 counts.2) s);;
  modify (λ s, put_status_reporter
     (StatusReporter.set_current_index (FileMonitor.status_reporter (self s))
        (FileMonitor.current_index (self s))) s).

(** [FileMonitor.check_new_files].  The loop gets one unit of fuel for each
    index from the cursor to [END_INDEX]; [check_new_files_returns] shows
    that it is enough. *)
Definition check_new_files : M unit :=
  print_status MsgStartingCheck false false;;
  index ← gets (λ s, FileMonitor.current_index (self s));
  print_status (MsgCurrentIndex index) false false;;
  counts ← while_index (Z.to_nat (END_INDEX cfg - index + 1)) (0, 0);
  record_pass counts.

(** [os.makedirs(path, exist_ok=True)]: it raises [OSError] when the
    directory cannot be made, and always for the empty path. *)
Definition os_makedirs (path : string) : M unit :=
  created ← gets (λ s, makedirs env (events s) path);
  emit (EvMakedirs path);;
  match path with
  | EmptyString => raise OSError
  | String _ _ => if created : bool then mret tt else raise OSError
  end.

(** [FileMonitor.__init__]: the three attributes are set before the
    download directory is made, so they are set also when that fails. *)
Definition FileMonitor_init : M unit :=
  clock ← datetime_now;
  modify (put_self {| FileMonitor.current_index := 0;
                      FileMonitor.found_files := ∅;
                      FileMonitor.status_reporter := StatusReporter.init clock |});;
  os_makedirs (DOWNLOAD_DIR cfg);;
  send_telegram_message MsgStartup.

(** What the scheduler runs when a task is due. *)
Inductive Job :=
| JobCheck
| JobReport.

Definition run_job (j : Job) : M unit :=
  match j with
  | JobCheck => check_new_files
  | JobReport => send_status_report
  end.

(** [schedule.run_pending()] over the life of the process: the due tasks,
    in the order they come. *)
Fixpoint run_pending (jobs : list Job) : M unit :=
  match jobs with
  | [] => mret tt
  | j :: rest => run_job j;; run_pending rest
  end.

(** The life of a monitor, as [main] has it: construction, the immediate
    first check between its two log lines, then the scheduled tasks. *)
Definition session (jobs : list Job) : M unit :=
  FileMonitor_init;;
  logging false MsgInitialCheck;;
  check_new_files;;
  logging false MsgEnteringLoop;;
  run_pending jobs.

(** [main], from the validation on, until the tasks in [jobs] have run and
    the process is interrupted; the last line is the [finally] clause. *)
Definition main (jobs : list Job) : M unit :=
  try_except
    (validate_config;;
     session jobs;;
     logging false MsgInterrupted;;
     send_telegram_message MsgStopped)
    is_Exception
    (λ e, logging true (MsgSystemError e);;
          send_telegram_message (MsgSystemError e));;
  logging false MsgStopped.

End Program.

(** ** The vocabulary of the properties *)

(** However [m] ends, the state it leaves is related to the one it found. *)
Definition preserves (R : relation State) {A} (m : M A) : Prop :=
  ∀ s r s', m s = (r, s') → R s s'.

(** [m] always comes back: it never runs out of fuel (it may raise). *)
Definition terminates {A} (m : M A) : Prop := ∀ s, (m s).1 ≠ OutOfFuel.

(** [m] always returns a value. *)
Definition returns {A} (m : M A) : Prop := ∀ s, ∃ a, (m s).1 = Ret a.

(** The seen-set only grows. *)
Definition seen_grows : relation State := λ s s',
  FileMonitor.found_files (self s) ⊆ FileMonitor.found_files (self s').

(** The cursor and the counters are left alone. *)
Definition cursor_kept : relation State := λ s s',
  FileMonitor.current_index (self s') = FileMonitor.current_index (self s)
  ∧ FileMonitor.status_reporter (self s') = FileMonitor.status_reporter (self s).

(** The monitor object is left alone. *)
Definition self_kept : relation State := λ s s', self s' = self s.

(** Every file that was there is still there, with its content. *)
Definition files_kept : relation State := λ s s', files s ⊆ files s'.

(** Nothing is taken back from the record of events. *)
Definition events_grow : relation State := λ s s', events s `prefix_of` events s'.

(** Only the record of events changes. *)
Definition quiet : relation State := λ s s',
  files s' = files s ∧ self s' = self s ∧ events s `prefix_of` events s'.

(** The checks on data alone: they leave the state as it is, and they come
    back. *)
Definition pure_check {A} (m : M A) : Prop :=
  ∀ s r s', m s = (r, s') → s' = s ∧ r ≠ OutOfFuel.

(** The counters are left alone (the cursor may move). *)
Definition reporter_kept : relation State := λ s s',
  FileMonitor.status_reporter (self s') = FileMonitor.status_reporter (self s).

(** The local counters of a pass after one candidate. *)
Definition count_candidate (counts : Z * Z) (found downloaded : bool) : Z * Z :=
  if found
  then (counts.1 + 1, if downloaded then counts.2 + 1 else counts.2)
  else counts.

(** Each counter only grows, and the downloads no faster than the finds. *)
Definition counts_le (c c' : Z * Z) : Prop :=
  c.1 ≤ c'.1 ∧ c.2 ≤ c'.2 ∧ c'.2 - c.2 ≤ c'.1 - c.1.


(** The sum of a list of integers. *)
Definition sumZ (l : list Z) : Z := foldr Z.add 0 l.

(** A call [update_stats(found, downloaded)] made at the time [at_time]. *)
Record Call := {
  at_time : Z;
  n_found : Z;
  n_downloaded : Z
}.

(** The status reporter after a sequence of calls of [update_stats]. *)
Definition record_all (calls : list Call) (reporter : StatusReporter.t)
  : StatusReporter.t :=
  foldl (λ r c, StatusReporter.update_stats r (at_time c) (n_found c) (n_downloaded c))
    reporter calls.

Section Vocabulary.

Variable cfg : Config.
Variable env : Env.

(** [download_file] wrote [body] to the free path the loop found. *)
Definition wrote (filename : string) (s s' : State) (final_path body : string)
  : Prop :=
  (∃ counter,
     free_path cfg (S (size (files s))) (files s)
       (Py.splitext filename).1 (Py.splitext filename).2
       (Py.path_join (DOWNLOAD_DIR cfg) filename) 1 = Some (final_path, counter))
  ∧ files s' = <[final_path := body]> (files s).

(** The scan pass in the words of the specification: the cursor takes each
    index of a range in turn, and every extension is tried at each. *)
Fixpoint scan_range (indices : list Z) (counts : Z * Z) : M (Z * Z) :=
  match indices with
  | [] => mret counts
  | index :: rest =>
      modify (put_current_index index);;
      counts ← for_ext cfg env (SUPPORTED_EXTENSIONS cfg) counts;
      scan_range rest counts
  end.

(** The whole pass in those words: walk from the cursor up to and including
    [END_INDEX]; if that range is not empty, reset the cursor to
    [START_INDEX] and log the completed cycle; record the pass once. *)
Definition scan_pass : M unit :=
  print_status cfg env MsgStartingCheck false false;;
  index ← gets (λ s, FileMonitor.current_index (self s));
  print_status cfg env (MsgCurrentIndex index) false false;;
  counts ← scan_range (seqZ index (END_INDEX cfg - index + 1)) (0, 0);
  (if index <=? END_INDEX cfg then
     modify (put_current_index (START_INDEX cfg));;
     print_status cfg env (MsgCycleCompleted (START_INDEX cfg) (END_INDEX cfg))
       false false
   else mret tt);;
  record_pass env counts.

End Vocabulary.

(** ** Concrete worlds to run the program in *)

(** A configuration that [validate_config] accepts when
    [start_index <= end_index] and there is an extension. *)
Definition config (start_index end_index : Z) (exts : list string) : Config :=
  {| BOT_TOKEN := Some "bot-token";
     CHAT_ID := 42;
     MONITOR_TOKEN := Some "monitor-token";
     DOWNLOAD_DIR := "downloaded_files";
     LOG_DIR := "logs";
     CHECK_INTERVAL := 5;
     REPORT_INTERVAL := 6;
     START_INDEX := start_index;
     END_INDEX := end_index;
     SUPPORTED_EXTENSIONS := exts |}.

(** The answer for a file that is not there. *)
Definition not_found : Response :=
  {| status_code := 404; content_length := None; content := Got "Not Found" |}.

(** The answer for a file that is there: status 200, the [content-length]
    header [size] and the content [body]. *)
Definition served (size body : string) : Response :=
  {| status_code := 200; content_length := Some size; content := Got body |}.

(** A world whose answers do not depend on the past: the clock ticks once
    per event, every post goes through, every directory can be made and
    every file can be opened and written. *)
Definition world (head get : string → Net Response) : Env :=
  {| now := λ evs, Z.of_nat (List.length evs);
     http_head := λ _, head;
     http_get := λ _, get;
     http_post := λ _ _, Got tt;
     makedirs := λ _ _, true;
     open_wb := λ _ _, true;
     write_wb := λ _ _ _, None |}.

(** The process before [FileMonitor()] is called, on the files [fs]. *)
Definition boot (fs : gmap string string) : State :=
  {| events := [];
     files := fs;
     self := {| FileMonitor.current_index := 0;
                FileMonitor.found_files := ∅;
                FileMonitor.status_reporter := StatusReporter.init 0 |} |}.

(** The URLs probed, in a record of events. *)
Definition probed (evs : list Event) : list string :=
  omap (λ e, match e with EvHead url => Some url | _ => None end) evs.

(** A remote that answers every probe with status 200 and a repeated
    [Content-Length] field, which reaches the program as one header value. *)
Definition head_repeated_length (url : string) : Net Response :=
  Got (served "1048576, 1048576" "").

(** A monitor that has already downloaded the first text file. *)
Definition after_first_download : State :=
  {| events := [];
     files := {[ "downloaded_files/file_1.txt" := "payload" ]};
     self := {| FileMonitor.current_index := 0;
                FileMonitor.found_files := {[ url_of (config 0 2 ["txt"]) 1 "txt" ]};
                FileMonitor.status_reporter := StatusReporter.init 0 |} |}.

(** A remote that has the file but fails every download with status 500. *)
Definition head_present (url : string) : Net Response := Got (served "7" "").

(** Every download answered with status 500. *)
Definition get_broken (url : string) : Net Response :=
  Got {| status_code := 500; content_length := None;
         content := Got "Internal Server Error" |}.

(** A download directory that already holds [file_5.txt]. *)
Definition with_file_5 : State :=
  boot {[ "downloaded_files/file_5.txt" := "first" ]}.

(** Every download answered with the content [second]. *)
Definition get_file_5 (url : string) : Net Response := Got (served "6" "second").

(** The remote of the scenario: [file_1.txt] is served, with a
    [Content-Length] of 1048576, and nothing else is.  (The body is kept
    short: the program reads its size from the header.) *)
Definition only_file_1 (url : string) : Net Response :=
  Got (if String.eqb url (url_of (config 0 2 ["txt"]) 1 "txt")
       then served "1048576" "payload" else not_found).

(** ** Counting requests *)

Definition is_head (e : Event) : bool :=
  match e with EvHead _ => true | _ => false end.

Definition is_get (e : Event) : bool :=
  match e with EvGet _ => true | _ => false end.

(** The number of events of a kind in a record of events. *)
Fixpoint count_kind (kind : Event → bool) (evs : list Event) : nat :=
  match evs with
  | [] => 0
  | e :: rest => (if kind e then 1 else 0) + count_kind kind rest
  end.

(** The number of events of a kind so far. *)
Definition made (kind : Event → bool) (s : State) : nat :=
  count_kind kind (events s).

(** No event of the kind is added. *)
Definition kept_count (kind : Event → bool) : relation State := λ s s',
  made kind s' = made kind s.


(** Between two states at most [n] HEAD requests were made, and no more
    GET requests than HEAD requests. *)
Definition at_most (n : nat) (s s' : State) : Prop :=
  (made is_head s ≤ made is_head s' ≤ made is_head s + n)%nat
  ∧ (made is_get s ≤ made is_get s')%nat
  ∧ (made is_get s' - made is_get s ≤ made is_head s' - made is_head s)%nat.

(** [c in s], for a character. *)
Fixpoint has_char (c : ascii) (s : string) : bool :=
  match s with
  | EmptyString => false
  | String a rest => Ascii.eqb a c || has_char c rest
  end.

(** A property of the state that the step keeps. *)
Definition keeps (I : State → Prop) : relation State := λ s s', I s → I s'.

(** The GET requests for one URL. *)
Definition is_get_to (url : string) (e : Event) : bool :=
  match e with EvGet u => bool_decide (u = url) | _ => false end.

(** A world whose clock stands still: every reading is 0.  Nothing answers
    a probe; downloads are answered by [get]. *)
Definition frozen (get : string → Net Response) : Env :=
  {| now := λ _, 0;
     http_head := λ _ _, Failed;
     http_get := λ _, get;
     http_post := λ _ _, Got tt;
     makedirs := λ _ _, true;
     open_wb := λ _ _, true;
     write_wb := λ _ _ _, None |}.

(** Between two states a HEAD request for [url] was made. *)
Definition probed_since (url : string) : relation State := λ s s',
  ∃ k, events s' = (events s ++ k)%list ∧ EvHead url ∈ k.

(** Among the events [new], the message was logged, and posted to the
    operator when there is one. *)
Definition reported (cfg : Config) (is_error : bool) (message : Msg)
    (new : list Event) : Prop :=
  EvLog is_error message ∈ new ∧ (CHAT_ID cfg ≠ 0 → EvPost message ∈ new).

(** The HEAD requests for one URL. *)
Definition is_head_to (url : string) (e : Event) : bool :=
  match e with EvHead u => bool_decide (u = url) | _ => false end.

(** How many times [x] is listed in [l]. *)
Fixpoint listed {A} `{EqDecision A} (x : A) (l : list A) : nat :=
  match l with
  | [] => 0
  | y :: rest => (if bool_decide (y = x) then 1 else 0) + listed x rest
  end.

(** The events a kind counts, when it counts no log line, no post and no
    opening of a file. *)
Definition counts_requests (kind : Event → bool) : Prop :=
  (∀ b m, kind (EvLog b m) = false)
  ∧ (∀ m, kind (EvPost m) = false)
  ∧ (∀ p, kind (EvOpen p) = false).

(** The counts of the requests for one URL. *)
Definition to_url_at_most (url : string) (n : nat) (s s' : State) : Prop :=
  (made (is_head_to url) s ≤ made (is_head_to url) s'
   ≤ made (is_head_to url) s + n)%nat
  ∧ (made (is_get_to url) s ≤ made (is_get_to url) s')%nat
  ∧ (made (is_get_to url) s' - made (is_get_to url) s
     ≤ made (is_head_to url) s' - made (is_head_to url) s)%nat.

(** ** Reading the configuration *)

(** [s.split(sep)] for a separator of one character: the pieces between the
    occurrences of [sep], empty ones included. *)
Fixpoint str_split (sep : ascii) (s : string) : list string :=
  match s with
  | EmptyString => [EmptyString]
  | String a rest =>
      if Ascii.eqb a sep then EmptyString :: str_split sep rest
      else match str_split sep rest with
           | piece :: pieces => String a piece :: pieces
           | [] => [String a EmptyString]
           end
  end.

(** [sep.join(pieces)]. *)
Fixpoint str_join (sep : string) (pieces : list string) : string :=
  match pieces with
  | [] => EmptyString
  | [piece] => piece
  | piece :: rest => piece +:+ sep +:+ str_join sep rest
  end.

(** [int(os.getenv(key, default))] with an integer default; [None] stands
    for the [ValueError] of [int]. *)
Definition getenv_int (environ : gmap string string) (key : string)
    (default : Z) : option Z :=
  match environ !! key with
  | Some value => Py.int value
  | None => Some default
  end.

(** The module-level assignments, on the process environment as
    [load_dotenv] leaves it (values are strings of code points below 256).
    [None] stands for the [ValueError] that ends the import. *)
Definition read_environment (environ : gmap string string) : option Config :=
  chat_id ← getenv_int environ "CHAT_ID" 0;
  check_interval ← getenv_int environ "CHECK_INTERVAL" 5;
  report_interval ← getenv_int environ "REPORT_INTERVAL" 6;
  start_index ← getenv_int environ "START_INDEX" 0;
  end_index ← getenv_int environ "END_INDEX" 100;
  Some {| BOT_TOKEN := environ !! "BOT_TOKEN";
          CHAT_ID := chat_id;
          MONITOR_TOKEN := environ !! "MONITOR_TOKEN";
          DOWNLOAD_DIR := default "downloaded_files" (environ !! "DOWNLOAD_DIR");
          LOG_DIR := default "logs" (environ !! "LOG_DIR");
          CHECK_INTERVAL := check_interval;
          REPORT_INTERVAL := report_interval;
          START_INDEX := start_index;
          END_INDEX := end_index;
          SUPPORTED_EXTENSIONS :=
            str_split "," (default "txt,zip" (environ !! "SUPPORTED_EXTENSIONS")) |}.

(** ** The Python runtime functions, on examples *)

Example int_plain : Py.int "1048576" = Some 1048576.
Proof. reflexivity. Qed.

Example int_signed_spaced : Py.int " -1_000 " = Some (-1000).
Proof. reflexivity. Qed.

Example int_not_a_number : Py.int "abc" = None.
Proof. reflexivity. Qed.

Example int_empty : Py.int "" = None.
Proof. reflexivity. Qed.

Example int_bad_underscore : Py.int "1__0" = None.
Proof. reflexivity. Qed.

Example int_next_line : Py.int (String "5" (String (ascii_of_nat 133) "")) = Some 5.
Proof. reflexivity. Qed.

Example int_separator : Py.int (String "5" (String (ascii_of_nat 28) "")) = None.
Proof. reflexivity. Qed.

Example int_digit_limit :
  is_Some (Py.int (string_of_list_ascii (replicate 4300 "1"%char)))
  ∧ Py.int (string_of_list_ascii (replicate 4301 "1"%char)) = None
  ∧ Py.int (string_of_list_ascii (replicate 4301 "0"%char)) = None.
Proof. split_and!; [vm_compute; by eexists | vm_compute; reflexivity..]. Qed.

Example splitext_txt : Py.splitext "file_5.txt" = ("file_5", ".txt").
Proof. reflexivity. Qed.

Example splitext_two_dots : Py.splitext "file_5.tar.gz" = ("file_5.tar", ".gz").
Proof. reflexivity. Qed.

Example splitext_hidden : Py.splitext "dir/.profile" = ("dir/.profile", "").
Proof. reflexivity. Qed.

Example join_plain :
  Py.path_join "downloaded_files" "file_5.txt" = "downloaded_files/file_5.txt".
Proof. reflexivity. Qed.

Example join_absolute : Py.path_join "downloaded_files" "/tmp/x" = "/tmp/x".
Proof. reflexivity. Qed.

Example basename_path : Py.basename "downloaded_files/file_5_1.txt" = "file_5_1.txt".
Proof. reflexivity. Qed.

(** ** Running computations *)

Ltac unfold_M :=
  unfold mbind, M_bind, mret, M_ret, raise, out_of_fuel, try_except, gets,
    modify, emit in *.

Section Running.

Context {A B : Type}.

Lemma bind_Ret (m : M A) (f : A → M B) s a s' :
  m s = (Ret a, s') → (m ≫= f) s = f a s'.
Proof. intros H. unfold_M. by rewrite H. Qed.

Lemma bind_Raise (m : M A) (f : A → M B) s e s' :
  m s = (Raise e, s') → (m ≫= f) s = (Raise e, s').
Proof. intros H. unfold_M. by rewrite H. Qed.

Lemma bind_OutOfFuel (m : M A) (f : A → M B) s s' :
  m s = (OutOfFuel, s') → (m ≫= f) s = (OutOfFuel, s').
Proof. intros H. unfold_M. by rewrite H. Qed.

(** How a sequence came to its outcome. *)
Lemma bind_inv (m : M A) (f : A → M B) s r s2 :
  (m ≫= f) s = (r, s2) →
  (∃ a s1, m s = (Ret a, s1) ∧ f a s1 = (r, s2))
  ∨ (∃ e, m s = (Raise e, s2) ∧ r = Raise e)
  ∨ (m s = (OutOfFuel, s2) ∧ r = OutOfFuel).
Proof.
  unfold_M. destruct (m s) as [[a|e|] s1]; intros H.
  - left. eauto.
  - right; left. simplify_eq. eauto.
  - right; right. by simplify_eq.
Qed.

End Running.

(** ** Properties every step keeps *)

Section Preserves.

Variable R : relation State.
Context `{!PreOrder R}.

Lemma preserves_ret {A} (a : A) : preserves R (mret a).
Proof. intros s r s' H. unfold_M. by simplify_eq. Qed.

Lemma preserves_raise {A} e : preserves R (@raise A e).
Proof. intros s r s' H. unfold_M. by simplify_eq. Qed.

Lemma preserves_out_of_fuel {A} : preserves R (@out_of_fuel A).
Proof. intros s r s' H. unfold_M. by simplify_eq. Qed.

Lemma preserves_gets {A} (f : State → A) : preserves R (gets f).
Proof. intros s r s' H. unfold_M. by simplify_eq. Qed.

Lemma preserves_modify (f : State → State) :
  (∀ s, R s (f s)) → preserves R (modify f).
Proof. intros Hf s r s' H. unfold_M. simplify_eq. apply Hf. Qed.

Lemma preserves_bind {A B} (m : M A) (f : A → M B) :
  preserves R m → (∀ a, preserves R (f a)) → preserves R (m ≫= f).
Proof.
  intros Hm Hf s r s2 H.
  apply bind_inv in H as [(a & s1 & H1 & H2)|[(e & H1 & _)|[H1 _]]]; eauto.
  etrans; [by eapply Hm | by eapply Hf].
Qed.

Lemma preserves_try_except {A} (body : M A) catches handler :
  preserves R body → (∀ e, preserves R (handler e)) →
  preserves R (try_except body catches handler).
Proof.
  intros Hb Hh s r s2 H. unfold try_except in H.
  destruct (body s) as [[a|e|] s1] eqn:E; simplify_eq; eauto.
  destruct (catches e); simplify_eq; eauto.
  etrans; [by eapply Hb | by eapply Hh].
Qed.

End Preserves.

(** Splits a goal [preserves R m] along the structure of [m]. *)
Ltac preserves_side :=
  lazymatch goal with
  | |- PreOrder _ => apply _
  | |- preserves _ _ => idtac
  | |- _ => intros ?
  end.

Ltac preserves_step :=
  first
    [ apply preserves_ret
    | apply preserves_raise
    | apply preserves_out_of_fuel
    | apply preserves_gets
    | apply preserves_bind
    | apply preserves_try_except
    | match goal with
      | |- preserves _ (if ?b then _ else _) => destruct b
      | |- preserves _ (match ?x with _ => _ end) => destruct x
      | |- preserves _ (let (_, _) := ?x in _) => destruct x
      end ];
  preserves_side.

(** ** Outcomes a computation cannot have *)

Section Outcomes.

Lemma returns_terminates {A} (m : M A) : returns m → terminates m.
Proof. intros H s. destruct (H s) as [a ->]. done. Qed.

Lemma returns_ret {A} (a : A) : returns (mret a).
Proof. intros s. by exists a. Qed.

Lemma returns_gets {A} (f : State → A) : returns (gets f).
Proof. intros s. by eexists. Qed.

Lemma returns_modify f : returns (modify f).
Proof. intros s. by exists tt. Qed.

Lemma returns_bind {A B} (m : M A) (f : A → M B) :
  returns m → (∀ a, returns (f a)) → returns (m ≫= f).
Proof.
  intros Hm Hf s. destruct (Hm s) as [a Ha].
  destruct (m s) as [r s1] eqn:E. simpl in Ha. subst r.
  rewrite (bind_Ret _ _ _ _ _ E). apply Hf.
Qed.

Lemma terminates_bind {A B} (m : M A) (f : A → M B) :
  terminates m → (∀ a, terminates (f a)) → terminates (m ≫= f).
Proof.
  intros Hm Hf s. specialize (Hm s).
  destruct (m s) as [[a|e|] s1] eqn:E; simpl in Hm; [| |done].
  - rewrite (bind_Ret _ _ _ _ _ E). apply Hf.
  - by rewrite (bind_Raise _ _ _ _ _ E).
Qed.

Lemma terminates_try_except {A} (body : M A) catches handler :
  terminates body → (∀ e, terminates (handler e)) →
  terminates (try_except body catches handler).
Proof.
  intros Hb Hh s. specialize (Hb s). unfold try_except.
  destruct (body s) as [[a|e|] s1]; simpl in *; [done| |done].
  destruct (catches e); [apply Hh | done].
Qed.

(** [except Exception] around a body that terminates, with a handler that
    returns, always returns. *)
Lemma returns_try_except_all {A} (body : M A) handler :
  terminates body → (∀ e, returns (handler e)) →
  returns (try_except body is_Exception handler).
Proof.
  intros Hb Hh s. specialize (Hb s). unfold try_except.
  destruct (body s) as [[a|e|] s1]; simpl in *; [by eexists| |done].
  apply Hh.
Qed.

(** [except RequestException] around a body that raises nothing else. *)
Lemma returns_try_except_request {A} (body : M A) handler :
  (∀ s, ∃ a, (body s).1 = Ret a ∨ (body s).1 = Raise RequestException) →
  (∀ e, returns (handler e)) →
  returns (try_except body is_RequestException handler).
Proof.
  intros Hb Hh s. destruct (Hb s) as [a Ha]. unfold try_except.
  destruct (body s) as [r s1]; simpl in *.
  destruct Ha as [->| ->]; [by eexists | apply Hh].
Qed.

End Outcomes.

(** ** Names tried by the downloader *)

Lemma append_cons (a : ascii) (s t : string) :
  String a s +:+ t = String a (s +:+ t).
Proof. reflexivity. Qed.

Lemma append_length (s1 s2 : string) :
  String.length (s1 +:+ s2) = (String.length s1 + String.length s2)%nat.
Proof.
  induction s1 as [|a s1 IH]; [done|].
  rewrite append_cons. simpl. by rewrite IH.
Qed.

Lemma append_cancel_r (s1 s2 e : string) : s1 +:+ e = s2 +:+ e → s1 = s2.
Proof.
  intros H.
  assert (String.length s1 = String.length s2) as Hlen.
  { apply (f_equal String.length) in H. rewrite !append_length in H. lia. }
  revert s2 H Hlen. induction s1 as [|a s1 IH]; intros [|b s2] H Hlen;
    simpl in Hlen; try done.
  rewrite !append_cons in H. injection H as -> H. f_equal. apply IH; [done | lia].
Qed.

Lemma append_assoc (s1 s2 s3 : string) : (s1 +:+ s2) +:+ s3 = s1 +:+ (s2 +:+ s3).
Proof.
  induction s1 as [|a s1 IH]; [done|]. rewrite !append_cons. by f_equal.
Qed.

(** All the names [base_N ext] start alike, so the download directory is
    joined to each of them in the same way. *)
Lemma path_join_numbered (dir base_name ext : string) :
  ∃ pre, ∀ tail,
    Py.path_join dir (base_name +:+ "_" +:+ tail) = pre +:+ base_name +:+ "_" +:+ tail.
Proof.
  assert (∃ b, ∀ tail, Py.startswith_sep (base_name +:+ "_" +:+ tail) = b) as [b Hb].
  { destruct base_name as [|a base_name].
    - exists false. done.
    - exists (Py.startswith_sep (String a "")). intros tail.
      rewrite append_cons. by destruct a as [[] [] [] [] [] [] [] []]. }
  unfold Py.path_join. destruct b.
  - exists "". intros tail. by rewrite Hb.
  - destruct dir as [|d dir].
    + exists "". intros tail. by rewrite Hb.
    + destruct (Py.endswith_sep (String d dir)).
      * exists (String d dir). intros tail. by rewrite Hb.
      * exists (String d dir +:+ "/"). intros tail.
        by rewrite Hb, !append_assoc.
Qed.

Section Names.

Variable cfg : Config.

(** Different counters give different paths. *)
Lemma numbered_path_inj base_name ext (j k : Z) :
  numbered_path cfg base_name ext j = numbered_path cfg base_name ext k → j = k.
Proof.
  unfold numbered_path.
  destruct (path_join_numbered (DOWNLOAD_DIR cfg) base_name ext) as [pre Hpre].
  rewrite !Hpre. intros H.
  do 3 apply String.app_inj in H.
  apply append_cancel_r in H. by apply (inj pretty) in H.
Qed.

(** What the loop returns: a free path; either the one it was given, or the
    numbered path of the last counter tried, every earlier one being taken. *)
Lemma free_path_spec fuel (fs : gmap string string) base_name ext p c p' c' :
  free_path cfg fuel fs base_name ext p c = Some (p', c') →
  fs !! p' = None ∧ c ≤ c' ∧
  (c' = c → p' = p) ∧
  (c < c' →
     is_Some (fs !! p) ∧
     p' = numbered_path cfg base_name ext (c' - 1) ∧
     ∀ k, c ≤ k < c' - 1 → is_Some (fs !! numbered_path cfg base_name ext k)).
Proof.
  revert p c. induction fuel as [|fuel IH]; intros p c; simpl.
  - destruct (fs !! p) eqn:E; [done|]. intros [= <- <-].
    split_and!; [done | lia | done | lia].
  - destruct (fs !! p) eqn:E.
    + intros H. apply IH in H as (Hfree & Hle & Hsame & Hnext).
      split_and!; [done | lia | lia |]. intros _.
      split; [by eexists|].
      destruct (decide (c' = c + 1)) as [->|Hne].
      * split; [rewrite Hsame by done; f_equal; lia | intros k ?; lia].
      * destruct Hnext as (Htaken & -> & Hall); [lia|].
        split; [done|]. intros k Hk.
        destruct (decide (k = c)) as [->|]; [done | apply Hall; lia].
    + intros [= <- <-]. split_and!; [done | lia | done | lia].
Qed.

(** The fuel is enough when it exceeds the number of numbered paths, from
    the counter on, that are taken. *)
Lemma free_path_fuel fuel (fs : gmap string string) base_name ext
    (X : gset string) p c :
  (∀ k, c ≤ k → is_Some (fs !! numbered_path cfg base_name ext k) →
        numbered_path cfg base_name ext k ∈ X) →
  (size X < fuel)%nat →
  is_Some (free_path cfg fuel fs base_name ext p c).
Proof.
  revert X p c. induction fuel as [|fuel IH]; intros X p c HX Hsize; [lia|].
  simpl. destruct (fs !! p) eqn:E; [|by eexists].
  destruct (fs !! numbered_path cfg base_name ext c) eqn:E'.
  - apply (IH (X ∖ {[numbered_path cfg base_name ext c]})).
    + intros k Hk Htaken. apply elem_of_difference. split; [apply HX; [lia|done]|].
      rewrite elem_of_singleton. intros Heq%numbered_path_inj. lia.
    + assert (numbered_path cfg base_name ext c ∈ X) as Hin
        by (apply HX; [lia | by eexists]).
      pose proof (size_difference X {[numbered_path cfg base_name ext c]}) as Hd.
      rewrite size_singleton in Hd.
      assert (size X ≠ 0%nat).
      { intros Hz%size_empty_inv. set_solver. }
      rewrite Hd by set_solver. lia.
  - destruct fuel; simpl; rewrite E'; by eexists.
Qed.

(** The fuel [download_file] gives the loop is enough. *)
Lemma free_path_enough (fs : gmap string string) base_name ext p :
  is_Some (free_path cfg (S (size fs)) fs base_name ext p 1).
Proof.
  apply (free_path_fuel _ _ _ _ (dom fs)).
  - intros k _ Htaken. by apply elem_of_dom.
  - rewrite size_dom. lia.
Qed.

End Names.

(** ** The notifier and the log *)

Section Notifier.

Variable cfg : Config.
Variable env : Env.

Lemma logging_returns is_error message : returns (logging is_error message).
Proof. intros s. by exists tt. Qed.

Lemma requests_post_outcome message s :
  (requests_post env message s).1 = Ret tt
  ∨ (requests_post env message s).1 = Raise RequestException.
Proof.
  unfold requests_post. destruct (http_post env (events s) message) as [[]|]; auto.
Qed.

Lemma send_telegram_message_returns message :
  returns (send_telegram_message cfg env message).
Proof.
  unfold send_telegram_message. destruct (CHAT_ID cfg =? 0).
  - apply logging_returns.
  - apply returns_try_except_request; [|intros _; apply logging_returns].
    intros s. exists tt. apply requests_post_outcome.
Qed.

Lemma print_status_returns message is_error notify_telegram :
  returns (print_status cfg env message is_error notify_telegram).
Proof.
  unfold print_status. apply returns_bind; [apply logging_returns|]. intros _.
  destruct (notify_telegram && negb (CHAT_ID cfg =? 0));
    [apply send_telegram_message_returns | apply returns_ret].
Qed.

(** What a log line without notification does to the state. *)
Lemma print_status_quiet message is_error s :
  print_status cfg env message is_error false s
  = (Ret tt, add_event (EvLog is_error message) s).
Proof. reflexivity. Qed.

End Notifier.

(** ** What each method keeps *)

(** A relation between states that every event, and every change to the
    monitor a method makes, respects is kept by the method. *)
Section Stepwise.

Variable cfg : Config.
Variable env : Env.
Variable R : relation State.
Context `{!PreOrder R}.

Hypothesis R_event : ∀ e s, R s (add_event e s).

Lemma logging_preserves is_error message :
  preserves R (logging is_error message).
Proof. apply preserves_modify. auto. Qed.

Lemma requests_post_preserves message : preserves R (requests_post env message).
Proof.
  intros s r s' H. unfold requests_post in H.
  destruct (http_post env (events s) message); simplify_eq; auto.
Qed.

Lemma requests_head_preserves url : preserves R (requests_head env url).
Proof.
  intros s r s' H. unfold requests_head in H.
  destruct (http_head env (events s) url); simplify_eq; auto.
Qed.

Lemma requests_get_preserves url : preserves R (requests_get env url).
Proof.
  intros s r s' H. unfold requests_get in H.
  destruct (http_get env (events s) url); simplify_eq; auto.
Qed.

Lemma send_telegram_message_preserves message :
  preserves R (send_telegram_message cfg env message).
Proof.
  unfold send_telegram_message.
  repeat first [apply logging_preserves | apply requests_post_preserves
               | preserves_step].
Qed.

Lemma print_status_preserves message is_error notify_telegram :
  preserves R (print_status cfg env message is_error notify_telegram).
Proof.
  unfold print_status.
  repeat first [apply logging_preserves | apply send_telegram_message_preserves
               | preserves_step].
Qed.

Lemma content_length_int_preserves response :
  preserves R (content_length_int response).
Proof. unfold content_length_int. repeat preserves_step. Qed.

Lemma read_content_preserves response : preserves R (read_content response).
Proof. unfold read_content. repeat preserves_step. Qed.

Lemma size_in_mb_preserves n : preserves R (size_in_mb n).
Proof. unfold size_in_mb. repeat preserves_step. Qed.

Lemma download_speed_preserves n t : preserves R (download_speed n t).
Proof. unfold download_speed. repeat preserves_step. Qed.

Lemma check_file_exists_preserves url :
  preserves R (check_file_exists cfg env url).
Proof.
  unfold check_file_exists.
  repeat first [apply requests_head_preserves | apply print_status_preserves
               | apply content_length_int_preserves | preserves_step].
Qed.

(** The downloader, for a relation that does not look at the files. *)
Section Download.

Hypothesis R_put_file : ∀ path body s, R s (put_file path body s).

Lemma write_file_preserves final_path response :
  preserves R (write_file env final_path response).
Proof.
  unfold write_file.
  repeat first [apply preserves_modify; solve [auto]
               | apply read_content_preserves | preserves_step].
Qed.

Lemma download_file_preserves url filename :
  preserves R (download_file cfg env url filename).
Proof.
  unfold download_file, download_file_try, datetime_now.
  repeat first [apply requests_get_preserves | apply print_status_preserves
               | apply content_length_int_preserves | apply size_in_mb_preserves
               | apply download_speed_preserves | apply write_file_preserves
               | apply read_content_preserves | preserves_step].
Qed.

End Download.

(** The scan, given that the downloader keeps the relation. *)
Section Scan.

Hypothesis R_download :
  ∀ url filename, preserves R (download_file cfg env url filename).
Hypothesis R_add_found_file : ∀ url s, R s (add_found_file url s).

Lemma process_file_try_preserves url filename :
  preserves R (process_file_try cfg env url filename).
Proof.
  unfold process_file_try.
  repeat first [apply check_file_exists_preserves | apply size_in_mb_preserves
               | apply send_telegram_message_preserves | apply R_download
               | apply preserves_modify; solve [auto] | preserves_step].
Qed.

Lemma process_file_preserves index ext :
  preserves R (process_file cfg env index ext).
Proof.
  unfold process_file.
  repeat first [apply process_file_try_preserves | apply print_status_preserves
               | preserves_step].
Qed.

Lemma for_ext_preserves exts counts : preserves R (for_ext cfg env exts counts).
Proof.
  revert counts. induction exts as [|ext exts IH]; intros counts; simpl.
  - preserves_step.
  - repeat first [apply process_file_preserves | apply IH | preserves_step].
Qed.

Hypothesis R_put_current_index : ∀ i s, R s (put_current_index i s).
Hypothesis R_put_status_reporter : ∀ r s, R s (put_status_reporter r s).

Lemma while_index_preserves fuel counts :
  preserves R (while_index cfg env fuel counts).
Proof.
  revert counts. induction fuel as [|fuel IH]; intros counts; simpl.
  - repeat preserves_step.
  - repeat first [apply for_ext_preserves | apply print_status_preserves
                 | apply IH | apply preserves_modify; solve [auto]
                 | preserves_step].
Qed.

Lemma record_pass_preserves counts : preserves R (record_pass env counts).
Proof.
  unfold record_pass, datetime_now.
  repeat first [apply preserves_modify; solve [auto] | preserves_step].
Qed.

Lemma check_new_files_preserves : preserves R (check_new_files cfg env).
Proof.
  unfold check_new_files.
  repeat first [apply while_index_preserves | apply print_status_preserves
               | apply record_pass_preserves | preserves_step].
Qed.

Lemma send_status_report_preserves : preserves R (send_status_report cfg env).
Proof.
  unfold send_status_report, datetime_now.
  repeat first [apply send_telegram_message_preserves | preserves_step].
Qed.

Lemma run_pending_preserves jobs : preserves R (run_pending cfg env jobs).
Proof.
  induction jobs as [|[] jobs IH]; simpl.
  - preserves_step.
  - preserves_step; [apply check_new_files_preserves | done].
  - preserves_step; [apply send_status_report_preserves | done].
Qed.

End Scan.

End Stepwise.

(** ** The relations are preorders *)

Global Instance seen_grows_po : PreOrder seen_grows.
Proof. split; [intros s | intros s1 s2 s3]; unfold seen_grows; set_solver. Qed.

Global Instance cursor_kept_po : PreOrder cursor_kept.
Proof.
  split; [by intros s | intros s1 s2 s3 [H1 H2] [H3 H4]].
  split; congruence.
Qed.

Global Instance self_kept_po : PreOrder self_kept.
Proof. split; [by intros s | intros s1 s2 s3]; unfold self_kept; congruence. Qed.

Global Instance files_kept_po : PreOrder files_kept.
Proof.
  split; [intros s | intros s1 s2 s3]; unfold files_kept;
    [reflexivity | apply transitivity].
Qed.

Global Instance events_grow_po : PreOrder events_grow.
Proof.
  split; [intros s | intros s1 s2 s3]; unfold events_grow;
    [reflexivity | apply transitivity].
Qed.

Global Instance quiet_po : PreOrder quiet.
Proof.
  split; [intros s; by split_and! | intros s1 s2 s3 (H1 & H2 & H3) (H4 & H5 & H6)].
  split_and!; [congruence | congruence | by etrans].
Qed.

Lemma quiet_event e s : quiet s (add_event e s).
Proof. split_and!; [done | done | by apply prefix_app_r]. Qed.

(** ** The downloader and the files *)

Section Downloader.

Variable cfg : Config.
Variable env : Env.

(** A notification always returns, and changes nothing but the record of
    events. *)
Lemma send_telegram_message_run message s :
  ∃ s1, send_telegram_message cfg env message s = (Ret tt, s1) ∧ quiet s s1.
Proof.
  destruct (send_telegram_message_returns cfg env message s) as [[] Hr].
  destruct (send_telegram_message cfg env message s) as [r s1] eqn:E.
  simpl in Hr. subst r. exists s1. split; [done|].
  eapply send_telegram_message_preserves; [apply _ | apply quiet_event | done].
Qed.

Lemma print_status_run message is_error notify_telegram s :
  ∃ s1, print_status cfg env message is_error notify_telegram s = (Ret tt, s1)
        ∧ quiet s s1.
Proof.
  destruct (print_status_returns cfg env message is_error notify_telegram s)
    as [[] Hr].
  destruct (print_status cfg env message is_error notify_telegram s)
    as [r s1] eqn:E.
  simpl in Hr. subst r. exists s1. split; [done|].
  eapply print_status_preserves; [apply _ | apply quiet_event | done].
Qed.

End Downloader.

Section Inversion.

Context {A B : Type}.

Lemma try_except_inv (body : M A) catches handler s r s' :
  try_except body catches handler s = (r, s') →
  (body s = (r, s') ∧ ∀ e, r = Raise e → catches e = false)
  ∨ (∃ e s1, body s = (Raise e, s1) ∧ catches e = true ∧ handler e s1 = (r, s')).
Proof.
  unfold try_except. destruct (body s) as [[a|e|] s1] eqn:E; intros H.
  - left. by simplify_eq.
  - destruct (catches e) eqn:Hc.
    + right. eauto.
    + left. simplify_eq. split; [done|]. by intros ? [= <-].
  - left. by simplify_eq.
Qed.

End Inversion.

Lemma content_length_int_pure response : pure_check (content_length_int response).
Proof.
  intros s r s'. unfold content_length_int.
  destruct (content_length response) as [h|]; [destruct (Py.int h)|];
    by intros [= <- <-].
Qed.

Lemma read_content_pure response : pure_check (read_content response).
Proof.
  intros s r s'. unfold read_content.
  destruct (content response); by intros [= <- <-].
Qed.

Lemma size_in_mb_pure n : pure_check (size_in_mb n).
Proof.
  intros s r s'. unfold size_in_mb.
  destruct (Py.truediv_mb_overflows n); by intros [= <- <-].
Qed.

Lemma download_speed_pure n t : pure_check (download_speed n t).
Proof.
  intros s r s'. unfold download_speed.
  destruct (Py.float_overflows n); [|destruct (t =? 0)]; by intros [= <- <-].
Qed.

Section DownloaderEffect.

Variable cfg : Config.
Variable env : Env.

(** What [write_file] leaves: nothing when the file cannot be opened, an
    empty file when the body cannot be read, a part of the body when the
    writing fails, the body otherwise. *)
Lemma write_file_effect final_path response s r s' :
  write_file env final_path response s = (r, s') →
  self s' = self s ∧ events s `prefix_of` events s' ∧
  ((r = Raise OSError
    ∧ (files s' = files s
       ∨ ∃ body n, content response = Got body
                   ∧ files s' = <[final_path := Py.str_take n body]> (files s)))
   ∨ (r = Raise RequestException ∧ files s' = <[final_path := ""]> (files s))
   ∨ (∃ body, content response = Got body ∧ r = Ret tt
              ∧ files s' = <[final_path := body]> (files s))).
Proof.
  unfold write_file, read_content. unfold_M. simpl.
  destruct (open_wb env (events s) final_path); simpl.
  - destruct (content response) as [body|] eqn:Hc; simpl.
    + destruct (write_wb env _ final_path body) as [n|]; simpl;
        intros H; simplify_eq;
        (split_and!; [done | by apply prefix_app_r |]).
      * left. split; [done|]. right. exists body, n.
        split; [done|]. simpl. by rewrite insert_insert_eq.
      * right; right. exists body.
        split_and!; [done | done |]. simpl. by rewrite insert_insert_eq.
    + intros H; simplify_eq.
      split_and!; [done | by apply prefix_app_r |]. right; left. done.
  - intros H; simplify_eq. split_and!; [done | by apply prefix_app_r |].
    left. split; [done | by left].
Qed.

#[local] Arguments free_path : simpl never.

Lemma download_file_try_effect url filename s r s' :
  download_file_try cfg env url filename s = (r, s') →
  r ≠ OutOfFuel ∧
  ((files s' = files s ∧ r ≠ Ret true)
   ∨ ∃ final_path body, wrote cfg filename s s' final_path body).
Proof.
  unfold wrote, download_file_try, datetime_now.
  destruct (Py.splitext filename) as [base_name ext] eqn:Hsplit.
  cbn [fst snd]. intros H.
  destruct (print_status_run cfg env (MsgDownloading filename) false false s)
    as (s1 & E & (Hf1 & _ & _)).
  rewrite (bind_Ret _ _ _ _ _ E) in H. clear E.
  erewrite bind_Ret in H by reflexivity.
  rewrite <- Hf1.
  assert (∀ r0 s2, requests_get env url s1 = (r0, s2) →
            files s2 = files s1 ∧ r0 ≠ OutOfFuel) as Hget.
  { intros r0 s2. unfold requests_get.
    destruct (http_get env (events s1) url); by intros [= <- <-]. }
  apply bind_inv in H as [(response & s2 & H1 & H)|[(e & H1 & ->)|[H1 ->]]];
    apply Hget in H1 as [Hf2 Hr]; [|by (split; [done | left])|done].
  rewrite <- Hf2. clear Hget Hr.
  destruct (status_code response =? 200).
  - erewrite bind_Ret in H by reflexivity.
    destruct (free_path_enough cfg (files s2) base_name ext
                (Py.path_join (DOWNLOAD_DIR cfg) filename))
      as [[final_path counter] Hfree].
    rewrite Hfree in H.
    assert (∃ name s3, files s3 = files s2 ∧
              (content_length_int response
               ≫= λ file_size, size_in_mb file_size
               ≫= λ _, write_file env final_path response
               ≫= λ _, gets (λ s, now env (events s))
               ≫= λ end_time, download_speed file_size (end_time - now env (events s1))
               ≫= λ _, print_status cfg env
                    (MsgDownloadCompleted name file_size (end_time - now env (events s1)))
                    false true
               ≫= λ _, mret true) s3 = (r, s')) as (name & s3 & Hf3 & H3).
    { destruct (1 <? counter).
      - destruct (print_status_run cfg env (MsgRenamed (Py.basename final_path))
                    false false s2) as (s3 & E & (Hf3 & _ & _)).
        exists (Py.basename final_path), s3. split; [done|].
        assert ((print_status cfg env (MsgRenamed (Py.basename final_path))
                   false false ≫= λ _, mret (Py.basename final_path)) s2
                = (Ret (Py.basename final_path), s3)) as E2
          by (by rewrite (bind_Ret _ _ _ _ _ E)).
        by rewrite (bind_Ret _ _ _ _ _ E2) in H.
      - exists filename, s2. split; [done|].
        by erewrite bind_Ret in H by reflexivity. }
    clear H. rewrite <- Hf3 in *. clear Hf3.
    apply bind_inv in H3 as [(n & s4 & H1 & H)|[(e & H1 & ->)|[H1 ->]]];
      apply content_length_int_pure in H1 as [-> Hne];
      [clear Hne|by (split; [done | left])|done].
    apply bind_inv in H as [([] & s4 & H1 & H)|[(e & H1 & ->)|[H1 ->]]];
      apply size_in_mb_pure in H1 as [-> Hne]; [clear Hne|by (split; [done | left])|done].
    apply bind_inv in H as [([] & s4 & H1 & H)|[(e & H1 & ->)|[H1 ->]]];
      apply write_file_effect in H1
        as (_ & _ & [[? Hw]|[[? Hw]|(body & _ & ? & Hw)]]); simplify_eq.
    + erewrite bind_Ret in H by reflexivity.
      apply bind_inv in H as [([] & s5 & H1 & H)|[(e & H1 & ->)|[H1 ->]]];
        apply download_speed_pure in H1 as [-> Hne];
        [clear Hne|by (split; [done | right; eauto])|done].
      destruct (print_status_run cfg env
                  (MsgDownloadCompleted name n
                     (now env (events s4) - now env (events s1))) false true s4)
        as (s5 & E & (Hf5 & _ & _)).
      rewrite (bind_Ret _ _ _ _ _ E) in H. injection H as <- <-.
      split; [done|]. right. exists final_path, body. split; [eauto | congruence].
    + split; [done|]. destruct Hw as [Hw|(body & k & _ & Hw)].
      * left. split; [congruence | done].
      * right. eauto.
    + split; [done|]. right. eauto.
  - apply bind_inv in H as [(text & s3 & H1 & H)|[(e & H1 & ->)|[H1 ->]]];
      apply read_content_pure in H1 as [-> Hne];
      [clear Hne|by (split; [done | left])|done].
    destruct (print_status_run cfg env
                (MsgDownloadFailed filename (status_code response)
                   (Py.str_take 200 text)) true true s2)
      as (s3 & E & (Hf3 & _ & _)).
    rewrite (bind_Ret _ _ _ _ _ E) in H. injection H as <- <-.
    split; [done|]. left. split; [congruence | done].
Qed.

(** The same for the whole method: the handler only reports. *)
Lemma download_file_effect url filename s r s' :
  download_file cfg env url filename s = (r, s') →
  r ≠ OutOfFuel ∧
  ((files s' = files s ∧ r ≠ Ret true)
   ∨ ∃ final_path body, wrote cfg filename s s' final_path body).
Proof.
  unfold download_file. intros H.
  apply try_except_inv in H as [[H _]|(e & s1 & H & _ & Hh)].
  - by apply download_file_try_effect in H.
  - apply download_file_try_effect in H as [_ H].
    destruct (print_status_run cfg env MsgDownloadError true true s1)
      as (s2 & E & (Hf2 & _ & _)).
    rewrite (bind_Ret _ _ _ _ _ E) in Hh. injection Hh as <- <-.
    split; [done|]. destruct H as [[Hf _]|(p & body & Hfree & Hw)].
    + left. split; [congruence | done].
    + right. exists p, body. split; [done | congruence].
Qed.

(** [download_file] never runs out of fuel. *)
Lemma download_file_terminates url filename :
  terminates (download_file cfg env url filename).
Proof.
  intros s. destruct (download_file cfg env url filename s) as [r s'] eqn:E.
  by apply download_file_effect in E as [? _].
Qed.

(** [download_file] never changes a file that exists: what it writes, it
    writes to a path that was free. *)
Lemma wrote_free filename s s' final_path body :
  wrote cfg filename s s' final_path body → files s !! final_path = None.
Proof. intros [[counter Hfree%free_path_spec] _]. tauto. Qed.

Lemma download_file_files_kept url filename :
  preserves files_kept (download_file cfg env url filename).
Proof.
  intros s r s' H. unfold files_kept.
  apply download_file_effect in H as [_ [[-> _]|(p & body & Hw)]]; [done|].
  pose proof (wrote_free _ _ _ _ _ Hw) as Hnone.
  destruct Hw as [_ ->]. by apply insert_subseteq.
Qed.

End DownloaderEffect.

(** ** One candidate *)

Section Candidate.

Variable cfg : Config.
Variable env : Env.

Lemma pure_check_terminates {A} (m : M A) : pure_check m → terminates m.
Proof.
  intros Hm s. destruct (m s) as [r s'] eqn:E. by apply Hm in E as [_ ?].
Qed.

Lemma requests_head_terminates url : terminates (requests_head env url).
Proof.
  intros s. unfold requests_head. by destruct (http_head env (events s) url).
Qed.

Lemma check_file_exists_terminates url :
  terminates (check_file_exists cfg env url).
Proof.
  unfold check_file_exists. apply terminates_try_except.
  - apply terminates_bind; [apply requests_head_terminates|]. intros response.
    destruct (status_code response =? 200).
    + apply terminates_bind.
      * apply pure_check_terminates, content_length_int_pure.
      * intros n. apply returns_terminates, returns_ret.
    + apply returns_terminates, returns_ret.
  - intros _. apply returns_terminates, returns_bind;
      [apply print_status_returns | intros _; apply returns_ret].
Qed.

Lemma process_file_try_terminates url filename :
  terminates (process_file_try cfg env url filename).
Proof.
  unfold process_file_try.
  apply terminates_bind; [apply check_file_exists_terminates|].
  intros [[] file_size]; [|apply returns_terminates, returns_ret].
  apply terminates_bind; [apply pure_check_terminates, size_in_mb_pure|]. intros _.
  apply terminates_bind;
    [apply returns_terminates, send_telegram_message_returns|]. intros _.
  apply terminates_bind; [apply download_file_terminates|].
  intros []; apply returns_terminates.
  - apply returns_bind; [apply returns_modify | intros _; apply returns_ret].
  - apply returns_ret.
Qed.

(** [process_file] always returns: whatever is raised inside its [try] is
    caught. *)
Lemma process_file_returns index ext : returns (process_file cfg env index ext).
Proof.
  unfold process_file. apply returns_bind; [apply returns_gets|].
  intros found_files. destruct (decide _); [apply returns_ret|].
  apply returns_bind; [apply print_status_returns|]. intros _.
  apply returns_bind; [|intros r; apply returns_ret].
  apply returns_try_except_all; [apply process_file_try_terminates|].
  intros e. apply returns_bind; [apply print_status_returns|].
  intros _. apply returns_ret.
Qed.

(** A candidate whose URL is in the seen-set is skipped at once. *)
Lemma process_file_seen index ext s :
  url_of cfg index ext ∈ FileMonitor.found_files (self s) →
  process_file cfg env index ext s = (Ret (false, false), s).
Proof.
  intros Hin. unfold process_file.
  erewrite bind_Ret by reflexivity. by rewrite decide_True.
Qed.

(** Otherwise the check is logged and the [try] block runs. *)
Lemma process_file_unseen index ext s :
  url_of cfg index ext ∉ FileMonitor.found_files (self s) →
  process_file cfg env index ext s
  = (r ← try_except
           (process_file_try cfg env (url_of cfg index ext) (filename_of index ext))
           is_Exception
           (λ e, print_status cfg env (MsgProcessError (filename_of index ext) e)
                   true true;; mret None);
     mret (default (false, false) r))
      (add_event (EvLog false (MsgChecking (filename_of index ext))) s).
Proof.
  intros Hin. unfold process_file.
  erewrite bind_Ret by reflexivity. rewrite decide_False by done.
  erewrite bind_Ret; [done|]. apply print_status_quiet.
Qed.

(** The outcomes of the [try] block, and what each does to the seen-set. *)
Lemma process_file_try_cases url filename s r s' :
  process_file_try cfg env url filename s = (r, s') →
  FileMonitor.current_index (self s') = FileMonitor.current_index (self s) ∧
  FileMonitor.status_reporter (self s') = FileMonitor.status_reporter (self s) ∧
  ((r = Ret (Some (true, true))
    ∧ FileMonitor.found_files (self s') = {[url]} ∪ FileMonitor.found_files (self s)
    ∧ ∃ s3 s4, download_file cfg env url filename s3 = (Ret true, s4))
   ∨ (r ≠ Ret (Some (true, true)) ∧ r ≠ Ret (Some (false, true))
      ∧ r ≠ Ret (Some (false, false))
      ∧ FileMonitor.found_files (self s') = FileMonitor.found_files (self s))).
Proof.
  assert (∀ {A} (m : M A) s1 r1 s2,
            preserves self_kept m → m s1 = (r1, s2) → self s2 = self s1) as Hk.
  { intros A m s1 r1 s2 Hm Hrun. by apply Hm in Hrun. }
  assert (∀ e s, self_kept s (add_event e s)) as Hev by done.
  unfold process_file_try. intros H.
  apply bind_inv in H as [([exists_ size] & s1 & H1 & H)|[(e & H1 & ->)|[H1 ->]]];
    apply (Hk _ _ _ _ _ (check_file_exists_preserves cfg env _ Hev url)) in H1
      as Hs1; [|rewrite Hs1; split_and!; [done|done|right; done]..].
  destruct exists_.
  2:{ injection H as <- <-. rewrite Hs1. split_and!; [done|done|right; done]. }
  apply bind_inv in H as [([] & s2 & H2 & H)|[(e & H2 & ->)|[H2 ->]]];
    apply size_in_mb_pure in H2 as [-> Hne];
    [clear Hne|rewrite Hs1; split_and!; [done|done|right; done]..].
  destruct (send_telegram_message_run cfg env (MsgNewFile filename size) s1)
    as (s2 & E & (_ & Hs2 & _)).
  rewrite (bind_Ret _ _ _ _ _ E) in H. clear E.
  apply bind_inv in H as [(downloaded & s3 & H3 & H)|[(e & H3 & ->)|[H3 ->]]];
    apply (Hk _ _ _ _ _
             (download_file_preserves cfg env _ Hev ltac:(done) url filename))
      in H3 as Hs3;
    [|rewrite Hs3, Hs2, Hs1; split_and!; [done|done|right; done]..].
  destruct downloaded.
  - erewrite bind_Ret in H by reflexivity. injection H as <- <-. simpl.
    rewrite Hs3, Hs2, Hs1. split_and!; [done|done|]. left. eauto.
  - injection H as <- <-. rewrite Hs3, Hs2, Hs1.
    split_and!; [done|done|right; done].
Qed.

(** [process_file] as a whole: a pair comes back, never [(False, True)];
    the cursor and the counters are untouched; and the seen-set either stays
    as it is or gains the URL, after a download that returned [True]. *)
Lemma process_file_cases index ext s r s' :
  process_file cfg env index ext s = (r, s') →
  FileMonitor.current_index (self s') = FileMonitor.current_index (self s) ∧
  FileMonitor.status_reporter (self s') = FileMonitor.status_reporter (self s) ∧
  ∃ found downloaded,
    r = Ret (found, downloaded) ∧ (downloaded = true → found = true) ∧
    ((FileMonitor.found_files (self s') = FileMonitor.found_files (self s)
      ∧ ((found, downloaded) ≠ (true, true)))
     ∨ (found = true ∧ downloaded = true
        ∧ (url_of cfg index ext ∉ FileMonitor.found_files (self s))
        ∧ FileMonitor.found_files (self s')
          = {[url_of cfg index ext]} ∪ FileMonitor.found_files (self s)
        ∧ ∃ s3 s4, download_file cfg env (url_of cfg index ext)
                     (filename_of index ext) s3 = (Ret true, s4))).
Proof.
  destruct (decide (url_of cfg index ext ∈ FileMonitor.found_files (self s)))
    as [Hin|Hin].
  { rewrite process_file_seen by done. intros [= <- <-].
    split_and!; [done|done|]. exists false, false. split_and!; [done|done|].
    left. done. }
  rewrite process_file_unseen by done. intros H.
  apply bind_inv in H as [(o & s1 & H1 & H)|[(e & H1 & ->)|[H1 ->]]].
  - injection H as <- <-.
    apply try_except_inv in H1 as [[H1 _]|(e & s2 & H1 & _ & Hh)].
    + apply process_file_try_cases in H1
        as (Hc & Hr & [(Ho & Hf & Hd)|(Ho1 & Ho2 & Ho3 & Hf)]); simpl in *.
      * injection Ho as ->. split_and!; [done|done|].
        exists true, true. split_and!; [done|done|]. right. done.
      * split_and!; [done|done|].
        destruct o as [[[] []]|]; try done.
        -- exists true, false. split_and!; [done|done|]. left. done.
        -- exists false, false. split_and!; [done|done|]. left. done.
    + destruct (print_status_run cfg env
                  (MsgProcessError (filename_of index ext) e) true true s2)
        as (s3 & E & Hq).
      rewrite (bind_Ret _ _ _ _ _ E) in Hh. clear E. injection Hh as <- <-.
      destruct Hq as (_ & Hs3 & _). rewrite Hs3.
      apply process_file_try_cases in H1
        as (Hc & Hr & [(Ho & _)|(_ & _ & _ & Hf)]); [done|]. simpl in *.
      split_and!; [done|done|].
      exists false, false. split_and!; [done|done|]. left. done.
  - apply try_except_inv in H1 as [[_ H1]|(e' & s2 & _ & _ & Hh)].
    + by specialize (H1 e eq_refl).
    + destruct (print_status_run cfg env
                  (MsgProcessError (filename_of index ext) e') true true s2)
        as (s3 & E & Hq).
      by rewrite (bind_Ret _ _ _ _ _ E) in Hh.
  - apply try_except_inv in H1 as [[H1 _]|(e' & s2 & _ & _ & Hh)].
    + pose proof (process_file_try_terminates (url_of cfg index ext)
                    (filename_of index ext)
                    (add_event (EvLog false (MsgChecking (filename_of index ext))) s))
        as Ht.
      by rewrite H1 in Ht.
    + destruct (print_status_run cfg env
                  (MsgProcessError (filename_of index ext) e') true true s2)
        as (s3 & E & Hq).
      by rewrite (bind_Ret _ _ _ _ _ E) in Hh.
Qed.


End Candidate.

(** ** The scan pass *)

Global Instance reporter_kept_po : PreOrder reporter_kept.
Proof.
  split; [by intros s | intros s1 s2 s3]; unfold reporter_kept; congruence.
Qed.

Section ScanPass.

Variable cfg : Config.
Variable env : Env.

Lemma counts_le_refl c : counts_le c c.
Proof. unfold counts_le. lia. Qed.

Lemma counts_le_trans c1 c2 c3 : counts_le c1 c2 → counts_le c2 c3 → counts_le c1 c3.
Proof. unfold counts_le. lia. Qed.

Lemma count_candidate_le counts found downloaded :
  (downloaded = true → found = true) →
  counts_le counts (count_candidate counts found downloaded).
Proof.
  unfold counts_le, count_candidate.
  destruct found, downloaded; simpl; intros H;
    first [lia | by specialize (H eq_refl)].
Qed.

Lemma for_ext_returns exts counts : returns (for_ext cfg env exts counts).
Proof.
  revert counts. induction exts as [|ext exts IH]; intros counts; simpl.
  - apply returns_ret.
  - apply returns_bind; [apply returns_gets|]. intros index.
    apply returns_bind; [apply process_file_returns|]. intros [found downloaded].
    apply IH.
Qed.

Lemma for_ext_counts exts counts s r s' :
  for_ext cfg env exts counts s = (r, s') →
  ∃ counts', r = Ret counts' ∧ counts_le counts counts'.
Proof.
  revert counts s. induction exts as [|ext exts IH]; intros counts s; simpl.
  - intros [= <- <-]. eexists. split; [done | apply counts_le_refl].
  - intros H. erewrite bind_Ret in H by reflexivity.
    apply bind_inv in H as [([f d] & s1 & H1 & H)|[(e & H1 & ->)|[H1 ->]]];
      apply process_file_cases in H1 as (_ & _ & f' & d' & Hr & Himp & _);
      try done.
    injection Hr as -> ->.
    apply IH in H as (counts' & -> & Hle). exists counts'. split; [done|].
    eapply counts_le_trans; [|exact Hle]. by apply (count_candidate_le counts).
Qed.

Lemma put_current_index_id s :
  put_current_index (FileMonitor.current_index (self s)) s = s.
Proof. by destruct s as [ev fs [c ff sr]]. Qed.

Lemma cursor_kept_event e s : cursor_kept s (add_event e s).
Proof. done. Qed.

Lemma for_ext_cursor exts counts s r s' :
  for_ext cfg env exts counts s = (r, s') →
  FileMonitor.current_index (self s') = FileMonitor.current_index (self s).
Proof.
  intros H. eapply (for_ext_preserves cfg env cursor_kept) in H; [by destruct H|..].
  - apply cursor_kept_event.
  - intros url filename. apply download_file_preserves; [apply _| |done].
    apply cursor_kept_event.
  - done.
Qed.

Lemma bind_assoc_run {A B C} (m : M A) (f : A → M B) (g : B → M C) s :
  ((m ≫= f) ≫= g) s = (m ≫= λ a, f a ≫= g) s.
Proof. unfold_M. by destruct (m s) as [[a|e|] s1]. Qed.

Lemma bind_same_run {A B} (m : M A) (f : A → M B) s s' :
  m s = m s' → (m ≫= f) s = (m ≫= f) s'.
Proof. unfold_M. by intros ->. Qed.

(** A range that starts at [index] sets the cursor to [index] first. *)
Lemma scan_range_put index n counts s :
  0 < n →
  scan_range cfg env (seqZ index n) counts (put_current_index index s)
  = scan_range cfg env (seqZ index n) counts s.
Proof. intros Hn. rewrite seqZ_cons by done. reflexivity. Qed.

(** The loop of the code visits exactly the indices from the cursor to
    [END_INDEX], then wraps; the fuel it is given suffices. *)
Lemma while_index_scan_range fuel counts s :
  (Z.to_nat (END_INDEX cfg - FileMonitor.current_index (self s) + 1) ≤ fuel)%nat →
  while_index cfg env fuel counts s
  = (counts ← scan_range cfg env
       (seqZ (FileMonitor.current_index (self s))
             (END_INDEX cfg - FileMonitor.current_index (self s) + 1)) counts;
     (if FileMonitor.current_index (self s) <=? END_INDEX cfg then
        modify (put_current_index (START_INDEX cfg));;
        print_status cfg env
          (MsgCycleCompleted (START_INDEX cfg) (END_INDEX cfg)) false false
      else mret tt);;
     mret counts) s.
Proof.
  revert counts s. induction fuel as [|fuel IH]; intros counts s Hfuel.
  - assert ((FileMonitor.current_index (self s) <=? END_INDEX cfg) = false) as Hc
      by (apply Z.leb_gt; lia).
    simpl. erewrite bind_Ret by reflexivity. rewrite Hc.
    rewrite seqZ_nil by lia. done.
  - simpl. erewrite bind_Ret by reflexivity.
    destruct (FileMonitor.current_index (self s) <=? END_INDEX cfg) eqn:Hc.
    2:{ apply Z.leb_gt in Hc. rewrite seqZ_nil by lia. done. }
    apply Z.leb_le in Hc.
    rewrite seqZ_cons by lia. simpl scan_range.
    replace (Z.succ (FileMonitor.current_index (self s)))
      with (FileMonitor.current_index (self s) + 1) by lia.
    replace (Z.pred (END_INDEX cfg - FileMonitor.current_index (self s) + 1))
      with (END_INDEX cfg - (FileMonitor.current_index (self s) + 1) + 1) by lia.
    rewrite (bind_assoc_run (modify _)).
    erewrite (bind_Ret (modify _)) by reflexivity.
    rewrite put_current_index_id. rewrite bind_assoc_run.
    destruct (for_ext cfg env (SUPPORTED_EXTENSIONS cfg) counts s)
      as [[counts1|e|] s1] eqn:E;
      [|by rewrite !(bind_Raise _ _ _ _ _ E)|by rewrite !(bind_OutOfFuel _ _ _ _ E)].
    apply for_ext_cursor in E as Hcur.
    rewrite !(bind_Ret _ _ _ _ _ E).
    erewrite bind_Ret by reflexivity. erewrite bind_Ret by reflexivity.
    simpl. rewrite Hcur.
    destruct (END_INDEX cfg <? FileMonitor.current_index (self s) + 1) eqn:Hend.
    + apply Z.ltb_lt in Hend. rewrite seqZ_nil by lia. reflexivity.
    + apply Z.ltb_ge in Hend. rewrite IH by (simpl; lia).
      simpl.
      assert ((FileMonitor.current_index (self s) + 1 <=? END_INDEX cfg) = true)
        as -> by (apply Z.leb_le; lia).
      apply bind_same_run, scan_range_put. lia.
Qed.

Lemma scan_range_returns indices counts : returns (scan_range cfg env indices counts).
Proof.
  revert counts. induction indices as [|i indices IH]; intros counts; simpl.
  - apply returns_ret.
  - apply returns_bind; [apply returns_modify|]. intros _.
    apply returns_bind; [apply for_ext_returns | apply IH].
Qed.

Lemma scan_range_counts indices counts s r s' :
  scan_range cfg env indices counts s = (r, s') →
  ∃ counts', r = Ret counts' ∧ counts_le counts counts'.
Proof.
  revert counts s. induction indices as [|i indices IH]; intros counts s; simpl.
  - intros [= <- <-]. eexists. split; [done | apply counts_le_refl].
  - intros H. erewrite bind_Ret in H by reflexivity.
    apply bind_inv in H as [(counts1 & s1 & H1 & H)|[(e & H1 & ->)|[H1 ->]]];
      apply for_ext_counts in H1 as (c1 & Hr & Hle1); try done.
    injection Hr as ->.
    apply IH in H as (counts' & -> & Hle). exists counts'. split; [done|].
    by eapply counts_le_trans.
Qed.

Lemma bind_ext_run {A B} (m : M A) (f g : A → M B) s :
  (∀ a s', f a s' = g a s') → (m ≫= f) s = (m ≫= g) s.
Proof. intros H. unfold_M. destruct (m s) as [[a|e|] s1]; [apply H|done..]. Qed.

Lemma bind_fun_run {A B} (m m' : M A) (f : A → M B) s :
  m s = m' s → (m ≫= f) s = (m' ≫= f) s.
Proof. unfold_M. by intros ->. Qed.

(** The code and the specification's wording describe the same pass. *)
Lemma check_new_files_scan_pass s :
  check_new_files cfg env s = scan_pass cfg env s.
Proof.
  unfold check_new_files, scan_pass.
  rewrite !(bind_Ret _ _ _ _ _ (print_status_quiet cfg env _ _ s)).
  erewrite !(bind_Ret (gets _)) by reflexivity.
  rewrite !(bind_Ret _ _ _ _ _ (print_status_quiet cfg env _ _ _)).
  simpl.
  etrans; [apply bind_fun_run, while_index_scan_range; simpl; lia|].
  simpl. rewrite bind_assoc_run. apply bind_ext_run. intros counts s1.
  rewrite bind_assoc_run. apply bind_ext_run. by intros [] s2.
Qed.

Lemma check_new_files_returns : returns (check_new_files cfg env).
Proof.
  intros s. rewrite check_new_files_scan_pass. revert s. unfold scan_pass.
  apply returns_bind; [apply print_status_returns|]. intros _.
  apply returns_bind; [apply returns_gets|]. intros index.
  apply returns_bind; [apply print_status_returns|]. intros _.
  apply returns_bind; [apply scan_range_returns|]. intros counts.
  apply returns_bind.
  - destruct (index <=? END_INDEX cfg); [|apply returns_ret].
    apply returns_bind; [apply returns_modify|]. intros _.
    apply print_status_returns.
  - intros _. unfold record_pass, datetime_now.
    apply returns_bind; [apply returns_gets|]. intros clock.
    apply returns_bind; [apply returns_modify|]. intros _. apply returns_modify.
Qed.

Lemma scan_range_reporter indices counts :
  preserves reporter_kept (scan_range cfg env indices counts).
Proof.
  revert counts. induction indices as [|i indices IH]; intros counts; simpl.
  - preserves_step.
  - preserves_step; [by apply preserves_modify|].
    preserves_step; [|apply IH].
    apply for_ext_preserves; [apply _|done| |done].
    intros url filename. by apply download_file_preserves; [apply _|..].
Qed.

(** What a pass leaves: the cursor on [START_INDEX] (or where it was, when
    it was already past [END_INDEX]), and the status reporter updated once,
    with counts of which the second is at most the first. *)
Lemma check_new_files_outcome s :
  ∃ s' clock counts,
    check_new_files cfg env s = (Ret tt, s') ∧
    FileMonitor.current_index (self s')
    = (if FileMonitor.current_index (self s) <=? END_INDEX cfg
       then START_INDEX cfg else FileMonitor.current_index (self s)) ∧
    0 ≤ counts.2 ≤ counts.1 ∧
    FileMonitor.status_reporter (self s')
    = StatusReporter.set_current_index
        (StatusReporter.update_stats (FileMonitor.status_reporter (self s))
           clock counts.1 counts.2)
        (FileMonitor.current_index (self s')).
Proof.
  rewrite check_new_files_scan_pass. unfold scan_pass.
  rewrite !(bind_Ret _ _ _ _ _ (print_status_quiet cfg env _ _ s)).
  erewrite !(bind_Ret (gets _)) by reflexivity.
  rewrite !(bind_Ret _ _ _ _ _ (print_status_quiet cfg env _ _ _)).
  simpl.
  set (s1 := add_event _ (add_event _ s)).
  set (c := FileMonitor.current_index (self s)).
  destruct (scan_range cfg env (seqZ c (END_INDEX cfg - c + 1)) (0, 0) s1)
    as [r s2] eqn:E.
  pose proof (scan_range_reporter _ _ _ _ _ E) as Hrep.
  pose proof E as Hcounts.
  apply scan_range_counts in Hcounts as (counts & -> & Hle).
  rewrite (bind_Ret _ _ _ _ _ E).
  destruct (c <=? END_INDEX cfg) eqn:Hc.
  - erewrite (bind_Ret (_ ≫= _)); cycle 1.
    { erewrite bind_Ret by reflexivity. apply print_status_quiet. }
    unfold record_pass, datetime_now.
    erewrite bind_Ret by reflexivity. erewrite bind_Ret by reflexivity.
    eexists _, _, counts. split; [reflexivity|]. simpl.
    split_and!; [done|unfold counts_le in Hle; simpl in Hle; lia..|].
    by rewrite Hrep.
  - apply Z.leb_gt in Hc. rewrite seqZ_nil in E by lia. injection E as <- <-.
    erewrite bind_Ret by reflexivity.
    unfold record_pass, datetime_now.
    erewrite bind_Ret by reflexivity. erewrite bind_Ret by reflexivity.
    eexists _, _, (0, 0). split; [reflexivity|]. simpl.
    split_and!; done.
Qed.

End ScanPass.

(** ** Properties of the specification *)

(** *** The status counters *)

Lemma record_all_from calls reporter :
  StatusReporter.files_found (record_all calls reporter)
  = StatusReporter.files_found reporter + sumZ (n_found <$> calls)
  ∧ StatusReporter.files_downloaded (record_all calls reporter)
    = StatusReporter.files_downloaded reporter + sumZ (n_downloaded <$> calls)
  ∧ StatusReporter.checks_performed (record_all calls reporter)
    = StatusReporter.checks_performed reporter + Z.of_nat (List.length calls).
Proof.
  revert reporter. induction calls as [|c calls IH]; intros reporter; simpl.
  - unfold sumZ. simpl. split_and!; lia.
  - destruct (IH (StatusReporter.update_stats reporter (at_time c) (n_found c)
                    (n_downloaded c))) as (-> & -> & ->).
    unfold sumZ. simpl. unfold fmap. split_and!; lia.
Qed.

(** C4: [n] calls of [update_stats] on a fresh status reporter leave
    [files_found] equal to the sum of the found counts, [files_downloaded]
    equal to the sum of the downloaded counts, and [checks_performed] equal
    to [n]. *)
Theorem update_stats_accumulates (clock : Z) (calls : list Call) :
  StatusReporter.files_found (record_all calls (StatusReporter.init clock))
  = sumZ (n_found <$> calls)
  ∧ StatusReporter.files_downloaded (record_all calls (StatusReporter.init clock))
    = sumZ (n_downloaded <$> calls)
  ∧ StatusReporter.checks_performed (record_all calls (StatusReporter.init clock))
    = Z.of_nat (List.length calls).
Proof.
  destruct (record_all_from calls (StatusReporter.init clock)) as (-> & -> & ->).
  simpl. split_and!; lia.
Qed.

Example update_stats_three :
  let r := record_all [ {| at_time := 10; n_found := 2; n_downloaded := 1 |};
                        {| at_time := 20; n_found := 0; n_downloaded := 0 |};
                        {| at_time := 30; n_found := 3; n_downloaded := 3 |} ]
             (StatusReporter.init 0) in
  (StatusReporter.files_found r, StatusReporter.files_downloaded r,
   StatusReporter.checks_performed r, StatusReporter.last_check_time r)
  = (5, 4, 3, Some 30).
Proof. reflexivity. Qed.

(** *** The notifier *)

(** C9: with no recipient configured ([CHAT_ID] zero), [send_telegram_message]
    logs an error and makes no network call; with a recipient, a transport
    failure of the post is caught and logged; in no case does the call
    raise. *)
Theorem send_telegram_message_never_raises cfg env message s :
  (send_telegram_message cfg env message s).1 = Ret tt
  ∧ (CHAT_ID cfg = 0 →
     (send_telegram_message cfg env message s).2
     = add_event (EvLog true MsgSetChatId) s)
  ∧ (CHAT_ID cfg ≠ 0 → http_post env (events s) message = Failed →
     (send_telegram_message cfg env message s).2
     = add_event (EvLog true MsgSendFailed) (add_event (EvPost message) s))
  ∧ (CHAT_ID cfg ≠ 0 → http_post env (events s) message = Got tt →
     (send_telegram_message cfg env message s).2
     = add_event (EvPost message) s).
Proof.
  split.
  { destruct (send_telegram_message_returns cfg env message s) as [[] H]. done. }
  unfold send_telegram_message. split_and!.
  - intros ->. done.
  - intros Hid%Z.eqb_neq Hpost. rewrite Hid.
    unfold try_except, requests_post. by rewrite Hpost.
  - intros Hid%Z.eqb_neq Hpost. rewrite Hid.
    unfold try_except, requests_post. by rewrite Hpost.
Qed.

(** A monitor with no recipient configured. *)
Example send_without_recipient :
  let cfg := {| BOT_TOKEN := Some "bot-token"; CHAT_ID := 0;
                MONITOR_TOKEN := Some "monitor-token";
                DOWNLOAD_DIR := "downloaded_files"; LOG_DIR := "logs";
                CHECK_INTERVAL := 5; REPORT_INTERVAL := 6;
                START_INDEX := 0; END_INDEX := 2;
                SUPPORTED_EXTENSIONS := ["txt"] |} in
  send_telegram_message cfg (world (λ _, Failed) (λ _, Failed)) MsgStartup (boot ∅)
  = (Ret tt, add_event (EvLog true MsgSetChatId) (boot ∅)).
Proof. reflexivity. Qed.

(** A post that fails in transport. *)
Example send_transport_failure :
  let env := {| now := λ _, 0; http_head := λ _ _, Failed;
                http_get := λ _ _, Failed; http_post := λ _ _, Failed;
                makedirs := λ _ _, true; open_wb := λ _ _, true;
                write_wb := λ _ _ _, None |} in
  send_telegram_message (config 0 2 ["txt"]) env MsgStartup (boot ∅)
  = (Ret tt, add_event (EvLog true MsgSendFailed)
               (add_event (EvPost MsgStartup) (boot ∅))).
Proof. reflexivity. Qed.

(** *** The existence probe *)

Lemma events_grow_event e s : events_grow s (add_event e s).
Proof. by apply prefix_app_r. Qed.

(** A status line is in the log once [print_status] is back. *)
Lemma print_status_logs cfg env message is_error notify_telegram s :
  ∃ s1, print_status cfg env message is_error notify_telegram s = (Ret tt, s1)
        ∧ (events s ++ [EvLog is_error message])%list `prefix_of` events s1.
Proof.
  destruct (print_status_run cfg env message is_error notify_telegram s)
    as (s1 & E & _).
  exists s1. split; [done|]. unfold print_status in E.
  apply bind_inv in E as [([] & s2 & H1 & H)|[(e' & H1 & ?)|[H1 ?]]]; try done.
  injection H1 as <-. destruct (_ && _).
  - by apply (send_telegram_message_preserves cfg env events_grow
                events_grow_event) in H.
  - by injection H as <-.
Qed.

(** C6, as the code has it: the probe never lets a transport failure out and
    never fails to come back.  A transport failure gives [(False, 0)] after
    the error is logged; a status other than 200 gives [(False, 0)]; status
    200 gives [(True, n)], where [n] is the [content-length] header read as
    an integer, or 0 when there is no such header.  When the header is there
    and [int] rejects it (it is not an integer literal, or it is a literal
    of more than 4300 digits), [ValueError] reaches the caller. *)
Theorem check_file_exists_outcomes cfg env url s :
  (check_file_exists cfg env url s).1 ≠ Raise RequestException
  ∧ (check_file_exists cfg env url s).1 ≠ OutOfFuel
  ∧ match http_head env (events s) url with
    | Failed =>
        (check_file_exists cfg env url s).1 = Ret (false, 0)
        ∧ EvLog true MsgProbeError ∈ events (check_file_exists cfg env url s).2
    | Got response =>
        (check_file_exists cfg env url s).2 = add_event (EvHead url) s
        ∧ (check_file_exists cfg env url s).1
          = if status_code response =? 200 then
              match content_length response with
              | None => Ret (true, 0)
              | Some header =>
                  match Py.int header with
                  | Some n => Ret (true, n)
                  | None => Raise ValueError
                  end
              end
            else Ret (false, 0)
    end.
Proof.
  unfold check_file_exists, requests_head, content_length_int. unfold_M.
  destruct (http_head env (events s) url) as [response|] eqn:Hhead; simpl.
  - destruct (status_code response =? 200); simpl; [|done].
    destruct (content_length response) as [header|]; simpl; [|done].
    by destruct (Py.int header).
  - destruct (print_status_logs cfg env MsgProbeError true true
                (add_event (EvHead url) s)) as (s1 & E & Hlog).
    rewrite E. simpl. split_and!; [done..|].
    eapply elem_of_prefix; [|exact Hlog]. set_solver.
Qed.

(** C6 as stated fails: there the probe raises [ValueError] to its caller. *)
Lemma check_file_exists_raises_ValueError :
  (check_file_exists (config 0 2 ["txt"])
     (world head_repeated_length (λ _, Failed))
     (url_of (config 0 2 ["txt"]) 1 "txt") (boot ∅)).1
  = Raise ValueError.
Proof. vm_compute. reflexivity. Qed.

(** [process_file] catches it: the candidate counts as not found. *)
Example process_file_catches_ValueError :
  (process_file (config 0 2 ["txt"])
     (world head_repeated_length (λ _, Failed)) 1 "txt" (boot ∅)).1
  = Ret (false, false).
Proof. vm_compute. reflexivity. Qed.

(** *** The seen-set *)

Lemma seen_grows_same s s' : self s' = self s → seen_grows s s'.
Proof. unfold seen_grows. by intros ->. Qed.

Lemma seen_grows_event e s : seen_grows s (add_event e s).
Proof. by apply seen_grows_same. Qed.

Lemma seen_grows_download cfg env url filename :
  preserves seen_grows (download_file cfg env url filename).
Proof.
  apply download_file_preserves; [apply _|apply seen_grows_event|].
  intros path body s. by apply seen_grows_same.
Qed.

Lemma seen_grows_add_found_file url s : seen_grows s (add_found_file url s).
Proof. unfold seen_grows. simpl. set_solver. Qed.

(** Scheduled tasks only add to the seen-set. *)
Lemma run_pending_seen_grows cfg env jobs :
  preserves seen_grows (run_pending cfg env jobs).
Proof.
  apply run_pending_preserves; [apply _|apply seen_grows_event|..].
  - apply seen_grows_download.
  - apply seen_grows_add_found_file.
  - intros i s. unfold seen_grows. simpl. reflexivity.
  - intros r s. unfold seen_grows. simpl. reflexivity.
Qed.

(** C2: a candidate whose URL is in the seen-set makes [process_file] return
    [(False, False)] at once, the state untouched: no probe, no download, no
    log line.  The URL stays in the seen-set through whatever tasks run
    later, so the same holds in every later pass. *)
Theorem seen_url_never_probed_again cfg env index ext jobs s r s' :
  url_of cfg index ext ∈ FileMonitor.found_files (self s) →
  run_pending cfg env jobs s = (r, s') →
  process_file cfg env index ext s = (Ret (false, false), s)
  ∧ url_of cfg index ext ∈ FileMonitor.found_files (self s')
  ∧ process_file cfg env index ext s' = (Ret (false, false), s').
Proof.
  intros Hin Hrun.
  assert (url_of cfg index ext ∈ FileMonitor.found_files (self s')) as Hin'.
  { apply run_pending_seen_grows in Hrun. by apply Hrun. }
  split_and!; [|done|]; by apply process_file_seen.
Qed.

Lemma seen_url_never_probed_again_witness :
  let cfg := config 0 2 ["txt"] in
  let env := world (λ _, Got (served "7" "payload"))
                   (λ _, Got (served "7" "payload")) in
  let s' := (run_pending cfg env [JobCheck; JobReport] after_first_download).2 in
  process_file cfg env 1 "txt" s' = (Ret (false, false), s').
Proof.
  intros cfg env s'.
  apply (seen_url_never_probed_again cfg env 1 "txt" [JobCheck; JobReport]
           after_first_download
           (run_pending cfg env [JobCheck; JobReport] after_first_download).1 s').
  - vm_compute. reflexivity.
  - subst s'. by destruct (run_pending _ _ _ _).
Defined.

(** *** A download that fails *)

Section Retry.

Variable cfg : Config.
Variable env : Env.

(** The probe's request is the first thing the probe does. *)
Lemma check_file_exists_probes url s r s' :
  check_file_exists cfg env url s = (r, s') →
  (events s ++ [EvHead url])%list `prefix_of` events s'.
Proof.
  unfold check_file_exists. intros H.
  assert (∀ r1 s1, requests_head env url s = (r1, s1) →
            s1 = add_event (EvHead url) s) as Hhead.
  { intros r1 s1. unfold requests_head.
    destruct (http_head env (events s) url); by intros [= <- <-]. }
  apply try_except_inv in H as [[H _]|(e & s1 & H & _ & Hh)].
  - apply bind_inv in H as [(response & s1 & H1 & H)|[(e & H1 & ->)|[H1 ->]]];
      apply Hhead in H1 as ->; [|simpl; reflexivity..].
    destruct (status_code response =? 200);
      [|injection H as _ <-; simpl; reflexivity].
    apply bind_inv in H as [(n & s2 & H1 & H)|[(e & H1 & ->)|[H1 ->]]];
      apply content_length_int_pure in H1 as [-> _]; [|simpl; reflexivity..].
    injection H as _ <-. simpl. reflexivity.
  - assert (s1 = add_event (EvHead url) s) as ->.
    { apply bind_inv in H as [(response & s2 & H1 & H)|[(e' & H1 & _)|[H1 ?]]];
        [|by apply Hhead in H1..].
      apply Hhead in H1 as ->.
      destruct (status_code response =? 200); [|done].
      apply bind_inv in H as [(n & s3 & H1 & H)|[(e' & H1 & _)|[H1 ?]]];
        by apply content_length_int_pure in H1 as [-> _]. }
    destruct (print_status_run cfg env MsgProbeError true true
                (add_event (EvHead url) s)) as (s2 & E & (_ & _ & Hg)).
    rewrite (bind_Ret _ _ _ _ _ E) in Hh. by injection Hh as <- <-.
Qed.

Lemma events_grow_download url filename :
  preserves events_grow (download_file cfg env url filename).
Proof.
  apply download_file_preserves; [apply _|apply events_grow_event|].
  intros path body s. unfold events_grow. done.
Qed.

(** A candidate that is not in the seen-set is probed. *)
Lemma process_file_probes index ext s r s' :
  url_of cfg index ext ∉ FileMonitor.found_files (self s) →
  process_file cfg env index ext s = (r, s') →
  (events s ++ [EvLog false (MsgChecking (filename_of index ext));
                EvHead (url_of cfg index ext)])%list `prefix_of` events s'.
Proof.
  intros Hin. rewrite process_file_unseen by done.
  set (t := add_event _ s). intros H.
  assert (∃ r1 t1, process_file_try cfg env (url_of cfg index ext)
                     (filename_of index ext) t = (r1, t1)
                   ∧ events t1 `prefix_of` events s') as (r1 & t1 & Htry & Hg).
  { apply bind_inv in H as [(o & s1 & H1 & H)|[(e & H1 & _)|[H1 _]]].
    - injection H as _ <-.
      apply try_except_inv in H1 as [[H1 _]|(e & s2 & H1 & _ & Hh)]; [by eauto|].
      eexists _, _. split; [exact H1|].
      destruct (print_status_run cfg env
                  (MsgProcessError (filename_of index ext) e) true true s2)
        as (s3 & E & (_ & _ & Hq)).
      rewrite (bind_Ret _ _ _ _ _ E) in Hh. by injection Hh as _ <-.
    - apply try_except_inv in H1 as [[H1 _]|(e' & s2 & H1 & _ & Hh)]; [by eauto|].
      eexists _, _. split; [exact H1|].
      destruct (print_status_run cfg env
                  (MsgProcessError (filename_of index ext) e') true true s2)
        as (s3 & E & (_ & _ & Hq)).
      by rewrite (bind_Ret _ _ _ _ _ E) in Hh.
    - apply try_except_inv in H1 as [[H1 _]|(e' & s2 & H1 & _ & Hh)]; [by eauto|].
      eexists _, _. split; [exact H1|].
      destruct (print_status_run cfg env
                  (MsgProcessError (filename_of index ext) e') true true s2)
        as (s3 & E & (_ & _ & Hq)).
      by rewrite (bind_Ret _ _ _ _ _ E) in Hh. }
  etrans; [|exact Hg]. clear H Hg.
  replace (events s ++ [EvLog false (MsgChecking (filename_of index ext));
                        EvHead (url_of cfg index ext)])%list
    with (events t ++ [EvHead (url_of cfg index ext)])%list
    by (subst t; simpl; by rewrite <- app_assoc).
  unfold process_file_try in Htry.
  apply bind_inv in Htry
    as [([exists_ size] & s1 & H1 & H)|[(e & H1 & _)|[H1 _]]];
    apply check_file_exists_probes in H1; [|done..].
  etrans; [exact H1|].
  assert (preserves events_grow
            (if exists_ : bool
             then size_in_mb size;;
                  send_telegram_message cfg env
                    (MsgNewFile (filename_of index ext) size);;
                  downloaded ← download_file cfg env (url_of cfg index ext)
                                 (filename_of index ext);
                  if downloaded : bool
                  then modify (add_found_file (url_of cfg index ext));;
                       mret (Some (true, true))
                  else mret (Some (true, false))
             else mret None)) as Hrest.
  { repeat first [apply size_in_mb_preserves
                 | apply send_telegram_message_preserves;
                     [apply _ | apply events_grow_event]
                 | apply events_grow_download
                 | apply preserves_modify; intros ?; unfold events_grow; done
                 | preserves_step
                 | match goal with |- PreOrder _ => apply _ end ]. }
  by apply Hrest in H.
Qed.

End Retry.

(** C3: when the probe of a candidate returns [exists = True] and the
    download then returns [False], [process_file] returns [(True, False)] and
    the seen-set is as it was, without the URL; the next [process_file] on
    the same index and extension probes the URL again.  The seen-set changes
    only by gaining the URL, and only when a download returned [True]. *)
Theorem failed_download_stays_eligible cfg env index ext s size s2 s4 :
  let filename := filename_of index ext in
  let url := url_of cfg index ext in
  url ∉ FileMonitor.found_files (self s) →
  check_file_exists cfg env url (add_event (EvLog false (MsgChecking filename)) s)
  = (Ret (true, size), s2) →
  Py.truediv_mb_overflows size = false →
  download_file cfg env url filename
    (send_telegram_message cfg env (MsgNewFile filename size) s2).2
  = (Ret false, s4) →
  process_file cfg env index ext s = (Ret (true, false), s4)
  ∧ FileMonitor.found_files (self s4) = FileMonitor.found_files (self s)
  ∧ (url ∉ FileMonitor.found_files (self s4))
  ∧ (∀ r5 s5, process_file cfg env index ext s4 = (r5, s5) →
       (events s4 ++ [EvLog false (MsgChecking filename); EvHead url])%list
         `prefix_of` events s5)
  ∧ (∀ s0 r0 s0', process_file cfg env index ext s0 = (r0, s0') →
       FileMonitor.found_files (self s0') ≠ FileMonitor.found_files (self s0) →
       r0 = Ret (true, true)
       ∧ FileMonitor.found_files (self s0')
         = {[url]} ∪ FileMonitor.found_files (self s0)
       ∧ ∃ s3 s3', download_file cfg env url filename s3 = (Ret true, s3')).
Proof.
  intros filename url Hin Hcheck Hsize Hdownload.
  assert (process_file cfg env index ext s = (Ret (true, false), s4)) as Hrun.
  { rewrite process_file_unseen by done. fold filename url.
    assert (process_file_try cfg env url filename
              (add_event (EvLog false (MsgChecking filename)) s)
            = (Ret (Some (true, false)), s4)) as Htry.
    { unfold process_file_try. rewrite (bind_Ret _ _ _ _ _ Hcheck).
      unfold size_in_mb. rewrite Hsize. erewrite bind_Ret by reflexivity.
      destruct (send_telegram_message_run cfg env (MsgNewFile filename size) s2)
        as (s3 & E & _).
      rewrite E in Hdownload. rewrite (bind_Ret _ _ _ _ _ E).
      by rewrite (bind_Ret _ _ _ _ _ Hdownload). }
    erewrite (bind_Ret _ _ _ (Some (true, false)) s4); [done|].
    unfold try_except. by rewrite Htry. }
  assert (FileMonitor.found_files (self s4) = FileMonitor.found_files (self s))
    as Hsame.
  { apply process_file_cases in Hrun
      as (_ & _ & f & d & [= <- <-] & _ & [[Hf _]|(_ & [=] & _)]). done. }
  split_and!; [done | done | by rewrite Hsame | |].
  - intros r5 s5. apply process_file_probes. by rewrite Hsame.
  - intros s0 r0 s0' H0 Hne.
    apply process_file_cases in H0
      as (_ & _ & f & d & -> & _ & [[Hf _]|(-> & -> & _ & Hf & Hd)]); done.
Qed.

Lemma failed_download_stays_eligible_witness :
  let cfg := config 0 2 ["txt"] in
  let env := world head_present get_broken in
  (process_file cfg env 1 "txt" (boot ∅)).1 = Ret (true, false)
  ∧ FileMonitor.found_files (self (process_file cfg env 1 "txt" (boot ∅)).2) = ∅.
Proof.
  intros cfg env.
  destruct (failed_download_stays_eligible cfg env 1 "txt" (boot ∅) 7
              (check_file_exists cfg env (url_of cfg 1 "txt")
                 (add_event (EvLog false (MsgChecking (filename_of 1 "txt")))
                    (boot ∅))).2
              (process_file cfg env 1 "txt" (boot ∅)).2)
    as (Hrun & Hseen & _).
  - vm_compute. set_solver.
  - vm_compute. reflexivity.
  - vm_compute. reflexivity.
  - vm_compute. reflexivity.
  - rewrite Hrun. split; [reflexivity | exact Hseen].
Defined.

(** *** File names that collide *)

(** C5: [download_file] never changes a file that is already there.  What
    it writes goes to a path that was free: the requested one when it was
    free, and otherwise the first free one among [base_1 ext], [base_2 ext],
    ..., where [(base, ext)] splits the requested name at its extension.  A
    download that returns [True] has written its file.  The loop that looks
    for the free path always ends. *)
Theorem download_file_collision_safe cfg env url filename s r s' :
  download_file cfg env url filename s = (r, s') →
  let requested := Py.path_join (DOWNLOAD_DIR cfg) filename in
  let base_name := (Py.splitext filename).1 in
  let ext := (Py.splitext filename).2 in
  r ≠ OutOfFuel
  ∧ files s ⊆ files s'
  ∧ (r = Ret true → files s' ≠ files s)
  ∧ (files s' ≠ files s →
     ∃ final_path body,
       files s !! final_path = None
       ∧ files s' = <[final_path := body]> (files s)
       ∧ (files s !! requested = None → final_path = requested)
       ∧ (is_Some (files s !! requested) →
          ∃ k, 1 ≤ k
               ∧ final_path = numbered_path cfg base_name ext k
               ∧ ∀ j, 1 ≤ j < k →
                      is_Some (files s !! numbered_path cfg base_name ext j))).
Proof.
  intros Hrun requested base_name ext.
  pose proof (download_file_files_kept cfg env url filename _ _ _ Hrun) as Hkept.
  apply download_file_effect in Hrun as [Hfuel Heffect].
  assert (∀ final_path body, wrote cfg filename s s' final_path body →
            files s !! final_path = None
            ∧ files s' = <[final_path := body]> (files s)
            ∧ (files s !! requested = None → final_path = requested)
            ∧ (is_Some (files s !! requested) →
               ∃ k, 1 ≤ k
                    ∧ final_path = numbered_path cfg base_name ext k
                    ∧ ∀ j, 1 ≤ j < k →
                           is_Some (files s !! numbered_path cfg base_name ext j)))
    as Hwrote.
  { intros final_path body [[counter Hfree] Hfiles].
    apply free_path_spec in Hfree as (Hnone & Hle & Hfirst & Hlater).
    fold requested base_name ext in Hfirst, Hlater.
    split_and!; [done | done | |].
    - intros Hreq. destruct (decide (counter = 1)) as [->|Hne]; [by apply Hfirst|].
      destruct Hlater as ([x Hx] & _); [lia|]. congruence.
    - intros [x Hx]. destruct (decide (counter = 1)) as [->|Hne].
      + rewrite Hfirst in Hnone by done. congruence.
      + destruct Hlater as (_ & Hpath & Hall); [lia|].
        exists (counter - 1). split_and!; [lia | done | intros j Hj; apply Hall; lia]. }
  split_and!; [done | done | |].
  - intros -> Hsame. destruct Heffect as [[_ Hr]|(p & body & Hw)]; [done|].
    apply Hwrote in Hw as (Hnone & Hfiles & _).
    rewrite Hsame in Hfiles. rewrite Hfiles in Hnone.
    by rewrite lookup_insert_eq in Hnone.
  - intros Hne. destruct Heffect as [[Hsame _]|(p & body & Hw)]; [done|].
    exists p, body. by apply Hwrote.
Qed.

(** With [file_5.txt] there, the second download of the same name is written
    as [file_5_1.txt] and the third as [file_5_2.txt]; the files already
    there keep their content. *)
Lemma download_file_collision_safe_witness :
  let cfg := config 0 10 ["txt"] in
  let env := world (λ _, Failed) get_file_5 in
  let second := download_file cfg env (url_of cfg 5 "txt") "file_5.txt" with_file_5 in
  let third := download_file cfg env (url_of cfg 5 "txt") "file_5.txt" second.2 in
  (second.1 = Ret true
   ∧ files second.2 !! "downloaded_files/file_5.txt" = Some "first"
   ∧ files second.2 !! "downloaded_files/file_5_1.txt" = Some "second"
   ∧ files second.2 !! "downloaded_files/file_5_2.txt" = None)
  ∧ (third.1 = Ret true
     ∧ files third.2 !! "downloaded_files/file_5.txt" = Some "first"
     ∧ files third.2 !! "downloaded_files/file_5_1.txt" = Some "second"
     ∧ files third.2 !! "downloaded_files/file_5_2.txt" = Some "second")
  ∧ files with_file_5 ⊆ files second.2
  ∧ files second.2 ⊆ files third.2.
Proof.
  intros cfg env second third.
  destruct (download_file_collision_safe cfg env (url_of cfg 5 "txt") "file_5.txt"
              with_file_5 second.1 second.2)
    as (_ & Hkept2 & _); [apply surjective_pairing|].
  destruct (download_file_collision_safe cfg env (url_of cfg 5 "txt") "file_5.txt"
              second.2 third.1 third.2)
    as (_ & Hkept3 & _); [apply surjective_pairing|].
  split_and!; [vm_compute; reflexivity.. | exact Hkept2 | exact Hkept3].
Defined.

(** *** The scan pass ends, and records itself once *)

(** C8: every call of [check_new_files] returns.  From the cursor value [c]
    it visits the indices [c, c+1, ..., END_INDEX] and no other, so
    [END_INDEX - c + 1] of them, and none when [c] is past [END_INDEX]; once
    the cursor has passed [END_INDEX] it is reset to [START_INDEX] and the
    pass is over.  In every case [update_stats] runs exactly once, and the
    reporter's index then mirrors the cursor. *)
Theorem check_new_files_ends_and_records_once cfg env s :
  let c := FileMonitor.current_index (self s) in
  check_new_files cfg env s = scan_pass cfg env s
  ∧ List.length (seqZ c (END_INDEX cfg - c + 1)) = Z.to_nat (END_INDEX cfg - c + 1)
  ∧ ∃ s' clock counts,
      check_new_files cfg env s = (Ret tt, s')
      ∧ FileMonitor.current_index (self s')
        = (if c <=? END_INDEX cfg then START_INDEX cfg else c)
      ∧ FileMonitor.status_reporter (self s')
        = StatusReporter.set_current_index
            (StatusReporter.update_stats (FileMonitor.status_reporter (self s))
               clock counts.1 counts.2)
            (FileMonitor.current_index (self s'))
      ∧ StatusReporter.checks_performed (FileMonitor.status_reporter (self s'))
        = StatusReporter.checks_performed (FileMonitor.status_reporter (self s)) + 1.
Proof.
  intros c. split_and!.
  - apply check_new_files_scan_pass.
  - apply length_seqZ.
  - destruct (check_new_files_outcome cfg env s)
      as (s' & clock & counts & Hrun & Hcursor & _ & Hreporter).
    exists s', clock, counts. split_and!; [done | done | done |].
    by rewrite Hreporter.
Qed.

(** In range, the cursor stays in range: after a pass that started at or
    before [END_INDEX] it is exactly [START_INDEX]. *)
Lemma cursor_reset_to_start cfg env s r s' :
  START_INDEX cfg ≤ END_INDEX cfg →
  FileMonitor.current_index (self s) ≤ END_INDEX cfg →
  check_new_files cfg env s = (r, s') →
  FileMonitor.current_index (self s') = START_INDEX cfg
  ∧ START_INDEX cfg ≤ FileMonitor.current_index (self s') ≤ END_INDEX cfg.
Proof.
  intros Hvalid Hc Hrun.
  destruct (check_new_files_outcome cfg env s) as (s1 & _ & _ & Hrun1 & Hcur & _).
  rewrite Hrun in Hrun1. injection Hrun1 as _ <-.
  rewrite Hcur. apply Z.leb_le in Hc. rewrite Hc. lia.
Qed.

(** *** Downloads never outnumber finds *)

Section Session.

Variable cfg : Config.
Variable env : Env.




(** Making a directory adds its event, and returns or raises [OSError]. *)
Lemma os_makedirs_run path s :
  os_makedirs env path s = (Ret tt, add_event (EvMakedirs path) s)
  ∨ os_makedirs env path s = (Raise OSError, add_event (EvMakedirs path) s).
Proof.
  unfold os_makedirs. unfold_M. simpl.
  destruct path; [by right|].
  destruct (makedirs env (events s) _); [by left | by right].
Qed.

(** The constructor leaves a new monitor whether it returns or raises; it
    raises only [OSError], from [os.makedirs], and then nothing else has
    happened. *)
Lemma FileMonitor_init_run s :
  ∃ r s', FileMonitor_init cfg env s = (r, s')
          ∧ self s' = {| FileMonitor.current_index := 0;
                         FileMonitor.found_files := ∅;
                         FileMonitor.status_reporter :=
                           StatusReporter.init (now env (events s)) |}
          ∧ files s' = files s
          ∧ (r = Ret tt
             ∨ (r = Raise OSError
                ∧ events s' = (events s ++ [EvMakedirs (DOWNLOAD_DIR cfg)])%list)).
Proof.
  unfold FileMonitor_init, datetime_now.
  erewrite bind_Ret by reflexivity. erewrite bind_Ret by reflexivity.
  match goal with
  | |- context [(os_makedirs env ?p ≫= _) ?t] =>
      destruct (os_makedirs_run p t) as [E|E]
  end.
  - rewrite (bind_Ret _ _ _ _ _ E).
    match goal with
    | |- context [send_telegram_message cfg env MsgStartup ?t] =>
        destruct (send_telegram_message_run cfg env MsgStartup t)
          as (s' & E' & (Hfiles & Hself & _))
    end.
    exists (Ret tt), s'. split_and!; [done | done | done | by left].
  - rewrite (bind_Raise _ _ _ _ _ E).
    eexists _, _. split_and!; [done | done | done | by right].
Qed.


End Session.


(** *** One pass over three indices *)

(** C7: with start 0, end 2, extensions [txt] and a remote that serves only
    [file_1.txt], the first pass of a new monitor starts with the cursor at 0,
    probes index 0 (not found), index 1 (found, then downloaded) and index 2
    (not found), and wraps the cursor to 0; the counters then read
    [files_found = 1], [files_downloaded = 1], [checks_performed = 1], and
    the reporter's index is 0. *)
Theorem scenario_one_pass :
  let cfg := config 0 2 ["txt"] in
  let env := world only_file_1 only_file_1 in
  let constructed := (FileMonitor_init cfg env (boot ∅)).2 in
  let pass := check_new_files cfg env constructed in
  let reporter := FileMonitor.status_reporter (self pass.2) in
  FileMonitor.current_index (self constructed) = 0
  ∧ pass.1 = Ret tt
  ∧ drop (List.length (events constructed)) (events pass.2)
    = [ EvLog false MsgStartingCheck;
        EvLog false (MsgCurrentIndex 0);
        EvLog false (MsgChecking "file_0.txt");
        EvHead (url_of cfg 0 "txt");
        EvLog false (MsgChecking "file_1.txt");
        EvHead (url_of cfg 1 "txt");
        EvPost (MsgNewFile "file_1.txt" 1048576);
        EvLog false (MsgDownloading "file_1.txt");
        EvGet (url_of cfg 1 "txt");
        EvOpen "downloaded_files/file_1.txt";
        EvLog false (MsgDownloadCompleted "file_1.txt" 1048576 2);
        EvPost (MsgDownloadCompleted "file_1.txt" 1048576 2);
        EvLog false (MsgChecking "file_2.txt");
        EvHead (url_of cfg 2 "txt");
        EvLog false (MsgCycleCompleted 0 2) ]
  ∧ FileMonitor.current_index (self pass.2) = 0
  ∧ elements (FileMonitor.found_files (self pass.2)) = [url_of cfg 1 "txt"]
  ∧ files pass.2 !! "downloaded_files/file_1.txt" = Some "payload"
  ∧ StatusReporter.files_found reporter = 1
  ∧ StatusReporter.files_downloaded reporter = 1
  ∧ StatusReporter.checks_performed reporter = 1
  ∧ StatusReporter.current_index reporter = 0.
Proof. vm_compute. repeat split. Qed.

(** The URL the program asks for has two slashes before the file name: the
    base URL ends in one and [process_file] adds another. *)
Example url_of_file_1 :
  url_of (config 0 2 ["txt"]) 1 "txt"
  = "https://api.telegram.org/file/botmonitor-token/documents//file_1.txt".
Proof. vm_compute. reflexivity. Qed.

(** *** The cursor on the first pass *)

(** C1 fails on the first pass of a monitor whose [START_INDEX] is not 0:
    with the range 5 to 10, which [validate_config] accepts, the constructor
    leaves the cursor at 0, and the first pass probes the indices 0 to 4
    before it reaches the range.  It ends with the cursor reset to 5. *)
Theorem first_pass_starts_below_start_index :
  let cfg := config 5 10 ["txt"] in
  let env := world (λ _, Got not_found) (λ _, Failed) in
  let constructed := (FileMonitor_init cfg env (boot ∅)).2 in
  let pass := check_new_files cfg env constructed in
  (validate_config cfg (boot ∅)).1 = Ret tt
  ∧ FileMonitor.current_index (self constructed) = 0
  ∧ probed (events pass.2)
    = (λ index, url_of cfg index "txt") <$> [0; 1; 2; 3; 4; 5; 6; 7; 8; 9; 10]
  ∧ FileMonitor.current_index (self pass.2) = 5.
Proof. vm_compute. repeat split. Qed.

(** With a range below zero the cursor, left at 0, is past [END_INDEX] from
    the start: no pass ever visits an index, and the cursor never moves. *)
Example cursor_stuck_above_range :
  let cfg := config (-5) (-1) ["txt"] in
  let env := world (λ _, Got not_found) (λ _, Failed) in
  let constructed := (FileMonitor_init cfg env (boot ∅)).2 in
  let pass := check_new_files cfg env constructed in
  (validate_config cfg (boot ∅)).1 = Ret tt
  ∧ probed (events pass.2) = []
  ∧ FileMonitor.current_index (self pass.2) = 0.
Proof. vm_compute. repeat split. Qed.

(** * Further properties of the code *)

(** ** Counting requests *)

Lemma count_kind_app kind evs1 evs2 :
  count_kind kind (evs1 ++ evs2) = (count_kind kind evs1 + count_kind kind evs2)%nat.
Proof. induction evs1 as [|e evs1 IH]; simpl; [done | rewrite IH; lia]. Qed.

Lemma made_event kind e s :
  made kind (add_event e s) = (made kind s + if kind e then 1 else 0)%nat.
Proof. unfold made. simpl. rewrite count_kind_app. simpl. lia. Qed.

Global Instance kept_count_po kind : PreOrder (kept_count kind).
Proof.
  split; [by intros s | intros s1 s2 s3]; unfold kept_count; congruence.
Qed.

Lemma kept_count_event kind e s : kind e = false → kept_count kind s (add_event e s).
Proof. intros H. unfold kept_count. rewrite made_event, H. lia. Qed.

(** What each method adds to the count of a kind of event, when the events
    it records are of other kinds. *)
Section Counting.

Variable cfg : Config.
Variable env : Env.
Variable kind : Event → bool.

Hypothesis kind_log : ∀ is_error message, kind (EvLog is_error message) = false.
Hypothesis kind_post : ∀ message, kind (EvPost message) = false.

Lemma logging_count is_error message :
  preserves (kept_count kind) (logging is_error message).
Proof. apply preserves_modify. intros s. by apply kept_count_event. Qed.

Lemma send_telegram_message_count message :
  preserves (kept_count kind) (send_telegram_message cfg env message).
Proof.
  unfold send_telegram_message.
  destruct (CHAT_ID cfg =? 0); [apply logging_count|].
  apply preserves_try_except; [apply _| |intros _; apply logging_count].
  intros s r s'. unfold requests_post.
  destruct (http_post env (events s) message); intros [= <- <-];
    by apply kept_count_event.
Qed.

Lemma print_status_count message is_error notify_telegram :
  preserves (kept_count kind) (print_status cfg env message is_error notify_telegram).
Proof.
  unfold print_status.
  apply preserves_bind; [apply _|apply logging_count|]. intros _.
  destruct (_ && _);
    [apply send_telegram_message_count | apply preserves_ret; apply _].
Qed.

Lemma check_file_exists_count url :
  kind (EvHead url) = false →
  preserves (kept_count kind) (check_file_exists cfg env url).
Proof.
  intros Hkind. unfold check_file_exists.
  repeat first [apply print_status_count | apply content_length_int_preserves
               | preserves_step | match goal with |- PreOrder _ => apply _ end].
  intros s r s'. unfold requests_head.
  destruct (http_head env (events s) url); intros [= <- <-];
    by apply kept_count_event.
Qed.

Lemma write_file_count final_path response :
  kind (EvOpen final_path) = false →
  preserves (kept_count kind) (write_file env final_path response).
Proof.
  intros Hkind. unfold write_file.
  repeat first [apply read_content_preserves
               | apply preserves_modify; intros ?;
                   first [by apply kept_count_event | done]
               | preserves_step | match goal with |- PreOrder _ => apply _ end].
Qed.

(** What follows the request in [download_file]. *)
Lemma download_file_rest_count filename start_time response :
  (∀ path, kind (EvOpen path) = false) →
  preserves (kept_count kind)
    (if status_code response =? 200 then
       let '(base_name, ext) := Py.splitext filename in
       fs ← gets files;
       match free_path cfg (S (size fs)) fs base_name ext
               (Py.path_join (DOWNLOAD_DIR cfg) filename) 1 with
       | None => out_of_fuel
       | Some (final_path, counter) =>
           filename ← (if 1 <? counter then
                         print_status cfg env (MsgRenamed (Py.basename final_path))
                           false false;;
                         mret (Py.basename final_path)
                       else mret filename);
           file_size ← content_length_int response;
           size_in_mb file_size;;
           write_file env final_path response;;
           end_time ← datetime_now env;
           download_speed file_size (end_time - start_time);;
           print_status cfg env
             (MsgDownloadCompleted filename file_size (end_time - start_time))
             false true;;
           mret true
       end
     else
       text ← read_content response;
       print_status cfg env
         (MsgDownloadFailed filename (status_code response) (Py.str_take 200 text))
         true true;;
       mret false).
Proof.
  intros Hopen. unfold datetime_now.
  repeat first [apply print_status_count | apply content_length_int_preserves
               | apply size_in_mb_preserves | apply download_speed_preserves
               | apply write_file_count | apply read_content_preserves
               | preserves_step | match goal with |- PreOrder _ => apply _ end
               | apply Hopen].
Qed.

End Counting.

Section Requests.

Variable cfg : Config.
Variable env : Env.

Lemma applied_preserves {A} (R : relation State) (m : M A) s r s' :
  preserves R m → m s = (r, s') → R s s'.
Proof. intros Hm. apply Hm. Qed.

(** The probe makes one HEAD request, whatever comes of it. *)
Lemma check_file_exists_heads url s r s' :
  check_file_exists cfg env url s = (r, s') →
  made is_head s' = S (made is_head s) ∧ made is_get s' = made is_get s.
Proof.
  intros H. split.
  2:{ by apply (applied_preserves (kept_count is_get) _ _ _ _
                  (check_file_exists_count cfg env is_get
                     ltac:(done) ltac:(done) url eq_refl)) in H. }
  unfold check_file_exists in H.
  assert (∀ r1 s1, requests_head env url s = (r1, s1) →
            made is_head s1 = S (made is_head s)) as Hhead.
  { intros r1 s1. unfold requests_head.
    destruct (http_head env (events s) url); intros [= <- <-];
      rewrite made_event; simpl; lia. }
  assert (∀ r2 s2,
            (response ← requests_head env url;
             if status_code response =? 200
             then file_size ← content_length_int response; mret (true, file_size)
             else mret (false, 0)) s = (r2, s2) →
            made is_head s2 = S (made is_head s)) as Hbody.
  { intros r2 s2 Hb.
    apply bind_inv in Hb as [(response & s3 & H1 & Hb)|[(e & H1 & _)|[H1 _]]];
      apply Hhead in H1; [|done..].
    destruct (status_code response =? 200); [|by injection Hb as _ <-].
    apply bind_inv in Hb as [(n & s4 & H2 & Hb)|[(e & H2 & _)|[H2 _]]];
      apply content_length_int_pure in H2 as [-> _]; [|done..].
    by injection Hb as _ <-. }
  apply try_except_inv in H as [[H _]|(e & s1 & H & _ & Hh)].
  - by apply Hbody in H.
  - apply Hbody in H.
    apply bind_inv in Hh as [([] & s2 & H1 & Hh)|[(e' & H1 & _)|[H1 _]]];
      apply (applied_preserves (kept_count is_head) _ _ _ _
               (print_status_count cfg env is_head ltac:(done) ltac:(done) _ _ _))
        in H1; unfold kept_count in H1; [|congruence..].
    injection Hh as _ <-. congruence.
Qed.

(** [download_file] adds one event [EvGet url] to the record, whatever comes
    of it; besides it, only log lines, posts and the opening of a file. *)
Lemma download_file_count kind url filename s r s' :
  (∀ b m, kind (EvLog b m) = false) →
  (∀ m, kind (EvPost m) = false) →
  (∀ p, kind (EvOpen p) = false) →
  download_file cfg env url filename s = (r, s') →
  made kind s' = (made kind s + if kind (EvGet url) then 1 else 0)%nat.
Proof.
  intros Hlog Hpost Hopen H. unfold download_file in H.
  assert (∀ rb sb, download_file_try cfg env url filename s = (rb, sb) →
            made kind sb = (made kind s + if kind (EvGet url) then 1 else 0)%nat)
    as Hbody.
  { intros rb sb Hb. unfold download_file_try in Hb.
    destruct (print_status_run cfg env (MsgDownloading filename) false false s)
      as (s1 & E & _).
    pose proof (applied_preserves (kept_count kind) _ _ _ _
                  (print_status_count cfg env kind Hlog Hpost _ _ _) E) as H1.
    rewrite (bind_Ret _ _ _ _ _ E) in Hb. clear E.
    unfold datetime_now in Hb. erewrite bind_Ret in Hb by reflexivity.
    unfold kept_count in H1. rewrite <- H1.
    assert (∀ r2 s2, requests_get env url s1 = (r2, s2) →
              made kind s2 = (made kind s1 + if kind (EvGet url) then 1 else 0)%nat)
      as Hget.
    { intros r2 s2. unfold requests_get.
      destruct (http_get env (events s1) url); intros [= <- <-];
        by rewrite made_event. }
    apply bind_inv in Hb as [(response & s2 & H2 & Hb)|[(e & H2 & _)|[H2 _]]];
      apply Hget in H2; [|done..].
    apply (applied_preserves (kept_count kind)) in Hb;
      [unfold kept_count in Hb; congruence|].
    by apply download_file_rest_count. }
  apply try_except_inv in H as [[H _]|(e & s1 & H & _ & Hh)].
  - by apply Hbody in H.
  - apply Hbody in H.
    apply bind_inv in Hh as [([] & s2 & H1 & Hh)|[(e' & H1 & _)|[H1 _]]];
      apply (applied_preserves (kept_count kind) _ _ _ _
               (print_status_count cfg env kind Hlog Hpost _ _ _)) in H1;
      unfold kept_count in H1; [|congruence..].
    injection Hh as _ <-. congruence.
Qed.

(** [download_file] makes one GET request, whatever comes of it, and no
    HEAD request. *)
Lemma download_file_gets url filename s r s' :
  download_file cfg env url filename s = (r, s') →
  made is_get s' = S (made is_get s) ∧ made is_head s' = made is_head s.
Proof.
  intros H. split.
  - rewrite (download_file_count is_get _ _ _ _ _ ltac:(done) ltac:(done)
               ltac:(done) H). simpl. lia.
  - rewrite (download_file_count is_head _ _ _ _ _ ltac:(done) ltac:(done)
               ltac:(done) H). simpl. lia.
Qed.

End Requests.

Section CandidateRequests.

Variable cfg : Config.
Variable env : Env.

Lemma send_telegram_message_requests message s r s' :
  send_telegram_message cfg env message s = (r, s') →
  made is_head s' = made is_head s ∧ made is_get s' = made is_get s.
Proof.
  intros H. split.
  - by apply (applied_preserves (kept_count is_head) _ _ _ _
                (send_telegram_message_count cfg env is_head
                   ltac:(done) ltac:(done) _)) in H.
  - by apply (applied_preserves (kept_count is_get) _ _ _ _
                (send_telegram_message_count cfg env is_get
                   ltac:(done) ltac:(done) _)) in H.
Qed.

Lemma print_status_requests message is_error notify_telegram s r s' :
  print_status cfg env message is_error notify_telegram s = (r, s') →
  made is_head s' = made is_head s ∧ made is_get s' = made is_get s.
Proof.
  intros H. split.
  - by apply (applied_preserves (kept_count is_head) _ _ _ _
                (print_status_count cfg env is_head
                   ltac:(done) ltac:(done) _ _ _)) in H.
  - by apply (applied_preserves (kept_count is_get) _ _ _ _
                (print_status_count cfg env is_get
                   ltac:(done) ltac:(done) _ _ _)) in H.
Qed.

(** The [try] block of [process_file]: one HEAD request; one GET request
    when the download is reached, and none otherwise; a result that says
    found comes only after the GET. *)
Lemma process_file_try_requests url filename s r s' :
  process_file_try cfg env url filename s = (r, s') →
  made is_head s' = S (made is_head s)
  ∧ (made is_get s' = S (made is_get s)
     ∨ (made is_get s' = made is_get s ∧ ∀ d, r ≠ Ret (Some (true, d)))).
Proof.
  unfold process_file_try. intros H.
  apply bind_inv in H as [([exists_ size] & s1 & H1 & H)|[(e & H1 & ->)|[H1 ->]]];
    apply check_file_exists_heads in H1 as [Hh1 Hg1];
    [|split; [done | right; done]..].
  destruct exists_; [|injection H as <- <-; split; [done | right; done]].
  apply bind_inv in H as [([] & s2 & H2 & H)|[(e & H2 & ->)|[H2 ->]]];
    apply size_in_mb_pure in H2 as [-> _]; [|split; [done | right; done]..].
  apply bind_inv in H as [([] & s2 & H2 & H)|[(e & H2 & ->)|[H2 ->]]];
    apply send_telegram_message_requests in H2 as [Hh2 Hg2];
    [|split; [congruence | right; split; [congruence | done]]..].
  assert (made is_head s' = made is_head s2 ∧ made is_get s' = S (made is_get s2))
    as [Hh3 Hg3].
  { apply bind_inv in H as [(ok & s3 & H3 & H)|[(e & H3 & _)|[H3 _]]];
      apply download_file_gets in H3 as [Hg3 Hh3]; [|done..].
    destruct ok.
    - erewrite bind_Ret in H by reflexivity. by injection H as _ <-.
    - by injection H as _ <-. }
  split; [congruence | left; congruence].
Qed.

(** An unseen candidate: one HEAD request; one GET request or none, and
    none only when the result does not say found. *)
Lemma process_file_unseen_requests index ext s r s' :
  url_of cfg index ext ∉ FileMonitor.found_files (self s) →
  process_file cfg env index ext s = (r, s') →
  made is_head s' = S (made is_head s)
  ∧ (made is_get s' = S (made is_get s)
     ∨ (made is_get s' = made is_get s ∧ ∀ d, r ≠ Ret (true, d))).
Proof.
  intros Hin H. rewrite process_file_unseen in H by done.
  set (t := add_event _ s) in H.
  assert (made is_head t = made is_head s ∧ made is_get t = made is_get s)
    as [Hht Hgt] by (subst t; rewrite !made_event; simpl; lia).
  rewrite <- Hht, <- Hgt. clearbody t. clear Hht Hgt.
  apply bind_inv in H as [(o & s1 & H1 & H)|[(e & H1 & ->)|[H1 ->]]].
  - injection H as <- <-.
    apply try_except_inv in H1 as [[H1 _]|(e & s2 & H1 & _ & Hh)].
    + apply process_file_try_requests in H1 as [Hh1 [Hg1|[Hg1 Hr]]];
        [by auto|].
      split; [done|]. right. split; [done|].
      intros d [= Ho]. destruct o as [[f d']|]; [|done].
      simpl in Ho. injection Ho as -> ->. by apply (Hr d).
    + apply process_file_try_requests in H1 as [Hh1 Hg1].
      apply bind_inv in Hh as [([] & s3 & H2 & Hh)|[(e' & H2 & ?)|[H2 ?]]];
        [|done..].
      apply print_status_requests in H2 as [Hh2 Hg2].
      injection Hh as <- <-. rewrite Hh2, Hg2.
      split; [done|]. destruct Hg1 as [Hg1|[Hg1 _]]; [by left|].
      right. split; [done|]. by intros d.
  - apply try_except_inv in H1 as [[_ H1]|(e' & s2 & _ & _ & Hh)].
    + by specialize (H1 e eq_refl).
    + apply bind_inv in Hh as [([] & s3 & H2 & Hh)|[(e'' & H2 & ?)|[H2 ?]]];
        [done| |done].
      destruct (print_status_returns cfg env
                  (MsgProcessError (filename_of index ext) e') true true s2)
        as [a Ha].
      rewrite H2 in Ha. done.
  - apply try_except_inv in H1 as [[H1 _]|(e' & s2 & _ & _ & Hh)].
    + pose proof (process_file_try_terminates cfg env (url_of cfg index ext)
                    (filename_of index ext) t) as Ht.
      by rewrite H1 in Ht.
    + apply bind_inv in Hh as [([] & s3 & H2 & Hh)|[(e'' & H2 & ?)|[H2 ?]]];
        [done|done|].
      destruct (print_status_returns cfg env
                  (MsgProcessError (filename_of index ext) e') true true s2)
        as [a Ha].
      rewrite H2 in Ha. done.
Qed.

(** X1: a candidate that is not in the seen-set costs exactly one HEAD
    request and at most one GET request; a candidate in the seen-set costs
    none.  [process_file] reports a file as found only after it has made the
    GET request for it. *)
Theorem process_file_requests index ext s r s' :
  process_file cfg env index ext s = (r, s') →
  (url_of cfg index ext ∈ FileMonitor.found_files (self s) →
   made is_head s' = made is_head s ∧ made is_get s' = made is_get s)
  ∧ (url_of cfg index ext ∉ FileMonitor.found_files (self s) →
     made is_head s' = S (made is_head s)
     ∧ (made is_get s' = made is_get s ∨ made is_get s' = S (made is_get s)))
  ∧ (∀ d, r = Ret (true, d) → made is_get s' = S (made is_get s)).
Proof.
  intros H.
  pose proof (λ Hin, process_file_unseen_requests index ext s r s' Hin H)
    as Hunseen.
  split_and!.
  - intros Hin. rewrite process_file_seen in H by done. by injection H as _ <-.
  - intros Hin. destruct (Hunseen Hin) as [Hh [Hg|[Hg _]]]; auto.
  - intros d ->.
    destruct (decide (url_of cfg index ext ∈ FileMonitor.found_files (self s)))
      as [Hin|Hin].
    + rewrite process_file_seen in H by done. done.
    + destruct (Hunseen Hin) as [_ [Hg|[_ Hr]]]; [done|]. by destruct (Hr d).
Qed.

End CandidateRequests.

(** A new candidate that is there and downloads well: one HEAD and one GET. *)
Lemma process_file_requests_witness :
  let cfg := config 0 2 ["txt"] in
  let env := world head_present get_file_5 in
  let run := process_file cfg env 1 "txt" (boot ∅) in
  run.1 = Ret (true, true)
  ∧ made is_head run.2 = 1%nat ∧ made is_get run.2 = 1%nat.
Proof.
  intros cfg env run.
  destruct (process_file_requests cfg env 1 "txt" (boot ∅) run.1 run.2)
    as (_ & Hunseen & Hfound); [apply surjective_pairing|].
  assert (run.1 = Ret (true, true)) as Hr by (vm_compute; reflexivity).
  split_and!; [exact Hr | |].
  - destruct Hunseen as [-> _]; [vm_compute; set_solver | reflexivity].
  - rewrite (Hfound true Hr). reflexivity.
Defined.

Section PassRequests.

Variable cfg : Config.
Variable env : Env.

Lemma process_file_at_most index ext s r s' :
  process_file cfg env index ext s = (r, s') → at_most 1 s s'.
Proof.
  intros H. unfold at_most.
  destruct (decide (url_of cfg index ext ∈ FileMonitor.found_files (self s)))
    as [Hin|Hin].
  - rewrite process_file_seen in H by done. injection H as _ <-. lia.
  - apply process_file_unseen_requests in H as [Hh [Hg|[Hg _]]]; [lia..|done].
Qed.

Lemma for_ext_at_most exts counts s r s' :
  for_ext cfg env exts counts s = (r, s') → at_most (List.length exts) s s'.
Proof.
  revert counts s. induction exts as [|ext exts IH]; intros counts s; simpl.
  - intros [= _ <-]. unfold at_most. lia.
  - intros H. erewrite bind_Ret in H by reflexivity.
    apply bind_inv in H as [([f d] & s1 & H1 & H)|[(e & H1 & _)|[H1 _]]];
      apply process_file_at_most in H1; unfold at_most in *; [|lia..].
    apply IH in H. unfold at_most in H. lia.
Qed.

Lemma scan_range_at_most indices counts s r s' :
  scan_range cfg env indices counts s = (r, s') →
  at_most (List.length indices * List.length (SUPPORTED_EXTENSIONS cfg)) s s'.
Proof.
  revert counts s. induction indices as [|i indices IH]; intros counts s; simpl.
  - intros [= _ <-]. unfold at_most. lia.
  - intros H. erewrite bind_Ret in H by reflexivity.
    apply bind_inv in H as [(counts1 & s1 & H1 & H)|[(e & H1 & _)|[H1 _]]];
      apply for_ext_at_most in H1; unfold at_most in *; unfold made in *;
      simpl in H1; [|lia..].
    apply IH in H. unfold at_most, made in H. lia.
Qed.

(** A pass from the cursor [c] makes at most one HEAD request and at most
    one GET request for each index from [c] to [END_INDEX] and each
    extension. *)
Lemma check_new_files_at_most s r s' :
  check_new_files cfg env s = (r, s') →
  at_most (Z.to_nat (END_INDEX cfg - FileMonitor.current_index (self s) + 1)
           * List.length (SUPPORTED_EXTENSIONS cfg)) s s'.
Proof.
  rewrite check_new_files_scan_pass. unfold scan_pass.
  rewrite !(bind_Ret _ _ _ _ _ (print_status_quiet cfg env _ _ s)).
  erewrite !(bind_Ret (gets _)) by reflexivity.
  rewrite !(bind_Ret _ _ _ _ _ (print_status_quiet cfg env _ _ _)).
  simpl.
  set (c := FileMonitor.current_index (self s)).
  set (s1 := add_event _ (add_event _ s)).
  assert (made is_head s1 = made is_head s ∧ made is_get s1 = made is_get s)
    as [Hh1 Hg1] by (subst s1; rewrite !made_event; simpl; lia).
  intros H.
  apply bind_inv in H as [(counts & s2 & H2 & H)|[(e & H2 & _)|[H2 _]]];
    apply scan_range_at_most in H2; rewrite length_seqZ in H2;
    unfold at_most in *; [|lia..].
  assert (made is_head s' = made is_head s2 ∧ made is_get s' = made is_get s2)
    as [Hh3 Hg3]; [|lia].
  assert (∀ kind, (∀ b m, kind (EvLog b m) = false) →
            (∀ m, kind (EvPost m) = false) →
            made kind s' = made kind s2) as Hkind; [|by split; apply Hkind].
  intros kind Hlog Hpost.
  assert (∀ counts, preserves (kept_count kind)
            ((if c <=? END_INDEX cfg
              then modify (put_current_index (START_INDEX cfg));;
                   print_status cfg env
                     (MsgCycleCompleted (START_INDEX cfg) (END_INDEX cfg))
                     false false
              else mret ());; record_pass env counts)) as Hrest.
  { intros counts0. unfold record_pass, datetime_now.
    repeat first [ apply preserves_modify; intros ?; done
                 | apply print_status_count
                 | preserves_step
                 | match goal with |- PreOrder _ => apply _ end
                 | exact Hlog | exact Hpost ]. }
  by apply Hrest in H.
Qed.

End PassRequests.

(** ** The life of a monitor *)

Section Life.

Variable cfg : Config.
Variable env : Env.

(** A property that every pass and every report keeps holds after any
    sequence of scheduled tasks. *)
Lemma run_pending_invariant (I : State → Prop) jobs s r s' :
  (∀ s r s', I s → check_new_files cfg env s = (r, s') → I s') →
  (∀ s r s', I s → send_status_report cfg env s = (r, s') → I s') →
  I s → run_pending cfg env jobs s = (r, s') → I s'.
Proof.
  intros Hcheck Hreport. revert s.
  induction jobs as [|j jobs IH]; intros s HI; simpl.
  - by intros [= _ <-].
  - intros H.
    apply bind_inv in H as [([] & s1 & H1 & H)|[(e & H1 & _)|[H1 _]]].
    + apply (IH s1); [|done]. destruct j; simpl in H1; eauto.
    + destruct j; simpl in H1; eauto.
    + destruct j; simpl in H1; eauto.
Qed.

Lemma send_status_report_effect s r s' :
  send_status_report cfg env s = (r, s') →
  self s' = self s
  ∧ made is_head s' = made is_head s ∧ made is_get s' = made is_get s.
Proof.
  unfold send_status_report, datetime_now. intros H.
  erewrite bind_Ret in H by reflexivity. erewrite bind_Ret in H by reflexivity.
  split.
  - by apply (applied_preserves self_kept _ _ _ _
                (send_telegram_message_preserves cfg env self_kept
                   ltac:(done) _)) in H.
  - by apply send_telegram_message_requests in H.
Qed.

Lemma FileMonitor_init_requests s r s' :
  FileMonitor_init cfg env s = (r, s') →
  made is_head s' = made is_head s ∧ made is_get s' = made is_get s.
Proof.
  unfold FileMonitor_init, datetime_now. intros H.
  erewrite bind_Ret in H by reflexivity. erewrite bind_Ret in H by reflexivity.
  match type of H with
  | (os_makedirs env ?p ≫= _) ?t = _ => destruct (os_makedirs_run env p t) as [E|E]
  end.
  - rewrite (bind_Ret _ _ _ _ _ E) in H.
    apply send_telegram_message_requests in H as [-> ->].
    rewrite !made_event. simpl. unfold made. simpl. lia.
  - rewrite (bind_Raise _ _ _ _ _ E) in H. injection H as _ <-.
    rewrite !made_event. simpl. unfold made. simpl. lia.
Qed.

(** How a session goes: the constructor returns, the first pass runs
    between its two log lines and the scheduled tasks follow; or the
    constructor raises [OSError] and the session ends there. *)
Lemma session_inv jobs s r s' :
  session cfg env jobs s = (r, s') →
  (∃ s0 s2,
     FileMonitor_init cfg env s = (Ret tt, s0)
     ∧ self s0 = {| FileMonitor.current_index := 0;
                    FileMonitor.found_files := ∅;
                    FileMonitor.status_reporter :=
                      StatusReporter.init (now env (events s)) |}
     ∧ check_new_files cfg env (add_event (EvLog false MsgInitialCheck) s0)
       = (Ret tt, s2)
     ∧ run_pending cfg env jobs (add_event (EvLog false MsgEnteringLoop) s2)
       = (r, s'))
  ∨ (r = Raise OSError
     ∧ FileMonitor_init cfg env s = (Raise OSError, s')
     ∧ self s' = {| FileMonitor.current_index := 0;
                    FileMonitor.found_files := ∅;
                    FileMonitor.status_reporter :=
                      StatusReporter.init (now env (events s)) |}
     ∧ files s' = files s).
Proof.
  unfold session. intros H.
  destruct (FileMonitor_init_run cfg env s)
    as (r1 & s1 & E1 & Hself & Hfiles & [-> | [-> _]]).
  - left. rewrite (bind_Ret _ _ _ _ _ E1) in H.
    erewrite bind_Ret in H by reflexivity.
    destruct (check_new_files_outcome cfg env
                (add_event (EvLog false MsgInitialCheck) s1))
      as (s2 & _ & _ & E2 & _).
    rewrite (bind_Ret _ _ _ _ _ E2) in H.
    erewrite bind_Ret in H by reflexivity.
    by exists s1, s2.
  - right. rewrite (bind_Raise _ _ _ _ _ E1) in H. injection H as <- <-. done.
Qed.


(** X4: when the whole range lies below zero ([END_INDEX < 0], which
    [validate_config] accepts), the cursor, which starts at 0, is past
    [END_INDEX] for ever: the monitor never makes a HEAD or GET request and
    its seen-set stays empty, whatever tasks run. *)
Theorem session_below_zero_never_probes jobs s r s' :
  END_INDEX cfg < 0 →
  session cfg env jobs s = (r, s') →
  FileMonitor.current_index (self s') = 0
  ∧ FileMonitor.found_files (self s') = ∅
  ∧ made is_head s' = made is_head s
  ∧ made is_get s' = made is_get s.
Proof.
  intros Hend H.
  apply session_inv in H
    as [(s0 & s2 & Hinit & Hself & Hfirst & Hrest)|(_ & Hinit & Hself & _)];
    apply FileMonitor_init_requests in Hinit as [Hh1 Hg1];
    [|by rewrite Hself].
  rewrite <- Hh1, <- Hg1.
  assert (∀ t rt t',
            FileMonitor.current_index (self t) = 0
            ∧ FileMonitor.found_files (self t) = ∅
            ∧ made is_head t = made is_head s0
            ∧ made is_get t = made is_get s0 →
            check_new_files cfg env t = (rt, t') →
            FileMonitor.current_index (self t') = 0
            ∧ FileMonitor.found_files (self t') = ∅
            ∧ made is_head t' = made is_head s0
            ∧ made is_get t' = made is_get s0) as Hpass.
  { intros t rt t' (Hc & Hf & Hh & Hg) Ht.
    pose proof (check_new_files_at_most cfg env _ _ _ Ht) as (Hh' & Hg' & Hle).
    rewrite Hc in Hh'.
    replace (Z.to_nat (END_INDEX cfg - 0 + 1)) with 0%nat in Hh' by lia.
    rewrite check_new_files_scan_pass in Ht. unfold scan_pass in Ht.
    rewrite !(bind_Ret _ _ _ _ _ (print_status_quiet cfg env _ _ t)) in Ht.
    erewrite !(bind_Ret (gets _)) in Ht by reflexivity.
    rewrite !(bind_Ret _ _ _ _ _ (print_status_quiet cfg env _ _ _)) in Ht.
    simpl in Ht. rewrite Hc in Ht. rewrite seqZ_nil in Ht by lia.
    erewrite bind_Ret in Ht by reflexivity.
    assert ((0 <=? END_INDEX cfg) = false) as Hleb by (apply Z.leb_gt; lia).
    rewrite Hleb in Ht. erewrite bind_Ret in Ht by reflexivity.
    unfold record_pass, datetime_now in Ht.
    erewrite bind_Ret in Ht by reflexivity.
    erewrite bind_Ret in Ht by reflexivity.
    injection Ht as _ <-. simpl. split_and!; [done | done | lia | lia]. }
  assert (∀ e t,
            FileMonitor.current_index (self t) = 0
            ∧ FileMonitor.found_files (self t) = ∅
            ∧ made is_head t = made is_head s0
            ∧ made is_get t = made is_get s0 →
            FileMonitor.current_index (self (add_event (EvLog false e) t)) = 0
            ∧ FileMonitor.found_files (self (add_event (EvLog false e) t)) = ∅
            ∧ made is_head (add_event (EvLog false e) t) = made is_head s0
            ∧ made is_get (add_event (EvLog false e) t) = made is_get s0)
    as Hlog.
  { intros e t (Hc & Hf & Hh & Hg). rewrite !made_event. simpl.
    split_and!; [done | done | lia | lia]. }
  eapply (run_pending_invariant
            (λ t, FileMonitor.current_index (self t) = 0
                  ∧ FileMonitor.found_files (self t) = ∅
                  ∧ made is_head t = made is_head s0
                  ∧ made is_get t = made is_get s0)); [| | |exact Hrest].
  - intros t rt t' HI Ht. by apply (Hpass t rt t').
  - intros t rt t' (Hc & Hf & Hh & Hg) Ht.
    apply send_status_report_effect in Ht as (-> & -> & ->). done.
  - apply Hlog. apply (Hpass _ (Ret tt) s2) in Hfirst; [done|].
    apply Hlog. by rewrite Hself.
Qed.


End Life.


(** With the range -5 to -1 nothing is ever probed. *)
Lemma session_below_zero_never_probes_witness :
  let cfg := config (-5) (-1) ["txt"] in
  let env := world head_present get_file_5 in
  let run := session cfg env [JobCheck; JobReport; JobCheck] (boot ∅) in
  FileMonitor.current_index (self run.2) = 0
  ∧ FileMonitor.found_files (self run.2) = ∅
  ∧ made is_head run.2 = 0%nat
  ∧ made is_get run.2 = 0%nat.
Proof.
  intros cfg env run.
  apply (session_below_zero_never_probes cfg env [JobCheck; JobReport; JobCheck]
           (boot ∅) run.1 run.2).
  - vm_compute. reflexivity.
  - apply surjective_pairing.
Defined.


(** ** The names of the candidates *)

Lemma has_char_app c s1 s2 :
  has_char c (s1 +:+ s2) = has_char c s1 || has_char c s2.
Proof.
  induction s1 as [|a s1 IH]; [done|].
  rewrite append_cons. simpl. rewrite IH. by rewrite orb_assoc.
Qed.

(** Where the first occurrence of a character is, the strings split alike. *)
Lemma split_at_first c s1 t1 s2 t2 :
  has_char c s1 = false → has_char c s2 = false →
  s1 +:+ String c t1 = s2 +:+ String c t2 → s1 = s2 ∧ t1 = t2.
Proof.
  revert s2. induction s1 as [|a s1 IH]; intros [|b s2]; simpl.
  - intros _ _ [= ->]. done.
  - intros _ [Hb _]%orb_false_elim. rewrite append_cons. intros [= <- _].
    by rewrite Ascii.eqb_refl in Hb.
  - intros [Ha _]%orb_false_elim _. rewrite append_cons. intros [= -> _].
    by rewrite Ascii.eqb_refl in Ha.
  - intros [_ H1]%orb_false_elim [_ H2]%orb_false_elim. rewrite !append_cons.
    intros [= -> H]. destruct (IH s2 H1 H2 H) as [-> ->]. done.
Qed.

(** A printed integer has no dot. *)
Lemma pretty_N_go_no_dot (x : N) s :
  has_char "." (pretty_N_go x s) = has_char "." s.
Proof.
  revert s. induction (N.lt_wf_0 x) as [x _ IH]; intros s.
  assert (x = 0 ∨ 0 < x)%N as [->|Hx] by lia.
  - by rewrite pretty_N_go_0.
  - rewrite pretty_N_go_step by done. rewrite IH by (by apply N.div_lt).
    simpl. unfold pretty_N_char. by repeat case_match.
Qed.

Lemma pretty_N_no_dot (x : N) : has_char "." (pretty x) = false.
Proof.
  unfold pretty, pretty_N. case_decide; [done|]. by rewrite pretty_N_go_no_dot.
Qed.

Lemma pretty_Z_no_dot (x : Z) : has_char "." (pretty x) = false.
Proof.
  destruct x as [|p|p]; [done|apply (pretty_N_no_dot (N.pos p))|].
  unfold pretty, pretty_Z. rewrite has_char_app. simpl.
  apply (pretty_N_no_dot (N.pos p)).
Qed.

Lemma filename_of_inj index ext index' ext' :
  filename_of index ext = filename_of index' ext' → index = index' ∧ ext = ext'.
Proof.
  unfold filename_of. intros H. apply String.app_inj in H.
  change ("." +:+ ext) with (String "." ext) in H.
  change ("." +:+ ext') with (String "." ext') in H.
  apply split_at_first in H as [H ->]; [|apply pretty_Z_no_dot..].
  by apply (inj pretty) in H.
Qed.

(** X6: two candidates have the same file name, or the same URL, only when
    they have the same index and the same extension: the index is printed
    without a dot, so the first dot after [file_] always separates the index
    from the extension.  The seen-set therefore never takes one candidate
    for another. *)
Theorem candidate_names_distinct cfg index ext index' ext' :
  (filename_of index ext = filename_of index' ext' → index = index' ∧ ext = ext')
  ∧ (url_of cfg index ext = url_of cfg index' ext' → index = index' ∧ ext = ext').
Proof.
  split; [apply filename_of_inj|].
  unfold url_of. intros H. do 2 apply String.app_inj in H.
  by apply filename_of_inj.
Qed.

(** ** Requests, candidate by candidate *)

Lemma listed_cons {A} `{EqDecision A} (x y : A) (l : list A) :
  listed x (y :: l) = ((if bool_decide (y = x) then 1 else 0) + listed x l)%nat.
Proof. reflexivity. Qed.

Lemma listed_app {A} `{EqDecision A} (x : A) (l1 l2 : list A) :
  listed x (l1 ++ l2) = (listed x l1 + listed x l2)%nat.
Proof. induction l1 as [|y l1 IH]; simpl; [done | rewrite IH; lia]. Qed.

Lemma listed_not_in {A} `{EqDecision A} (x : A) (l : list A) :
  x ∉ l → listed x l = 0%nat.
Proof.
  induction l as [|y l IH]; simpl; [done|].
  intros [Hne Hin]%not_elem_of_cons. rewrite IH by done.
  by rewrite bool_decide_eq_false_2.
Qed.

Lemma listed_NoDup {A} `{EqDecision A} (x : A) (l : list A) :
  NoDup l → (listed x l ≤ 1)%nat.
Proof.
  induction 1 as [|y l Hy Hl IH]; simpl; [lia|].
  destruct (bool_decide (y = x)) eqn:E; [|lia].
  apply bool_decide_eq_true in E as ->. rewrite listed_not_in by done. lia.
Qed.

Section PerCandidate.

Variable cfg : Config.
Variable env : Env.

Lemma url_of_inj index ext index' ext' :
  url_of cfg index ext = url_of cfg index' ext' → index = index' ∧ ext = ext'.
Proof.
  unfold url_of. intros H. do 2 apply String.app_inj in H.
  by apply filename_of_inj.
Qed.

(** The probe adds one event [EvHead url] to the record, whatever comes of
    it; besides it, only log lines and posts. *)
Lemma check_file_exists_count_head kind url s r s' :
  (∀ b m, kind (EvLog b m) = false) →
  (∀ m, kind (EvPost m) = false) →
  check_file_exists cfg env url s = (r, s') →
  made kind s' = (made kind s + if kind (EvHead url) then 1 else 0)%nat.
Proof.
  intros Hlog Hpost H. unfold check_file_exists in H.
  assert (∀ r1 s1, requests_head env url s = (r1, s1) →
            made kind s1 = (made kind s + if kind (EvHead url) then 1 else 0)%nat)
    as Hhead.
  { intros r1 s1. unfold requests_head.
    destruct (http_head env (events s) url); intros [= <- <-];
      by rewrite made_event. }
  assert (∀ r2 s2,
            (response ← requests_head env url;
             if status_code response =? 200
             then file_size ← content_length_int response; mret (true, file_size)
             else mret (false, 0)) s = (r2, s2) →
            made kind s2 = (made kind s + if kind (EvHead url) then 1 else 0)%nat)
    as Hbody.
  { intros r2 s2 Hb.
    apply bind_inv in Hb as [(response & s3 & H1 & Hb)|[(e & H1 & _)|[H1 _]]];
      apply Hhead in H1; [|done..].
    destruct (status_code response =? 200); [|by injection Hb as _ <-].
    apply bind_inv in Hb as [(n & s4 & H2 & Hb)|[(e & H2 & _)|[H2 _]]];
      apply content_length_int_pure in H2 as [-> _]; [|done..].
    by injection Hb as _ <-. }
  apply try_except_inv in H as [[H _]|(e & s1 & H & _ & Hh)].
  - by apply Hbody in H.
  - apply Hbody in H.
    apply bind_inv in Hh as [([] & s2 & H1 & Hh)|[(e' & H1 & _)|[H1 _]]];
      apply (applied_preserves (kept_count kind) _ _ _ _
               (print_status_count cfg env kind Hlog Hpost _ _ _)) in H1;
      unfold kept_count in H1; [|congruence..].
    injection Hh as _ <-. congruence.
Qed.

(** The [try] block of [process_file] makes the HEAD request for the URL
    and, only if [fetched], the GET request for it. *)
Lemma process_file_try_kinds url filename s r s' :
  process_file_try cfg env url filename s = (r, s') →
  ∃ fetched : bool,
    ∀ kind, counts_requests kind →
      made kind s'
      = (made kind s + (if kind (EvHead url) then 1 else 0)
         + (if fetched && kind (EvGet url) then 1 else 0))%nat.
Proof.
  unfold process_file_try. intros H.
  assert (∀ t, (∀ kind, counts_requests kind →
                  made kind t
                  = (made kind s + if kind (EvHead url) then 1 else 0)%nat) →
          t = s' →
          ∃ fetched : bool,
            ∀ kind, counts_requests kind →
              made kind s'
              = (made kind s + (if kind (EvHead url) then 1 else 0)
                 + (if fetched && kind (EvGet url) then 1 else 0))%nat)
    as Hnot.
  { intros t Ht <-. exists false. intros kind Hk. rewrite (Ht kind Hk). simpl. lia. }
  apply bind_inv in H as [([exists_ size] & s1 & H1 & H)|[(e & H1 & _)|[H1 _]]];
    pose proof (λ kind (Hk : counts_requests kind),
                  check_file_exists_count_head kind _ _ _ _
                    (proj1 Hk) (proj1 (proj2 Hk)) H1) as Hs1;
    [|by apply (Hnot s')..].
  destruct exists_; [|injection H as _ <-; by apply (Hnot s1)].
  apply bind_inv in H as [([] & s2 & H2 & H)|[(e & H2 & _)|[H2 _]]];
    apply size_in_mb_pure in H2 as [-> _]; [|by apply (Hnot s1)..].
  apply bind_inv in H as [([] & s2 & H2 & H)|[(e & H2 & _)|[H2 _]]];
    pose proof (λ kind (Hk : counts_requests kind),
                  applied_preserves (kept_count kind) _ _ _ _
                    (send_telegram_message_count cfg env kind
                       (proj1 Hk) (proj1 (proj2 Hk)) _) H2) as Hs2;
    unfold kept_count in Hs2;
    [|apply (Hnot s'); [intros kind Hk; rewrite (Hs2 kind Hk); by apply Hs1
                       |done]..].
  assert (∃ ok s3, download_file cfg env url filename s2 = (ok, s3)
                   ∧ events s' = events s3) as (ok & s3 & H3 & Hev).
  { apply bind_inv in H as [(ok & s3 & H3 & H)|[(e & H3 & _)|[H3 _]]];
      [|by eauto..].
    exists (Ret ok), s3. split; [done|]. destruct ok.
    - erewrite bind_Ret in H by reflexivity. by injection H as _ <-.
    - by injection H as _ <-. }
  exists true. intros kind Hk.
  pose proof (download_file_count cfg env kind _ _ _ _ _
                (proj1 Hk) (proj1 (proj2 Hk)) (proj2 (proj2 Hk)) H3) as Hs3.
  unfold made in *. rewrite Hev, Hs3, (Hs2 kind Hk), (Hs1 kind Hk). simpl. lia.
Qed.

(** [process_file] makes the HEAD request for its URL if [probed], and
    then the GET request for it if [fetched]; it makes no other request. *)
Lemma process_file_kinds index ext s r s' :
  process_file cfg env index ext s = (r, s') →
  ∃ probed fetched : bool,
    (fetched = true → probed = true)
    ∧ ∀ kind, counts_requests kind →
        made kind s'
        = (made kind s
           + (if probed && kind (EvHead (url_of cfg index ext)) then 1 else 0)
           + (if fetched && kind (EvGet (url_of cfg index ext)) then 1 else 0))%nat.
Proof.
  intros H.
  destruct (decide (url_of cfg index ext ∈ FileMonitor.found_files (self s)))
    as [Hin|Hin].
  { rewrite process_file_seen in H by done. injection H as _ <-.
    exists false, false. split; [done|]. intros kind _. simpl. lia. }
  rewrite process_file_unseen in H by done.
  set (url := url_of cfg index ext) in *.
  set (t := add_event _ s) in H.
  assert (∀ kind, counts_requests kind → made kind t = made kind s) as Ht.
  { intros kind (Hlog & _). subst t. rewrite made_event, Hlog. lia. }
  clearbody t.
  assert (∀ rt t1 t2,
            process_file_try cfg env url (filename_of index ext) t = (rt, t1) →
            (∀ kind, counts_requests kind → made kind t2 = made kind t1) →
            ∃ probed fetched : bool,
              (fetched = true → probed = true)
              ∧ ∀ kind, counts_requests kind →
                  made kind t2
                  = (made kind s
                     + (if probed && kind (EvHead url) then 1 else 0)
                     + (if fetched && kind (EvGet url) then 1 else 0))%nat)
    as Hfrom.
  { intros rt t1 t2 Htry Hkept.
    apply process_file_try_kinds in Htry as (fetched & Hcount).
    exists true, fetched. split; [done|]. intros kind Hk.
    rewrite (Hkept kind Hk), (Hcount kind Hk), (Ht kind Hk). simpl. lia. }
  assert (∀ e t1 rh t2,
            print_status cfg env (MsgProcessError (filename_of index ext) e)
              true true t1 = (rh, t2) →
            ∀ kind, counts_requests kind → made kind t2 = made kind t1)
    as Hhandler.
  { intros e t1 rh t2 Hp kind (Hlog & Hpost & _).
    by apply (applied_preserves (kept_count kind) _ _ _ _
                (print_status_count cfg env kind Hlog Hpost _ _ _)) in Hp. }
  assert (∀ e t1 rh t2,
            (print_status cfg env (MsgProcessError (filename_of index ext) e)
               true true;; mret (None : option (bool * bool))) t1 = (rh, t2) →
            ∀ kind, counts_requests kind → made kind t2 = made kind t1)
    as Hhandler'.
  { intros e t1 rh t2 Hp.
    apply bind_inv in Hp as [([] & t3 & Hp & Hm)|[(e' & Hp & _)|[Hp _]]];
      [injection Hm as _ <-|..]; by eapply Hhandler. }
  apply bind_inv in H as [(o & s1 & H1 & H)|[(e & H1 & _)|[H1 _]]];
    [injection H as _ <-|..];
    (apply try_except_inv in H1 as [[H1 _]|(e' & s2 & H1 & _ & Hh)];
     [by eapply (Hfrom _ _ _ H1) | eapply (Hfrom _ _ _ H1), Hhandler', Hh]).
Qed.

Lemma process_file_to_url url index ext s r s' :
  process_file cfg env index ext s = (r, s') →
  to_url_at_most url (listed url [url_of cfg index ext]) s s'.
Proof.
  intros H. apply process_file_kinds in H as (probed & fetched & Himp & Hcount).
  unfold to_url_at_most.
  rewrite (Hcount (is_head_to url)) by done.
  rewrite (Hcount (is_get_to url)) by done.
  simpl. destruct fetched; [rewrite Himp by done|destruct probed]; simpl;
    destruct (bool_decide (url_of cfg index ext = url)); lia.
Qed.

Lemma for_ext_to_url url exts counts s r s' :
  for_ext cfg env exts counts s = (r, s') →
  to_url_at_most url
    (listed url (url_of cfg (FileMonitor.current_index (self s)) <$> exts)) s s'.
Proof.
  revert counts s. induction exts as [|ext exts IH]; intros counts s; simpl.
  - intros [= _ <-]. unfold to_url_at_most. lia.
  - intros H. erewrite bind_Ret in H by reflexivity.
    set (index := FileMonitor.current_index (self s)) in *.
    apply bind_inv in H as [([f d] & s1 & H1 & H)|[(e & H1 & _)|[H1 _]]];
      pose proof (process_file_cases cfg env _ _ _ _ _ H1) as (Hcur & _);
      apply (process_file_to_url url) in H1; unfold to_url_at_most in *;
      simpl in H1; [|lia..].
    apply IH in H. unfold to_url_at_most in H. rewrite Hcur in H.
    fold index in H. simpl. unfold fmap in *. lia.
Qed.

Lemma scan_range_to_url url indices counts s r s' :
  scan_range cfg env indices counts s = (r, s') →
  to_url_at_most url
    (listed url
       (indices ≫= λ index, url_of cfg index <$> SUPPORTED_EXTENSIONS cfg)) s s'.
Proof.
  revert counts s. induction indices as [|i indices IH]; intros counts s; simpl.
  - intros [= _ <-]. unfold to_url_at_most. lia.
  - intros H. erewrite bind_Ret in H by reflexivity.
    rewrite listed_app.
    apply bind_inv in H as [(counts1 & s1 & H1 & H)|[(e & H1 & _)|[H1 _]]];
      apply (for_ext_to_url url) in H1; unfold to_url_at_most in *;
      unfold made in *; simpl in H1; [|lia..].
    apply IH in H. unfold to_url_at_most, made in H.
    unfold fmap, mbind in *. lia.
Qed.

(** Among the candidates of a list of indices without repetition, one
    candidate comes as many times as its extension is listed, if its index
    is in the list. *)
Lemma listed_candidates index ext indices :
  NoDup indices →
  listed (url_of cfg index ext)
    (indices ≫= λ i, url_of cfg i <$> SUPPORTED_EXTENSIONS cfg)
  = if bool_decide (index ∈ indices)
    then listed ext (SUPPORTED_EXTENSIONS cfg) else 0%nat.
Proof.
  assert (∀ i exts,
            listed (url_of cfg index ext) (url_of cfg i <$> exts)
            = if bool_decide (i = index) then listed ext exts else 0%nat)
    as Hone.
  { intros i exts. induction exts as [|e exts IH].
    - rewrite fmap_nil. by destruct (bool_decide (i = index)).
    - rewrite fmap_cons, !listed_cons, IH. clear IH.
      destruct (decide (i = index)) as [->|Hne].
      + rewrite (bool_decide_eq_true_2 (index = index) eq_refl).
        destruct (decide (e = ext)) as [->|He].
        * rewrite (bool_decide_eq_true_2 _ (eq_refl (url_of cfg index ext))).
          by rewrite (bool_decide_eq_true_2 (ext = ext) eq_refl).
        * rewrite (bool_decide_eq_false_2 (e = ext) He).
          assert (url_of cfg index e ≠ url_of cfg index ext) as Hu.
          { intros Hu. apply url_of_inj in Hu as [_ Hu]. exact (He Hu). }
          by rewrite (bool_decide_eq_false_2 _ Hu).
      + rewrite (bool_decide_eq_false_2 (i = index) Hne).
        assert (url_of cfg i e ≠ url_of cfg index ext) as Hu.
        { intros Hu. apply url_of_inj in Hu as [Hu _]. exact (Hne Hu). }
        by rewrite (bool_decide_eq_false_2 _ Hu). }
  induction 1 as [|i indices Hi Hnd IH]; [done|].
  rewrite bind_cons, listed_app, Hone, IH. clear IH Hone.
  destruct (decide (i = index)) as [->|Hne].
  - rewrite (bool_decide_eq_true_2 (index = index) eq_refl).
    rewrite (bool_decide_eq_false_2 (index ∈ indices) Hi).
    rewrite (bool_decide_eq_true_2 (index ∈ index :: indices)) by left. lia.
  - rewrite (bool_decide_eq_false_2 (i = index) Hne).
    destruct (decide (index ∈ indices)) as [Hin|Hout].
    + rewrite (bool_decide_eq_true_2 _ Hin).
      rewrite (bool_decide_eq_true_2 (index ∈ i :: indices)) by (by right).
      lia.
    + rewrite (bool_decide_eq_false_2 _ Hout).
      rewrite (bool_decide_eq_false_2 (index ∈ i :: indices)); [lia|].
      intros [Heq|Hin]%elem_of_cons; [by apply Hne | by apply Hout].
Qed.

(** A pass from the cursor [c]: the requests for the URL of one candidate. *)
Lemma check_new_files_to_url index ext s r s' :
  check_new_files cfg env s = (r, s') →
  to_url_at_most (url_of cfg index ext)
    (if bool_decide (FileMonitor.current_index (self s) ≤ index ≤ END_INDEX cfg)
     then listed ext (SUPPORTED_EXTENSIONS cfg) else 0%nat) s s'.
Proof.
  set (url := url_of cfg index ext).
  rewrite check_new_files_scan_pass. unfold scan_pass.
  rewrite !(bind_Ret _ _ _ _ _ (print_status_quiet cfg env _ _ s)).
  erewrite !(bind_Ret (gets _)) by reflexivity.
  rewrite !(bind_Ret _ _ _ _ _ (print_status_quiet cfg env _ _ _)).
  simpl.
  set (c := FileMonitor.current_index (self s)).
  set (s1 := add_event _ (add_event _ s)).
  assert (∀ kind, counts_requests kind → made kind s1 = made kind s) as Hs1.
  { intros kind (Hlog & _). subst s1. rewrite !made_event, !Hlog. lia. }
  intros H.
  assert (∀ s2, to_url_at_most url
                  (listed url
                     (seqZ c (END_INDEX cfg - c + 1)
                      ≫= λ i, url_of cfg i <$> SUPPORTED_EXTENSIONS cfg)) s1 s2 →
                (∀ kind, counts_requests kind → made kind s' = made kind s2) →
                to_url_at_most url
                  (if bool_decide (c ≤ index ≤ END_INDEX cfg)
                   then listed ext (SUPPORTED_EXTENSIONS cfg) else 0%nat) s s')
    as Hfrom.
  { intros s2 Hto Hkept. unfold to_url_at_most in *.
    subst url. rewrite listed_candidates in Hto by apply NoDup_seqZ.
    rewrite !Hkept, <- !Hs1 by done.
    assert (bool_decide (index ∈ seqZ c (END_INDEX cfg - c + 1))
            = bool_decide (c ≤ index ≤ END_INDEX cfg)) as <-; [|done].
    apply bool_decide_ext. rewrite elem_of_seqZ. lia. }
  apply bind_inv in H as [(counts & s2 & H2 & H)|[(e & H2 & _)|[H2 _]]];
    apply (scan_range_to_url url) in H2; [|by apply (Hfrom s')..].
  apply (Hfrom s2 H2). intros kind (Hlog & Hpost & _).
  assert (preserves (kept_count kind)
            ((if c <=? END_INDEX cfg
              then modify (put_current_index (START_INDEX cfg));;
                   print_status cfg env
                     (MsgCycleCompleted (START_INDEX cfg) (END_INDEX cfg))
                     false false
              else mret ());; record_pass env counts)) as Hrest.
  { unfold record_pass, datetime_now.
    repeat first [ apply preserves_modify; intros ?; done
                 | apply print_status_count
                 | preserves_step
                 | match goal with |- PreOrder _ => apply _ end
                 | exact Hlog | exact Hpost ]. }
  by apply Hrest in H.
Qed.

(** X2: the requests of a scan pass that starts with the cursor at [c].
    Candidate by candidate: the URL of the candidate for an index and an
    extension gets at most as many HEAD requests as the extension is listed
    in [SUPPORTED_EXTENSIONS] (one, when it is listed once) if the index is
    from [c] to [END_INDEX], and none otherwise, and never more GET requests
    than HEAD requests.  In all: at most as many HEAD requests as there are
    indices from [c] to [END_INDEX] times extensions listed, never more GET
    requests than HEAD requests, and no request at all when [c] is already
    past [END_INDEX]. *)
Theorem pass_requests_bounded s r s' :
  check_new_files cfg env s = (r, s') →
  let c := FileMonitor.current_index (self s) in
  let candidates :=
    (Z.to_nat (END_INDEX cfg - c + 1) * List.length (SUPPORTED_EXTENSIONS cfg))%nat in
  (∀ index ext,
     let url := url_of cfg index ext in
     let times :=
       if bool_decide (c ≤ index ≤ END_INDEX cfg)
       then listed ext (SUPPORTED_EXTENSIONS cfg) else 0%nat in
     (made (is_head_to url) s ≤ made (is_head_to url) s'
      ≤ made (is_head_to url) s + times)%nat
     ∧ (made (is_get_to url) s ≤ made (is_get_to url) s')%nat
     ∧ (made (is_get_to url) s' - made (is_get_to url) s
        ≤ made (is_head_to url) s' - made (is_head_to url) s)%nat)
  ∧ (made is_head s ≤ made is_head s' ≤ made is_head s + candidates)%nat
  ∧ (made is_get s ≤ made is_get s')%nat
  ∧ (made is_get s' - made is_get s ≤ made is_head s' - made is_head s)%nat
  ∧ (END_INDEX cfg < c →
     made is_head s' = made is_head s ∧ made is_get s' = made is_get s).
Proof.
  intros H c candidates. split.
  { intros index ext url times.
    exact (check_new_files_to_url index ext s r s' H). }
  apply check_new_files_at_most in H as (Hh & Hg & Hle).
  fold c candidates in Hh. split_and!; [lia..|].
  intros Hc. assert (candidates = 0%nat) as Hzero by (subst candidates; lia).
  lia.
Qed.

End PerCandidate.

(** The first pass over the indices 0 to 2 with the extension listed once:
    the served candidate gets one HEAD request at most, and there are three
    at most in all. *)
Lemma pass_requests_bounded_witness :
  let cfg := config 0 2 ["txt"] in
  let env := world only_file_1 get_file_5 in
  let run := check_new_files cfg env (boot ∅) in
  (made (is_head_to (url_of cfg 1 "txt")) run.2 ≤ 1)%nat
  ∧ (made (is_get_to (url_of cfg 1 "txt")) run.2
     ≤ made (is_head_to (url_of cfg 1 "txt")) run.2)%nat
  ∧ (made is_head run.2 ≤ 3)%nat
  ∧ (made is_get run.2 ≤ made is_head run.2)%nat.
Proof.
  intros cfg env run.
  destruct (pass_requests_bounded cfg env (boot ∅) run.1 run.2)
    as (Hone & Hhead & Hget & Hle & _); [apply surjective_pairing|].
  destruct (Hone 1 "txt") as (Hh1 & Hg1 & Hle1).
  change (made (is_head_to (url_of cfg 1 "txt")) (boot ∅)) with 0%nat in *.
  change (made (is_get_to (url_of cfg 1 "txt")) (boot ∅)) with 0%nat in *.
  change (made is_head (boot ∅)) with 0%nat in *.
  change (made is_get (boot ∅)) with 0%nat in *.
  split_and!; [exact (proj2 Hh1) | lia | exact (proj2 Hhead) | lia].
Defined.

(** ** Invariants of the monitor *)

Global Instance keeps_po (I : State → Prop) : PreOrder (keeps I).
Proof.
  split; [intros s H; exact H | intros s1 s2 s3 H1 H2 H; apply H2, H1, H].
Qed.

Section Invariant.

Variable cfg : Config.
Variable env : Env.

(** The property, and the least index at which it is known to be kept. *)
Variable I : State → Prop.
Variable lo : Z.

Hypothesis I_event : ∀ e s, I s → I (add_event e s).
Hypothesis I_cursor : ∀ i s, I s → I (put_current_index i s).
Hypothesis I_reporter : ∀ rep s, I s → I (put_status_reporter rep s).
Hypothesis I_process : ∀ index ext s r s',
  lo ≤ index ≤ END_INDEX cfg → ext ∈ SUPPORTED_EXTENSIONS cfg →
  I s → process_file cfg env index ext s = (r, s') → I s'.

Lemma for_ext_invariant exts counts s r s' :
  (∀ ext, ext ∈ exts → ext ∈ SUPPORTED_EXTENSIONS cfg) →
  lo ≤ FileMonitor.current_index (self s) ≤ END_INDEX cfg →
  I s → for_ext cfg env exts counts s = (r, s') → I s'.
Proof.
  revert counts s. induction exts as [|ext exts IH]; intros counts s Hexts Hc HI;
    simpl.
  - by intros [= _ <-].
  - intros H. erewrite bind_Ret in H by reflexivity.
    assert (ext ∈ SUPPORTED_EXTENSIONS cfg) as Hext by (apply Hexts; left).
    apply bind_inv in H as [([f d] & s1 & H1 & H)|[(e & H1 & _)|[H1 _]]];
      [|by eapply I_process..].
    eapply (IH _ s1); [| |by eapply I_process|exact H].
    + intros ext' Hin. apply Hexts. by right.
    + apply process_file_cases in H1 as [-> _]. done.
Qed.

Lemma scan_range_invariant indices counts s r s' :
  (∀ i, i ∈ indices → lo ≤ i ≤ END_INDEX cfg) →
  I s → scan_range cfg env indices counts s = (r, s') → I s'.
Proof.
  revert counts s. induction indices as [|i indices IH]; intros counts s Hi HI;
    simpl.
  - by intros [= _ <-].
  - intros H. erewrite bind_Ret in H by reflexivity.
    assert (I (put_current_index i s)) as HI1 by by apply I_cursor.
    assert (lo ≤ FileMonitor.current_index (self (put_current_index i s))
            ≤ END_INDEX cfg) as Hc by (simpl; apply Hi; left).
    apply bind_inv in H as [(counts1 & s1 & H1 & H)|[(e & H1 & _)|[H1 _]]];
      [|by eapply for_ext_invariant..].
    eapply (IH _ s1); [|by eapply for_ext_invariant|exact H].
    intros i' Hin. apply Hi. by right.
Qed.

(** A pass that starts at or above [lo] keeps the property. *)
Lemma check_new_files_invariant s r s' :
  lo ≤ FileMonitor.current_index (self s) →
  I s → check_new_files cfg env s = (r, s') → I s'.
Proof.
  intros Hlo HI. rewrite check_new_files_scan_pass. unfold scan_pass.
  rewrite !(bind_Ret _ _ _ _ _ (print_status_quiet cfg env _ _ s)).
  erewrite !(bind_Ret (gets _)) by reflexivity.
  rewrite !(bind_Ret _ _ _ _ _ (print_status_quiet cfg env _ _ _)).
  simpl.
  set (c := FileMonitor.current_index (self s)) in *.
  set (s1 := add_event _ (add_event _ s)).
  assert (I s1) as HI1 by (subst s1; by do 2 apply I_event).
  clearbody s1. intros H.
  assert (∀ i, i ∈ seqZ c (END_INDEX cfg - c + 1) → lo ≤ i ≤ END_INDEX cfg)
    as Hrange by (intros i Hin%elem_of_seqZ; lia).
  apply bind_inv in H as [(counts & s2 & H2 & H)|[(e & H2 & _)|[H2 _]]];
    [|by eapply scan_range_invariant..].
  apply (scan_range_invariant _ _ _ _ _ Hrange HI1) in H2.
  assert (preserves (keeps I)
            ((if c <=? END_INDEX cfg
              then modify (put_current_index (START_INDEX cfg));;
                   print_status cfg env
                     (MsgCycleCompleted (START_INDEX cfg) (END_INDEX cfg))
                     false false
              else mret ());; record_pass env counts)) as Hrest.
  { unfold record_pass, datetime_now.
    repeat first [ apply preserves_modify; intros ?; solve [unfold keeps; auto]
                 | apply print_status_preserves; intros ? ?; solve [unfold keeps; auto]
                 | preserves_step
                 | match goal with |- PreOrder _ => apply _ end ]. }
  by apply (Hrest _ _ _ H).
Qed.

Hypothesis I_fresh : ∀ clock s,
  I (put_self {| FileMonitor.current_index := 0;
                 FileMonitor.found_files := ∅;
                 FileMonitor.status_reporter := StatusReporter.init clock |} s).

(** The constructor leaves a monitor of which the property holds. *)
Lemma FileMonitor_init_invariant s r s' :
  FileMonitor_init cfg env s = (r, s') → I s'.
Proof.
  unfold FileMonitor_init, datetime_now. intros H.
  erewrite bind_Ret in H by reflexivity.
  erewrite bind_Ret in H by reflexivity.
  match type of H with
  | (os_makedirs env ?p ≫= _) ?t = _ => destruct (os_makedirs_run env p t) as [E|E]
  end.
  - rewrite (bind_Ret _ _ _ _ _ E) in H.
    refine (send_telegram_message_preserves cfg env (keeps I) _ _ _ _ _ H _).
    + intros e t. unfold keeps. auto.
    + apply I_event, I_fresh.
  - rewrite (bind_Raise _ _ _ _ _ E) in H. injection H as _ <-.
    apply I_event, I_fresh.
Qed.

(** A property that holds of a new monitor and that each candidate keeps
    holds between any two tasks of the scheduler. *)
Lemma session_invariant jobs s r s' :
  lo ≤ 0 → lo ≤ START_INDEX cfg →
  session cfg env jobs s = (r, s') → I s'.
Proof.
  intros Hzero Hstart H.
  apply session_inv in H
    as [(s0 & s2 & Hinit & Hself & Hfirst & Hrest)|(_ & Hinit & _)];
    [|by eapply FileMonitor_init_invariant].
  apply FileMonitor_init_invariant in Hinit.
  assert (∀ t rt t',
            I t ∧ lo ≤ FileMonitor.current_index (self t) →
            check_new_files cfg env t = (rt, t') →
            I t' ∧ lo ≤ FileMonitor.current_index (self t')) as Hpass.
  { intros t rt t' [HI Hc] Ht. split; [by eapply check_new_files_invariant|].
    destruct (check_new_files_outcome cfg env t)
      as (t1 & clock & counts & E & Hcur & _).
    rewrite Ht in E. injection E as _ <-. rewrite Hcur. by case_match. }
  refine (proj1 (run_pending_invariant cfg env
            (λ t, I t ∧ lo ≤ FileMonitor.current_index (self t))
            jobs _ r s' Hpass _ _ Hrest)).
  - intros t rt t' [HI Hc] Ht.
    pose proof (send_status_report_effect cfg env _ _ _ Ht) as [Hs _].
    split; [|by rewrite Hs].
    refine (send_status_report_preserves cfg env (keeps I) _ _ _ _ Ht HI).
    intros e t0. unfold keeps. auto.
  - apply Hpass in Hfirst as [HI2 Hc2].
    + split; [by apply I_event | done].
    + split; [by apply I_event|]. simpl. by rewrite Hself.
Qed.

End Invariant.

(** A relation that every step of the monitor keeps is kept by a whole
    session, and by [main]. *)
Section Whole.

Variable cfg : Config.
Variable env : Env.
Variable R : relation State.
Context `{!PreOrder R}.

Hypothesis R_event : ∀ e s, R s (add_event e s).
Hypothesis R_download :
  ∀ url filename, preserves R (download_file cfg env url filename).
Hypothesis R_add_found_file : ∀ url s, R s (add_found_file url s).
Hypothesis R_put_current_index : ∀ i s, R s (put_current_index i s).
Hypothesis R_put_status_reporter : ∀ r s, R s (put_status_reporter r s).
Hypothesis R_put_self : ∀ self s, R s (put_self self s).





End Whole.

(** ** The seen-set *)

Lemma count_kind_pos kind evs :
  (0 < count_kind kind evs)%nat → ∃ e, e ∈ evs ∧ kind e = true.
Proof.
  induction evs as [|e evs IH]; simpl; [lia|].
  destruct (kind e) eqn:He.
  - intros _. exists e. split; [left | done].
  - intros H. destruct IH as (e' & Hin & Hk); [lia|].
    exists e'. split; [by right | done].
Qed.

Section SeenSet.

Variable cfg : Config.
Variable env : Env.

(** [download_file] always asks for the URL. *)
Lemma download_file_fetches url filename s r s' :
  download_file cfg env url filename s = (r, s') → EvGet url ∈ events s'.
Proof.
  intros H.
  apply (download_file_count cfg env (is_get_to url)) in H; [|done..].
  simpl in H. rewrite bool_decide_eq_true_2 in H by done.
  destruct (count_kind_pos (is_get_to url) (events s')) as (e & Hin & He).
  { unfold made in H. lia. }
  destruct e; simpl in He; try done.
  apply bool_decide_eq_true in He as ->. done.
Qed.

Lemma process_file_events_grow index ext :
  preserves events_grow (process_file cfg env index ext).
Proof.
  apply process_file_preserves; [apply _ | apply events_grow_event | |].
  - apply events_grow_download.
  - intros url s. unfold events_grow. done.
Qed.

(** A candidate is reported as found only after a HEAD request and a GET
    request for its URL. *)
Lemma process_file_found_fetched index ext s d s' :
  process_file cfg env index ext s = (Ret (true, d), s') →
  EvHead (url_of cfg index ext) ∈ events s'
  ∧ EvGet (url_of cfg index ext) ∈ events s'.
Proof.
  intros H.
  destruct (decide (url_of cfg index ext ∈ FileMonitor.found_files (self s)))
    as [Hin|Hin]; [by rewrite process_file_seen in H by done|].
  split.
  { apply process_file_probes in H as [k ->]; [|done].
    rewrite !elem_of_app, !elem_of_cons. auto. }
  rewrite process_file_unseen in H by done.
  set (t := add_event _ s) in H. clearbody t.
  apply bind_inv in H as [(o & s1 & H1 & H)|[(e & H1 & ?)|[H1 ?]]]; [|done..].
  injection H as Ho <-.
  apply try_except_inv in H1 as [[H1 _]|(e & s2 & _ & _ & Hh)]; cycle 1.
  { apply bind_inv in Hh as [([] & s3 & H2 & Hh)|[(e' & H2 & ?)|[H2 ?]]];
      [|done..].
    injection Hh as <- _. done. }
  destruct o as [[f d']|]; [|done]. simpl in Ho. injection Ho as -> ->.
  unfold process_file_try in H1.
  apply bind_inv in H1 as [([exists_ size] & s2 & _ & H)|[(e & _ & ?)|[_ ?]]];
    [|done..].
  destruct exists_; [|done].
  apply bind_inv in H as [([] & s3 & _ & H)|[(e & _ & ?)|[_ ?]]]; [|done..].
  apply bind_inv in H as [([] & s4 & _ & H)|[(e & _ & ?)|[_ ?]]]; [|done..].
  apply bind_inv in H as [(ok & s5 & H5 & H)|[(e & _ & ?)|[_ ?]]]; [|done..].
  apply download_file_fetches in H5.
  destruct ok.
  - erewrite bind_Ret in H by reflexivity. by injection H as _ <-.
  - by injection H as _ <-.
Qed.

(** X7: whatever tasks have run, every URL in the seen-set is the URL of a
    candidate of the configuration (an index from [min(0, START_INDEX)] to
    [END_INDEX] and a supported extension), and both a HEAD request and a
    GET request for it are on record. *)
Theorem seen_urls_were_fetched jobs s r s' url :
  session cfg env jobs s = (r, s') →
  url ∈ FileMonitor.found_files (self s') →
  (∃ index ext,
     url = url_of cfg index ext
     ∧ Z.min 0 (START_INDEX cfg) ≤ index ≤ END_INDEX cfg
     ∧ ext ∈ SUPPORTED_EXTENSIONS cfg)
  ∧ EvHead url ∈ events s'
  ∧ EvGet url ∈ events s'.
Proof.
  intros H. revert url.
  refine (session_invariant cfg env
            (λ t, ∀ url, url ∈ FileMonitor.found_files (self t) →
               (∃ index ext,
                  url = url_of cfg index ext
                  ∧ Z.min 0 (START_INDEX cfg) ≤ index ≤ END_INDEX cfg
                  ∧ ext ∈ SUPPORTED_EXTENSIONS cfg)
               ∧ EvHead url ∈ events t ∧ EvGet url ∈ events t)
            (Z.min 0 (START_INDEX cfg)) _ _ _ _ _ jobs s r s' _ _ H);
    [| | | | |lia|lia].
  - intros e t HI url Hin. destruct (HI url Hin) as (Hc & Hh & Hg).
    simpl. rewrite !elem_of_app. auto.
  - intros i t HI url Hin. by apply HI.
  - intros rep t HI url Hin. by apply HI.
  - intros index ext t rt t' Hindex Hext HI Ht url Hin.
    pose proof (process_file_events_grow index ext _ _ _ Ht) as [k Hk].
    destruct (process_file_cases cfg env _ _ _ _ _ Ht)
      as (_ & _ & f & d & -> & _ & [[Hsame _]|(-> & -> & _ & Hadd & _)]).
    + rewrite Hsame in Hin. destruct (HI url Hin) as (Hc & Hh & Hg).
      rewrite Hk, !elem_of_app. auto.
    + rewrite Hadd in Hin. apply elem_of_union in Hin as [Hin|Hin].
      * apply elem_of_singleton in Hin as ->.
        split; [by exists index, ext|].
        by apply process_file_found_fetched in Ht.
      * destruct (HI url Hin) as (Hc & Hh & Hg).
        rewrite Hk, !elem_of_app. auto.
  - intros clock t url Hin. simpl in Hin. set_solver.
Qed.



End SeenSet.

(** After a pass that downloads [file_1.txt], its URL is in the seen-set,
    and the HEAD and GET requests for it are on record. *)
Lemma seen_urls_were_fetched_witness :
  let cfg := config 0 2 ["txt"] in
  let env := world only_file_1 get_file_5 in
  let run := session cfg env [JobCheck] (boot ∅) in
  url_of cfg 1 "txt" ∈ FileMonitor.found_files (self run.2)
  ∧ EvHead (url_of cfg 1 "txt") ∈ events run.2
  ∧ EvGet (url_of cfg 1 "txt") ∈ events run.2.
Proof.
  intros cfg env run.
  assert (url_of cfg 1 "txt" ∈ FileMonitor.found_files (self run.2)) as Hin.
  { apply (bool_decide_unpack _). vm_compute. exact I. }
  split; [exact Hin|].
  apply (seen_urls_were_fetched cfg env [JobCheck] (boot ∅) run.1 run.2
           (url_of cfg 1 "txt")); [apply surjective_pairing | exact Hin].
Defined.


(** ** The counter of downloads and the seen-set *)

Section DownloadsCounter.

Variable cfg : Config.
Variable env : Env.

(** The seen-set gets one more URL exactly when [process_file] says
    downloaded. *)
Lemma process_file_seen_size index ext s r s' :
  process_file cfg env index ext s = (r, s') →
  ∃ found downloaded,
    r = Ret (found, downloaded)
    ∧ (downloaded = true → found = true)
    ∧ Z.of_nat (size (FileMonitor.found_files (self s')))
      = Z.of_nat (size (FileMonitor.found_files (self s)))
        + (if downloaded : bool then 1 else 0).
Proof.
  intros H.
  destruct (process_file_cases cfg env _ _ _ _ _ H)
    as (_ & _ & f & d & -> & Hfd & [[Hsame Hne]|(Hf & Hd & Hnew & Hadd & _)]);
    exists f, d; (split_and!; [done|done|]).
  - rewrite Hsame. destruct d; [|lia]. by rewrite Hfd in Hne.
  - rewrite Hd, Hadd, size_union, size_singleton; [lia|].
    by apply disjoint_singleton_l.
Qed.

Lemma for_ext_seen_size exts counts s r s' :
  for_ext cfg env exts counts s = (r, s') →
  ∃ counts',
    r = Ret counts'
    ∧ counts'.2 - counts.2
      = Z.of_nat (size (FileMonitor.found_files (self s')))
        - Z.of_nat (size (FileMonitor.found_files (self s))).
Proof.
  revert counts s. induction exts as [|ext exts IH]; intros counts s; simpl.
  - intros [= <- <-]. exists counts. split; [done | lia].
  - intros H. erewrite bind_Ret in H by reflexivity.
    apply bind_inv in H as [([f d] & s1 & H1 & H)|[(e & H1 & _)|[H1 _]]];
      apply process_file_seen_size in H1 as (f' & d' & Hr & Hfd & Hsize);
      [|done..].
    injection Hr as <- <-.
    apply IH in H as (counts' & -> & Hsize').
    exists counts'. split; [done|].
    destruct d; [rewrite Hfd in Hsize' by done|destruct f]; simpl in *; lia.
Qed.

Lemma scan_range_seen_size indices counts s r s' :
  scan_range cfg env indices counts s = (r, s') →
  ∃ counts',
    r = Ret counts'
    ∧ counts'.2 - counts.2
      = Z.of_nat (size (FileMonitor.found_files (self s')))
        - Z.of_nat (size (FileMonitor.found_files (self s))).
Proof.
  revert counts s. induction indices as [|i indices IH]; intros counts s; simpl.
  - intros [= <- <-]. exists counts. split; [done | lia].
  - intros H. erewrite bind_Ret in H by reflexivity.
    apply bind_inv in H as [(counts1 & s1 & H1 & H)|[(e & H1 & _)|[H1 _]]];
      apply for_ext_seen_size in H1 as (c1 & Hr & Hsize); [|done..].
    injection Hr as <-. simpl in Hsize.
    apply IH in H as (counts' & -> & Hsize').
    exists counts'. split; [done | lia].
Qed.

(** A pass adds to [files_downloaded] the number of URLs it adds to the
    seen-set. *)
Lemma check_new_files_seen_size s r s' :
  check_new_files cfg env s = (r, s') →
  StatusReporter.files_downloaded (FileMonitor.status_reporter (self s'))
  - StatusReporter.files_downloaded (FileMonitor.status_reporter (self s))
  = Z.of_nat (size (FileMonitor.found_files (self s')))
    - Z.of_nat (size (FileMonitor.found_files (self s))).
Proof.
  rewrite check_new_files_scan_pass. unfold scan_pass.
  rewrite !(bind_Ret _ _ _ _ _ (print_status_quiet cfg env _ _ s)).
  erewrite !(bind_Ret (gets _)) by reflexivity.
  rewrite !(bind_Ret _ _ _ _ _ (print_status_quiet cfg env _ _ _)).
  simpl.
  set (s1 := add_event _ (add_event _ s)).
  set (c := FileMonitor.current_index (self s)).
  destruct (scan_range cfg env (seqZ c (END_INDEX cfg - c + 1)) (0, 0) s1)
    as [r2 s2] eqn:E.
  pose proof (scan_range_reporter cfg env _ _ _ _ _ E) as Hrep.
  destruct (scan_range_seen_size _ _ _ _ _ E) as (counts & -> & Hsize).
  rewrite (bind_Ret _ _ _ _ _ E).
  unfold reporter_kept in Hrep. simpl in Hrep, Hsize.
  destruct (c <=? END_INDEX cfg).
  - erewrite (bind_Ret (_ ≫= _)); cycle 1.
    { erewrite bind_Ret by reflexivity. apply print_status_quiet. }
    unfold record_pass, datetime_now.
    erewrite bind_Ret by reflexivity. erewrite bind_Ret by reflexivity.
    intros [= _ <-]. simpl. rewrite Hrep. lia.
  - erewrite bind_Ret by reflexivity.
    unfold record_pass, datetime_now.
    erewrite bind_Ret by reflexivity. erewrite bind_Ret by reflexivity.
    intros [= _ <-]. simpl. rewrite Hrep. lia.
Qed.

(** X9: between any two tasks of the scheduler, the counter
    [files_downloaded] of the status report is the number of URLs in the
    seen-set: a URL enters the set exactly when [process_file] returns
    [(True, True)], which is when the pass counts a download. *)
Theorem downloads_counter_is_seen_size jobs s r s' :
  session cfg env jobs s = (r, s') →
  StatusReporter.files_downloaded (FileMonitor.status_reporter (self s'))
  = Z.of_nat (size (FileMonitor.found_files (self s'))).
Proof.
  intros H.
  apply session_inv in H
    as [(s1 & s2 & _ & Hself & Hfirst & Hrest)|(_ & _ & Hself & _)];
    [|by rewrite Hself].
  assert (∀ t rt t',
            StatusReporter.files_downloaded (FileMonitor.status_reporter (self t))
            = Z.of_nat (size (FileMonitor.found_files (self t))) →
            check_new_files cfg env t = (rt, t') →
            StatusReporter.files_downloaded (FileMonitor.status_reporter (self t'))
            = Z.of_nat (size (FileMonitor.found_files (self t')))) as Hpass.
  { intros t rt t' HI Ht. apply check_new_files_seen_size in Ht. lia. }
  eapply (run_pending_invariant cfg env
            (λ t, StatusReporter.files_downloaded
                    (FileMonitor.status_reporter (self t))
                  = Z.of_nat (size (FileMonitor.found_files (self t)))));
    [exact Hpass | | |exact Hrest].
  - intros t rt t' HI Ht. apply send_status_report_effect in Ht as [-> _]. done.
  - apply Hpass in Hfirst; [done|]. simpl. rewrite Hself. done.
Qed.

End DownloadsCounter.

(** One file downloaded in the first pass, none in the second: the counter
    and the seen-set both stand at one. *)
Lemma downloads_counter_is_seen_size_witness :
  let cfg := config 0 2 ["txt"] in
  let env := world only_file_1 get_file_5 in
  let run := session cfg env [JobCheck] (boot ∅) in
  StatusReporter.files_downloaded (FileMonitor.status_reporter (self run.2))
  = Z.of_nat (size (FileMonitor.found_files (self run.2)))
  ∧ StatusReporter.files_downloaded (FileMonitor.status_reporter (self run.2)) = 1.
Proof.
  intros cfg env run. split.
  - apply (downloads_counter_is_seen_size cfg env [JobCheck] (boot ∅) run.1 run.2).
    apply surjective_pairing.
  - vm_compute. reflexivity.
Defined.

(** ** A pass over a range that is all seen *)

Section SteadyState.

Variable cfg : Config.
Variable env : Env.

Lemma for_ext_all_seen exts counts s :
  (∀ ext, ext ∈ exts →
     url_of cfg (FileMonitor.current_index (self s)) ext
     ∈ FileMonitor.found_files (self s)) →
  for_ext cfg env exts counts s = (Ret counts, s).
Proof.
  revert counts. induction exts as [|ext exts IH]; intros counts Hseen; simpl;
    [done|].
  erewrite bind_Ret by reflexivity.
  erewrite (bind_Ret _ _ _ (false, false) s)
    by (apply process_file_seen, Hseen; left).
  apply IH. intros ext' Hin. apply Hseen. by right.
Qed.

Lemma scan_range_all_seen indices counts s :
  (∀ index ext, index ∈ indices → ext ∈ SUPPORTED_EXTENSIONS cfg →
     url_of cfg index ext ∈ FileMonitor.found_files (self s)) →
  ∃ s2, scan_range cfg env indices counts s = (Ret counts, s2)
        ∧ events s2 = events s ∧ files s2 = files s
        ∧ FileMonitor.found_files (self s2) = FileMonitor.found_files (self s)
        ∧ FileMonitor.status_reporter (self s2)
          = FileMonitor.status_reporter (self s).
Proof.
  revert s. induction indices as [|i indices IH]; intros s Hseen; simpl.
  - by exists s.
  - erewrite bind_Ret by reflexivity.
    erewrite (bind_Ret _ _ _ counts (put_current_index i s)); cycle 1.
    { apply for_ext_all_seen. intros ext Hext. simpl. apply Hseen; [left|done]. }
    destruct (IH (put_current_index i s)) as (s2 & E & Hev & Hf & Hseen2 & Hrep).
    { intros index ext Hin Hext. simpl. apply Hseen; [by right | done]. }
    exists s2. by rewrite E.
Qed.

(** X10: when every candidate from the cursor to [END_INDEX] is already in
    the seen-set, a pass makes no request and sends no notification: it only
    writes its log lines, resets the cursor, and counts one more check with
    nothing found and nothing downloaded.  Files and seen-set are as they
    were. *)
Theorem pass_over_seen_range_is_silent s r s' :
  (∀ index ext,
     FileMonitor.current_index (self s) ≤ index ≤ END_INDEX cfg →
     ext ∈ SUPPORTED_EXTENSIONS cfg →
     url_of cfg index ext ∈ FileMonitor.found_files (self s)) →
  check_new_files cfg env s = (r, s') →
  let c := FileMonitor.current_index (self s) in
  let reporter := FileMonitor.status_reporter (self s) in
  let reporter' := FileMonitor.status_reporter (self s') in
  r = Ret tt
  ∧ events s'
    = (events s
       ++ [EvLog false MsgStartingCheck; EvLog false (MsgCurrentIndex c)]
       ++ (if c <=? END_INDEX cfg
           then [EvLog false (MsgCycleCompleted (START_INDEX cfg) (END_INDEX cfg))]
           else []))%list
  ∧ files s' = files s
  ∧ FileMonitor.found_files (self s') = FileMonitor.found_files (self s)
  ∧ StatusReporter.files_found reporter' = StatusReporter.files_found reporter
  ∧ StatusReporter.files_downloaded reporter'
    = StatusReporter.files_downloaded reporter
  ∧ StatusReporter.checks_performed reporter'
    = StatusReporter.checks_performed reporter + 1.
Proof.
  intros Hseen H c reporter reporter'. subst reporter reporter'.
  rewrite check_new_files_scan_pass in H. unfold scan_pass in H.
  rewrite !(bind_Ret _ _ _ _ _ (print_status_quiet cfg env _ _ s)) in H.
  erewrite !(bind_Ret (gets _)) in H by reflexivity.
  rewrite !(bind_Ret _ _ _ _ _ (print_status_quiet cfg env _ _ _)) in H.
  simpl in H. fold c in H.
  set (s1 := add_event _ (add_event _ s)) in H.
  destruct (scan_range_all_seen (seqZ c (END_INDEX cfg - c + 1)) (0, 0) s1)
    as (s2 & E & Hev & Hf & Hfound & Hrep).
  { intros index ext Hin%elem_of_seqZ Hext. simpl. apply Hseen; [lia | done]. }
  rewrite (bind_Ret _ _ _ _ _ E) in H.
  destruct (c <=? END_INDEX cfg).
  - erewrite (bind_Ret (_ ≫= _)) in H; cycle 1.
    { erewrite bind_Ret by reflexivity. apply print_status_quiet. }
    unfold record_pass, datetime_now in H.
    erewrite bind_Ret in H by reflexivity.
    erewrite bind_Ret in H by reflexivity.
    injection H as <- <-. simpl. rewrite Hev, Hf, Hfound, Hrep. simpl.
    split_and!; try done; [by rewrite <- !app_assoc | lia..].
  - erewrite bind_Ret in H by reflexivity.
    unfold record_pass, datetime_now in H.
    erewrite bind_Ret in H by reflexivity.
    erewrite bind_Ret in H by reflexivity.
    injection H as <- <-. simpl. rewrite Hev, Hf, Hfound, Hrep. simpl.
    split_and!; try done; [by rewrite <- !app_assoc | lia..].
Qed.

End SteadyState.

(** The only candidate of the range 1 to 1 is in the seen-set: the pass
    leaves three log lines and the file as it was. *)
Lemma pass_over_seen_range_is_silent_witness :
  let cfg := config 1 1 ["txt"] in
  let env := world head_present get_file_5 in
  let s := put_current_index 1 after_first_download in
  let run := check_new_files cfg env s in
  run.1 = Ret tt
  ∧ events run.2
    = [EvLog false MsgStartingCheck; EvLog false (MsgCurrentIndex 1);
       EvLog false (MsgCycleCompleted 1 1)]
  ∧ files run.2 = files s.
Proof.
  intros cfg env s run.
  destruct (pass_over_seen_range_is_silent cfg env s run.1 run.2)
    as (Hr & Hev & Hf & _).
  - intros index ext Hindex Hext. simpl in Hindex.
    assert (index = 1) as -> by lia.
    apply list_elem_of_singleton in Hext as ->.
    apply (bool_decide_unpack _). vm_compute. exact I.
  - apply surjective_pairing.
  - split_and!; [exact Hr | exact Hev | exact Hf].
Defined.

(** ** How a download can end *)

Section DownloadOutcomes.

Variable cfg : Config.
Variable env : Env.

Lemma content_length_int_raises response s e s' :
  content_length_int response s = (Raise e, s') → e = ValueError.
Proof.
  unfold content_length_int.
  destruct (content_length response) as [h|]; [destruct (Py.int h)|];
    by intros [= <- <-].
Qed.

Lemma size_in_mb_raises n s e s' :
  size_in_mb n s = (Raise e, s') → e = OverflowError.
Proof.
  unfold size_in_mb. destruct (Py.truediv_mb_overflows n); by intros [= <- <-].
Qed.

Lemma download_speed_raises n t s e s' :
  download_speed n t s = (Raise e, s') →
  e = OverflowError ∨ (e = ZeroDivisionError ∧ t = 0).
Proof.
  unfold download_speed. destruct (Py.float_overflows n).
  - intros [= <- <-]. by left.
  - destruct (t =? 0) eqn:Ht; intros [= <- <-]. right.
    split; [done | by apply Z.eqb_eq].
Qed.

Lemma read_content_raises response s e s' :
  read_content response s = (Raise e, s') → e = RequestException.
Proof. unfold read_content. destruct (content response); by intros [= <- <-]. Qed.

Lemma requests_get_run url s r s' :
  requests_get env url s = (r, s') →
  s' = add_event (EvGet url) s
  ∧ ((∃ response, r = Ret response) ∨ r = Raise RequestException).
Proof.
  unfold requests_get.
  destruct (http_get env (events s) url); intros [= <- <-]; eauto.
Qed.

#[local] Arguments free_path : simpl never.

(** The [try] block of [download_file], by the way it ends. *)
Lemma download_file_try_outcomes url filename s r s' :
  download_file_try cfg env url filename s = (r, s') →
  let unchanged := files s' = files s in
  let created body :=
    ∃ final_path, files s !! final_path = None
                  ∧ files s' = <[final_path := body]> (files s) in
  (r = Ret true ∧ ∃ body, created body)
  ∨ (r = Ret false ∧ unchanged)
  ∨ (r = Raise RequestException ∧ (unchanged ∨ created ""))
  ∨ (r = Raise ValueError ∧ unchanged)
  ∨ (r = Raise OverflowError ∧ (unchanged ∨ ∃ body, created body))
  ∨ (r = Raise ZeroDivisionError ∧ ∃ body, created body)
  ∨ (r = Raise OSError ∧ (unchanged ∨ ∃ part, created part)).
Proof.
  intros H unchanged created. subst unchanged created. cbv beta.
  unfold download_file_try, datetime_now in H.
  destruct (Py.splitext filename) as [base_name ext] eqn:Hsplit.
  destruct (print_status_run cfg env (MsgDownloading filename) false false s)
    as (s1 & E & (Hf1 & _ & _)).
  rewrite (bind_Ret _ _ _ _ _ E) in H. clear E.
  erewrite bind_Ret in H by reflexivity.
  rewrite <- Hf1.
  apply bind_inv in H as [(response & s2 & H1 & H)|[(e & H1 & ->)|[H1 ->]]];
    apply requests_get_run in H1 as [-> Hr];
    [clear Hr|destruct Hr as [[? ?]| [= ->]]; [done|]|by destruct Hr as [[? ?]|?]].
  2:{ do 2 right; left. split; [done|]. by left. }
  change (files (add_event (EvGet url) s1)) with (files s1) in *.
  set (s2 := add_event (EvGet url) s1) in *.
  assert (files s2 = files s1) as Hf2 by done. rewrite <- Hf2. clearbody s2.
  clear Hf2 Hf1.
  destruct (status_code response =? 200).
  - erewrite bind_Ret in H by reflexivity.
    destruct (free_path_enough cfg (files s2) base_name ext
                (Py.path_join (DOWNLOAD_DIR cfg) filename))
      as [[final_path counter] Hfree].
    rewrite Hfree in H.
    apply free_path_spec in Hfree as (Hfree & _).
    assert (∃ name s3, files s3 = files s2 ∧
              (content_length_int response
               ≫= λ file_size, size_in_mb file_size
               ≫= λ _, write_file env final_path response
               ≫= λ _, gets (λ s, now env (events s))
               ≫= λ end_time, download_speed file_size (end_time - now env (events s1))
               ≫= λ _, print_status cfg env
                    (MsgDownloadCompleted name file_size (end_time - now env (events s1)))
                    false true
               ≫= λ _, mret true) s3 = (r, s')) as (name & s3 & Hf3 & H3).
    { destruct (1 <? counter).
      - destruct (print_status_run cfg env (MsgRenamed (Py.basename final_path))
                    false false s2) as (s3 & E & (Hf3 & _ & _)).
        exists (Py.basename final_path), s3. split; [done|].
        assert ((print_status cfg env (MsgRenamed (Py.basename final_path))
                   false false ≫= λ _, mret (Py.basename final_path)) s2
                = (Ret (Py.basename final_path), s3)) as E2
          by (by rewrite (bind_Ret _ _ _ _ _ E)).
        by rewrite (bind_Ret _ _ _ _ _ E2) in H.
      - exists filename, s2. split; [done|].
        by erewrite bind_Ret in H by reflexivity. }
    clear H. rewrite <- Hf3 in *. clear Hf3.
    apply bind_inv in H3 as [(n & s4 & H1 & H)|[(e & H1 & ->)|[H1 ->]]].
    2:{ pose proof (content_length_int_raises _ _ _ _ H1) as ->.
        apply content_length_int_pure in H1 as [-> _]. by do 3 right; left. }
    2:{ by apply content_length_int_pure in H1 as [_ ?]. }
    apply content_length_int_pure in H1 as [-> _].
    apply bind_inv in H as [([] & s4 & H1 & H)|[(e & H1 & ->)|[H1 ->]]].
    2:{ pose proof (size_in_mb_raises _ _ _ _ H1) as ->.
        apply size_in_mb_pure in H1 as [-> _].
        do 4 right; left. split; [done | by left]. }
    2:{ by apply size_in_mb_pure in H1 as [_ ?]. }
    apply size_in_mb_pure in H1 as [-> _].
    apply bind_inv in H as [([] & s4 & H1 & H)|[(e & H1 & ->)|[H1 ->]]];
      apply write_file_effect in H1
        as (_ & _ & [[? Hw]|[[? Hw]|(body & _ & ? & Hw)]]); simplify_eq.
    + erewrite bind_Ret in H by reflexivity.
      apply bind_inv in H as [([] & s5 & H1 & H)|[(e & H1 & ->)|[H1 ->]]].
      2:{ pose proof (download_speed_raises _ _ _ _ _ H1) as [->|[-> _]];
            apply download_speed_pure in H1 as [-> _].
          - do 4 right; left. split; [done|]. right. by exists body, final_path.
          - do 5 right; left. split; [done|]. by exists body, final_path. }
      2:{ by apply download_speed_pure in H1 as [_ ?]. }
      apply download_speed_pure in H1 as [-> _].
      destruct (print_status_run cfg env
                  (MsgDownloadCompleted name n
                     (now env (events s4) - now env (events s1))) false true s4)
        as (s5 & E & (Hf5 & _ & _)).
      rewrite (bind_Ret _ _ _ _ _ E) in H. injection H as <- <-.
      left. split; [done|]. exists body, final_path. split; [done | congruence].
    + do 6 right. split; [done|].
      destruct Hw as [Hw|(body & k & _ & Hw)]; [by left|].
      right. by exists (Py.str_take k body), final_path.
    + do 2 right; left. split; [done|]. right. by exists final_path.
  - apply bind_inv in H as [(text & s3 & H1 & H)|[(e & H1 & ->)|[H1 ->]]].
    2:{ pose proof (read_content_raises _ _ _ _ H1) as ->.
        apply read_content_pure in H1 as [-> _].
        do 2 right; left. split; [done | by left]. }
    2:{ by apply read_content_pure in H1 as [_ ?]. }
    apply read_content_pure in H1 as [-> _].
    destruct (print_status_run cfg env
                (MsgDownloadFailed filename (status_code response)
                   (Py.str_take 200 text)) true true s2)
      as (s3 & E & (Hf3 & _ & _)).
    rewrite (bind_Ret _ _ _ _ _ E) in H. injection H as <- <-.
    right; left. done.
Qed.

(** X11: every way [download_file] can end.  It returns [True] only with a
    new file written under a path that was free.  It returns [False] with
    the files as they were, or with a new empty file (when the body could
    not be read after the file was opened).  It never raises a transport
    error, but it can raise [ValueError] (a [content-length] that [int]
    rejects), with the files as they were; [OverflowError], with the files
    as they were or with a new file; [OSError], with the files as they were
    (the file cannot be opened) or with a new file that holds a part of the
    body (writing or closing failed); and [ZeroDivisionError], only after
    the new file has been written.  The monitor object is never touched. *)
Theorem download_file_outcomes url filename s r s' :
  download_file cfg env url filename s = (r, s') →
  let unchanged := files s' = files s in
  let created body :=
    ∃ final_path, files s !! final_path = None
                  ∧ files s' = <[final_path := body]> (files s) in
  self s' = self s
  ∧ ((r = Ret true ∧ ∃ body, created body)
     ∨ (r = Ret false ∧ (unchanged ∨ created ""))
     ∨ (r = Raise ValueError ∧ unchanged)
     ∨ (r = Raise OverflowError ∧ (unchanged ∨ ∃ body, created body))
     ∨ (r = Raise ZeroDivisionError ∧ ∃ body, created body)
     ∨ (r = Raise OSError ∧ (unchanged ∨ ∃ part, created part))).
Proof.
  intros H unchanged created. subst unchanged created. cbv beta. split.
  { refine (download_file_preserves cfg env self_kept _ _ url filename _ _ _ H);
      done. }
  unfold download_file in H.
  apply try_except_inv in H as [[H Hc]|(e & s1 & H & Hc & Hh)];
    apply download_file_try_outcomes in H; cbv zeta beta in H.
  - destruct H as [H|[H|[[-> H]|[H|[H|[H|H]]]]]]; auto 10.
    + destruct H as [-> H]. right; left. split; [done | by left].
    + by specialize (Hc _ eq_refl).
  - destruct (print_status_run cfg env MsgDownloadError true true s1)
      as (s2 & E & (Hf2 & _ & _)).
    rewrite (bind_Ret _ _ _ _ _ E) in Hh. injection Hh as <- <-.
    rewrite Hf2.
    destruct H as [[? _]|[[? _]|[[_ H]|[[[= ->] _]|[[[= ->] _]|[[[= ->] _]|[[= ->] _]]]]]]];
      try done.
    right; left. done.
Qed.

End DownloadOutcomes.

(** With a clock that stands still the download time is zero: the file is
    written, and the speed computation raises [ZeroDivisionError]. *)
Lemma download_file_outcomes_witness :
  let cfg := config 0 10 ["txt"] in
  let env := frozen get_file_5 in
  let run := download_file cfg env (url_of cfg 5 "txt") "file_5.txt" (boot ∅) in
  run.1 = Raise ZeroDivisionError
  ∧ files run.2 !! "downloaded_files/file_5.txt" = Some "second"
  ∧ self run.2 = self (boot ∅).
Proof.
  intros cfg env run.
  destruct (download_file_outcomes cfg env (url_of cfg 5 "txt") "file_5.txt"
              (boot ∅) run.1 run.2) as [Hself _]; [apply surjective_pairing|].
  split_and!; [vm_compute; reflexivity.. | exact Hself].
Defined.

(** A disk that takes three characters and no more: [download_file] raises
    [OSError], and the new file holds the part that was written. *)
Example download_file_disk_full :
  let cfg := config 0 10 ["txt"] in
  let env := {| now := λ evs, Z.of_nat (List.length evs);
                http_head := λ _ _, Failed; http_get := λ _, get_file_5;
                http_post := λ _ _, Got tt; makedirs := λ _ _, true;
                open_wb := λ _ _, true; write_wb := λ _ _ _, Some 3%nat |} in
  let run := download_file cfg env (url_of cfg 5 "txt") "file_5.txt" (boot ∅) in
  run.1 = Raise OSError
  ∧ files run.2 !! "downloaded_files/file_5.txt" = Some "sec".
Proof. split; vm_compute; reflexivity. Qed.

(** ** A probe whose size cannot be used *)

Section UnusableSize.

Variable cfg : Config.
Variable env : Env.

(** X12: a candidate that is there (the probe is answered with status 200)
    but whose [content-length] header is not an integer literal, or is an
    integer too large for the division by [1024 * 1024], is treated as an
    error of the candidate: [process_file] logs the exception and returns
    [(False, False)], so the pass does not count the file as found; no GET
    request is made, no file is written, and the URL stays out of the
    seen-set. *)
Theorem unusable_size_blocks_download index ext response h s r s' :
  let filename := filename_of index ext in
  let url := url_of cfg index ext in
  let e := match Py.int h with None => ValueError | Some _ => OverflowError end in
  url ∉ FileMonitor.found_files (self s) →
  http_head env (events s ++ [EvLog false (MsgChecking filename)]) url
  = Got response →
  status_code response = 200 →
  content_length response = Some h →
  (∀ n, Py.int h = Some n → Py.truediv_mb_overflows n = true) →
  process_file cfg env index ext s = (r, s') →
  r = Ret (false, false)
  ∧ EvLog true (MsgProcessError filename e) ∈ events s'
  ∧ made is_head s' = S (made is_head s)
  ∧ made is_get s' = made is_get s
  ∧ files s' = files s
  ∧ self s' = self s.
Proof.
  intros filename url e Hin Hhead Hstatus Hlen Hbig H.
  rewrite process_file_unseen in H by done. fold filename url in H.
  set (t := add_event (EvLog false (MsgChecking filename)) s) in H.
  set (t1 := add_event (EvHead url) t).
  assert (process_file_try cfg env url filename t = (Raise e, t1)) as Htry.
  { unfold process_file_try, check_file_exists, try_except, requests_head.
    unfold_M. simpl. rewrite Hhead, Hstatus. simpl.
    unfold content_length_int. rewrite Hlen. subst e.
    destruct (Py.int h) as [n|] eqn:Hint; simpl; [|done].
    unfold size_in_mb. by rewrite (Hbig n eq_refl). }
  destruct (print_status_logs cfg env (MsgProcessError filename e) true true t1)
    as (s3 & E & [k Hk]).
  pose proof (print_status_requests cfg env _ _ _ _ _ _ E) as [Hh Hg].
  destruct (print_status_run cfg env (MsgProcessError filename e) true true t1)
    as (s3' & E' & (Hf & Hs & _)).
  rewrite E in E'. injection E' as <-.
  erewrite (bind_Ret _ _ _ None s3) in H; cycle 1.
  { unfold try_except. rewrite Htry. simpl.
    by erewrite bind_Ret by exact E. }
  injection H as <- <-.
  split_and!; [done| | | |done|done].
  - rewrite Hk, !elem_of_app, !elem_of_cons. auto.
  - rewrite Hh. subst t1 t. rewrite !made_event. simpl. lia.
  - rewrite Hg. subst t1 t. rewrite !made_event. simpl. lia.
Qed.

End UnusableSize.

(** The remote answers every probe with a repeated [Content-Length] field:
    the candidate is logged as an error and not downloaded. *)
Lemma unusable_size_blocks_download_witness :
  let cfg := config 0 2 ["txt"] in
  let env := world head_repeated_length get_file_5 in
  let run := process_file cfg env 1 "txt" (boot ∅) in
  run.1 = Ret (false, false)
  ∧ EvLog true (MsgProcessError "file_1.txt" ValueError) ∈ events run.2
  ∧ made is_head run.2 = 1%nat
  ∧ made is_get run.2 = 0%nat
  ∧ files run.2 = ∅
  ∧ self run.2 = self (boot ∅).
Proof.
  intros cfg env run.
  apply (unusable_size_blocks_download cfg env 1 "txt"
           (served "1048576, 1048576" "") "1048576, 1048576" (boot ∅)
           run.1 run.2).
  - vm_compute. set_solver.
  - reflexivity.
  - reflexivity.
  - reflexivity.
  - intros n Hn. vm_compute in Hn. discriminate.
  - apply surjective_pairing.
Defined.

(** ** The runtime shown in a status report *)

(** X13: the runtime of a status report is the whole number of seconds since
    the reporter was created, cut down to minutes: the hours shown are from
    0 to 23 and the minutes from 0 to 59, days, hours and minutes together
    are at most that number of seconds and less than a minute below it, and
    the days are not negative unless the clock has gone back behind the
    start time (then they are, while hours and minutes stay in their
    ranges).  The five other fields are the reporter's, unchanged. *)
Theorem status_report_runtime (self : StatusReporter.t) (clock : Z) :
  ∃ days hours minutes,
    StatusReporter.get_status_report self clock
    = MsgStatusReport days hours minutes
        (StatusReporter.checks_performed self) (StatusReporter.files_found self)
        (StatusReporter.files_downloaded self) (StatusReporter.current_index self)
        (StatusReporter.last_check_time self)
    ∧ 0 ≤ hours < 24
    ∧ 0 ≤ minutes < 60
    ∧ (let seconds := (clock - StatusReporter.start_time self) `div` 1000000 in
       let shown := days * 86400 + hours * 3600 + minutes * 60 in
       shown ≤ seconds < shown + 60)
    ∧ (0 ≤ days ↔ StatusReporter.start_time self ≤ clock).
Proof.
  unfold StatusReporter.get_status_report. cbv zeta.
  eexists _, _, _. split; [reflexivity|].
  set (runtime := (clock - StatusReporter.start_time self) `div` 1000000).
  assert (0 ≤ runtime ↔ StatusReporter.start_time self ≤ clock) as Hsign.
  { subst runtime.
    pose proof (Z.div_mod (clock - StatusReporter.start_time self) 1000000
                  ltac:(lia)).
    pose proof (Z.mod_pos_bound (clock - StatusReporter.start_time self) 1000000
                  ltac:(lia)).
    lia. }
  clearbody runtime.
  pose proof (Z.div_mod runtime 86400 ltac:(lia)) as Hday.
  pose proof (Z.mod_pos_bound runtime 86400 ltac:(lia)) as Hsec.
  set (seconds := runtime `mod` 86400) in *.
  set (days := runtime `div` 86400) in *.
  pose proof (Z.div_mod seconds 3600 ltac:(lia)) as Hhour.
  pose proof (Z.mod_pos_bound seconds 3600 ltac:(lia)) as Hrest.
  set (rest := seconds `mod` 3600) in *.
  set (hours := seconds `div` 3600) in *.
  pose proof (Z.div_mod rest 60 ltac:(lia)) as Hmin.
  pose proof (Z.mod_pos_bound rest 60 ltac:(lia)) as Hlast.
  set (minutes := rest `div` 60) in *.
  clearbody seconds days rest hours minutes.
  split_and!; lia.
Qed.

(** ** The program as a whole *)

Section Main.

Variable cfg : Config.
Variable env : Env.


Lemma validate_config_rejects s :
  token_set (BOT_TOKEN cfg) = false
  ∨ CHAT_ID cfg = 0
  ∨ token_set (MONITOR_TOKEN cfg) = false
  ∨ END_INDEX cfg < START_INDEX cfg
  ∨ SUPPORTED_EXTENSIONS cfg = [] →
  validate_config cfg s = (Raise ValueError, s).
Proof.
  unfold validate_config. intros Hbad.
  destruct (token_set (BOT_TOKEN cfg)); simpl; [|done].
  destruct (CHAT_ID cfg =? 0) eqn:Hchat; [done|]. apply Z.eqb_neq in Hchat.
  destruct (token_set (MONITOR_TOKEN cfg)); simpl; [|done].
  destruct (END_INDEX cfg <? START_INDEX cfg) eqn:Hrange; [done|].
  apply Z.ltb_ge in Hrange.
  destruct (SUPPORTED_EXTENSIONS cfg); [done|].
  destruct Hbad as [?|[?|[?|[?|?]]]]; done || lia.
Qed.

(** What a notification adds to the record of events. *)
Lemma send_telegram_message_events message s r s' :
  send_telegram_message cfg env message s = (r, s') →
  r = Ret tt ∧ files s' = files s ∧ self s' = self s
  ∧ ∃ notify,
      events s' = (events s ++ notify)%list
      ∧ if CHAT_ID cfg =? 0 then notify = [EvLog true MsgSetChatId]
        else notify = [EvPost message]
             ∨ notify = [EvPost message; EvLog true MsgSendFailed].
Proof.
  unfold send_telegram_message, try_except, requests_post, logging.
  unfold_M. destruct (CHAT_ID cfg =? 0).
  - intros [= <- <-]. split_and!; try done. by eexists.
  - destruct (http_post env (events s) message) as [[]|]; simpl;
      intros [= <- <-]; (split_and!; try done).
    + exists [EvPost message]. split; [done | by left].
    + exists [EvPost message; EvLog true MsgSendFailed].
      split; [simpl; by rewrite <- app_assoc | by right].
Qed.


(** X14: with a configuration that [validate_config] rejects (an unset
    [BOT_TOKEN] or [MONITOR_TOKEN], a [CHAT_ID] of 0, [START_INDEX] above
    [END_INDEX], or no extension), [main] does not raise: it logs the error,
    tries to notify it, writes the closing log line and returns.  No monitor
    is created: nothing is probed and no file is written.  When the reason
    is a [CHAT_ID] of 0, the notification is itself replaced by an error
    line in the log. *)
Theorem main_rejects_configuration jobs s r s' :
  token_set (BOT_TOKEN cfg) = false
  ∨ CHAT_ID cfg = 0
  ∨ token_set (MONITOR_TOKEN cfg) = false
  ∨ END_INDEX cfg < START_INDEX cfg
  ∨ SUPPORTED_EXTENSIONS cfg = [] →
  main cfg env jobs s = (r, s') →
  r = Ret tt
  ∧ files s' = files s
  ∧ self s' = self s
  ∧ ∃ notify,
      events s'
      = (events s ++ [EvLog true (MsgSystemError ValueError)] ++ notify
         ++ [EvLog false MsgStopped])%list
      ∧ if CHAT_ID cfg =? 0 then notify = [EvLog true MsgSetChatId]
        else notify = [EvPost (MsgSystemError ValueError)]
             ∨ notify = [EvPost (MsgSystemError ValueError);
                         EvLog true MsgSendFailed].
Proof.
  intros Hbad H. unfold main in H.
  pose proof (validate_config_rejects s Hbad) as Hv.
  set (s1 := add_event (EvLog true (MsgSystemError ValueError)) s).
  destruct (send_telegram_message cfg env (MsgSystemError ValueError) s1)
    as [r2 s2] eqn:E.
  pose proof (send_telegram_message_events _ _ _ _ E)
    as (-> & Hf & Hs & notify & Hev & Hnotify).
  erewrite (bind_Ret _ _ _ tt s2) in H; cycle 1.
  { unfold try_except. rewrite (bind_Raise _ _ _ _ _ Hv). simpl.
    by erewrite bind_Ret by reflexivity. }
  injection H as <- <-. simpl.
  split_and!; [done|done|done|]. exists notify. split; [|done].
  rewrite Hev. simpl. by rewrite <- !app_assoc.
Qed.


End Main.

(** A range given upside down: one error line, the notification, the
    closing line. *)
Lemma main_rejects_configuration_witness :
  let cfg := config 10 5 ["txt"] in
  let env := world head_present get_file_5 in
  let run := main cfg env [JobCheck] (boot ∅) in
  run.1 = Ret tt
  ∧ files run.2 = ∅
  ∧ self run.2 = self (boot ∅)
  ∧ events run.2
    = [EvLog true (MsgSystemError ValueError);
       EvPost (MsgSystemError ValueError);
       EvLog false MsgStopped].
Proof.
  intros cfg env run.
  destruct (main_rejects_configuration cfg env [JobCheck] (boot ∅) run.1 run.2)
    as (Hr & Hf & Hs & _).
  - right; right; right; left. vm_compute. reflexivity.
  - apply surjective_pairing.
  - split_and!; [exact Hr | exact Hf | exact Hs | vm_compute; reflexivity].
Defined.

(** An empty [DOWNLOAD_DIR] passes [validate_config], and the constructor
    then raises [OSError] from [os.makedirs]: no pass is run, and [main]
    logs the error and ends. *)
Example empty_download_dir :
  let cfg := {| BOT_TOKEN := Some "bot-token"; CHAT_ID := 42;
                MONITOR_TOKEN := Some "monitor-token";
                DOWNLOAD_DIR := ""; LOG_DIR := "logs";
                CHECK_INTERVAL := 5; REPORT_INTERVAL := 6;
                START_INDEX := 0; END_INDEX := 2;
                SUPPORTED_EXTENSIONS := ["txt"] |} in
  let env := world head_present get_file_5 in
  (validate_config cfg (boot ∅)).1 = Ret tt
  ∧ (FileMonitor_init cfg env (boot ∅)).1 = Raise OSError
  ∧ (session cfg env [JobCheck] (boot ∅)).1 = Raise OSError
  ∧ made is_head (session cfg env [JobCheck] (boot ∅)).2 = 0%nat
  ∧ main cfg env [JobCheck] (boot ∅)
    = (Ret tt,
       {| events := [EvLog false MsgConfigValid; EvMakedirs "";
                     EvLog true (MsgSystemError OSError);
                     EvPost (MsgSystemError OSError);
                     EvLog false MsgStopped];
          files := ∅;
          self := {| FileMonitor.current_index := 0;
                     FileMonitor.found_files := ∅;
                     FileMonitor.status_reporter := StatusReporter.init 1 |} |}).
Proof. split_and!; vm_compute; reflexivity. Qed.

(** ** The configuration read from the environment *)

Lemma str_split_not_empty sep s : str_split sep s ≠ [].
Proof.
  destruct s as [|a s]; simpl; [done|].
  destruct (Ascii.eqb a sep); [done|]. by destruct (str_split sep s).
Qed.

Lemma str_split_no_sep sep s piece :
  piece ∈ str_split sep s → has_char sep piece = false.
Proof.
  revert piece. induction s as [|a s IH]; intros piece; simpl.
  - by intros ->%list_elem_of_singleton.
  - destruct (Ascii.eqb a sep) eqn:Ha.
    + intros [->|Hin]%elem_of_cons; [done | by apply IH].
    + destruct (str_split sep s) as [|p ps] eqn:Hs.
      * intros ->%list_elem_of_singleton. simpl. by rewrite Ha.
      * intros [->|Hin]%elem_of_cons.
        -- simpl. rewrite Ha. apply IH. left.
        -- apply IH. by right.
Qed.

Lemma str_join_split sep s : str_join (String sep "") (str_split sep s) = s.
Proof.
  induction s as [|a s IH]; simpl; [done|].
  destruct (Ascii.eqb a sep) eqn:Ha.
  - apply Ascii.eqb_eq in Ha as ->.
    pose proof (str_split_not_empty sep s).
    destruct (str_split sep s) as [|p ps] eqn:Hs; [done|].
    change (str_join (String sep "") ("" :: p :: ps))
      with (String sep (str_join (String sep "") (p :: ps))).
    by rewrite IH.
  - pose proof (str_split_not_empty sep s).
    destruct (str_split sep s) as [|p ps] eqn:Hs; [done|].
    destruct ps as [|q ps]; simpl in *; [by rewrite IH|].
    rewrite append_cons. by rewrite IH.
Qed.

(** X16: in a configuration read from the environment the list of
    extensions is never empty (the pieces of a split string are at least
    one, so an empty [SUPPORTED_EXTENSIONS] gives the single extension
    [""]), no extension contains a comma, and the extensions joined by
    commas are the variable as it was set.  The last check of
    [validate_config] can therefore never fail: such a configuration is
    accepted exactly when both tokens are non-empty, [CHAT_ID] is not 0 and
    [START_INDEX <= END_INDEX]. *)
Theorem read_environment_extensions environ cfg :
  read_environment environ = Some cfg →
  SUPPORTED_EXTENSIONS cfg ≠ []
  ∧ (∀ ext, ext ∈ SUPPORTED_EXTENSIONS cfg → has_char "," ext = false)
  ∧ str_join "," (SUPPORTED_EXTENSIONS cfg)
    = default "txt,zip" (environ !! "SUPPORTED_EXTENSIONS")
  ∧ (environ !! "SUPPORTED_EXTENSIONS" = Some "" →
     SUPPORTED_EXTENSIONS cfg = [""])
  ∧ (∀ s, validate_config cfg s
          = (Ret tt, add_event (EvLog false MsgConfigValid) s)
          ↔ token_set (BOT_TOKEN cfg) = true
            ∧ CHAT_ID cfg ≠ 0
            ∧ token_set (MONITOR_TOKEN cfg) = true
            ∧ START_INDEX cfg ≤ END_INDEX cfg).
Proof.
  unfold read_environment. intros H.
  destruct (getenv_int environ "CHAT_ID" 0) as [chat_id|]; [|done].
  destruct (getenv_int environ "CHECK_INTERVAL" 5) as [check_interval|]; [|done].
  destruct (getenv_int environ "REPORT_INTERVAL" 6) as [report_interval|]; [|done].
  destruct (getenv_int environ "START_INDEX" 0) as [start_index|]; [|done].
  destruct (getenv_int environ "END_INDEX" 100) as [end_index|]; [|done].
  simpl in H. injection H as <-. cbn [SUPPORTED_EXTENSIONS].
  set (value := default "txt,zip" (environ !! "SUPPORTED_EXTENSIONS")).
  split_and!.
  - apply str_split_not_empty.
  - intros ext. apply str_split_no_sep.
  - apply str_join_split.
  - intros Hset. subst value. by rewrite Hset.
  - intros s. unfold validate_config.
    cbn [BOT_TOKEN CHAT_ID MONITOR_TOKEN START_INDEX END_INDEX
         SUPPORTED_EXTENSIONS].
    pose proof (str_split_not_empty "," value) as Hne.
    destruct (token_set (environ !! "BOT_TOKEN")); simpl;
      [|split; [done | by intros [? _]]].
    destruct (chat_id =? 0) eqn:Hchat;
      [apply Z.eqb_eq in Hchat | apply Z.eqb_neq in Hchat];
      [split; [done | by intros (_ & ? & _)]|].
    destruct (token_set (environ !! "MONITOR_TOKEN")); simpl;
      [|split; [done | by intros (_ & _ & ? & _)]].
    destruct (end_index <? start_index) eqn:Hrange;
      [apply Z.ltb_lt in Hrange | apply Z.ltb_ge in Hrange].
    { split; [done | intros (_ & _ & _ & ?); lia]. }
    destruct (str_split "," value); [done|]. done.
Qed.

(** Only [SUPPORTED_EXTENSIONS] is set, to nothing: one extension, the
    empty one, and the defaults for the rest. *)
Lemma read_environment_extensions_witness :
  let environ : gmap string string := {[ "SUPPORTED_EXTENSIONS" := "" ]} in
  ∃ cfg, read_environment environ = Some cfg
         ∧ SUPPORTED_EXTENSIONS cfg = [""]
         ∧ CHAT_ID cfg = 0 ∧ START_INDEX cfg = 0 ∧ END_INDEX cfg = 100.
Proof.
  intros environ.
  destruct (read_environment environ) as [cfg|] eqn:E; [|by vm_compute in E].
  exists cfg.
  destruct (read_environment_extensions environ cfg E) as (_ & _ & _ & Hone & _).
  split_and!; [done | by apply Hone | ..];
    vm_compute in E; by injection E as <-.
Defined.

(** ** A pass leaves no candidate out *)

Lemma probed_since_after url s s1 s' :
  events_grow s s1 → probed_since url s1 s' → probed_since url s s'.
Proof.
  intros [k1 H1] (k & H & Hin). exists (k1 ++ k)%list.
  split; [by rewrite H, H1, app_assoc | rewrite elem_of_app; by right].
Qed.

Lemma probed_since_before url s s1 s' :
  probed_since url s s1 → events_grow s1 s' → probed_since url s s'.
Proof.
  intros (k & H & Hin) [k1 H1]. exists (k ++ k1)%list.
  split; [by rewrite H1, H, app_assoc | rewrite elem_of_app; by left].
Qed.

Section Coverage.

Variable cfg : Config.
Variable env : Env.

Lemma for_ext_events_grow exts counts :
  preserves events_grow (for_ext cfg env exts counts).
Proof.
  apply for_ext_preserves; [apply _ | apply events_grow_event | |].
  - apply events_grow_download.
  - intros url s. unfold events_grow. done.
Qed.

(** An unseen candidate is probed at once. *)
Lemma process_file_probed_since index ext s r s' :
  url_of cfg index ext ∉ FileMonitor.found_files (self s) →
  process_file cfg env index ext s = (r, s') →
  probed_since (url_of cfg index ext) s s'.
Proof.
  intros Hin H. apply process_file_probes in H as [k Hk]; [|done].
  exists ([EvLog false (MsgChecking (filename_of index ext));
           EvHead (url_of cfg index ext)] ++ k)%list.
  split; [by rewrite Hk, <- app_assoc|].
  rewrite elem_of_app, !elem_of_cons. auto.
Qed.

(** What [process_file] adds to the seen-set, it has probed. *)
Lemma process_file_new_seen index ext url s r s' :
  process_file cfg env index ext s = (r, s') →
  url ∉ FileMonitor.found_files (self s) →
  url ∈ FileMonitor.found_files (self s') →
  probed_since url s s'.
Proof.
  intros H Hout Hin.
  destruct (process_file_cases cfg env _ _ _ _ _ H)
    as (_ & _ & f & d & _ & _ & [[Hsame _]|(_ & _ & Hnew & Hadd & _)]).
  - by rewrite Hsame in Hin.
  - rewrite Hadd in Hin. apply elem_of_union in Hin as [Hin|Hin]; [|done].
    apply elem_of_singleton in Hin as ->.
    by eapply process_file_probed_since.
Qed.

Lemma for_ext_coverage exts counts s r s' ext :
  for_ext cfg env exts counts s = (r, s') →
  ext ∈ exts →
  url_of cfg (FileMonitor.current_index (self s)) ext
  ∉ FileMonitor.found_files (self s) →
  probed_since (url_of cfg (FileMonitor.current_index (self s)) ext) s s'.
Proof.
  revert counts s. induction exts as [|ext0 exts IH]; intros counts s H Hext Hout;
    simpl in H; [by apply elem_of_nil in Hext|].
  erewrite bind_Ret in H by reflexivity.
  set (index := FileMonitor.current_index (self s)) in *.
  apply bind_inv in H as [([f d] & s1 & H1 & H)|[(e & H1 & _)|[H1 _]]];
    [|destruct (process_file_returns cfg env index ext0 s) as [a Ha];
      rewrite H1 in Ha; done..].
  pose proof (process_file_events_grow cfg env _ _ _ _ _ H1) as Hgrow1.
  pose proof (for_ext_events_grow _ _ _ _ _ H) as Hgrow.
  pose proof (process_file_cases cfg env _ _ _ _ _ H1) as (Hcur & _).
  destruct (decide (url_of cfg index ext ∈ FileMonitor.found_files (self s1)))
    as [Hin1|Hout1].
  - eapply probed_since_before; [|exact Hgrow].
    by eapply process_file_new_seen.
  - apply elem_of_cons in Hext as [->|Hext].
    + eapply probed_since_before; [|exact Hgrow].
      by eapply process_file_probed_since.
    + eapply probed_since_after; [exact Hgrow1|].
      fold index in Hcur. rewrite <- Hcur in Hout1 |- *.
      eapply IH; [exact H | done | done].
Qed.

(** Through a sweep, the seen-set gets only URLs that were probed. *)
Lemma for_ext_new_seen exts counts url s r s' :
  for_ext cfg env exts counts s = (r, s') →
  url ∉ FileMonitor.found_files (self s) →
  url ∈ FileMonitor.found_files (self s') →
  probed_since url s s'.
Proof.
  revert counts s. induction exts as [|ext0 exts IH]; intros counts s H Hout Hin;
    simpl in H.
  - injection H as _ <-. done.
  - erewrite bind_Ret in H by reflexivity.
    set (index := FileMonitor.current_index (self s)) in *.
    apply bind_inv in H as [([f d] & s1 & H1 & H)|[(e & H1 & _)|[H1 _]]];
      [|destruct (process_file_returns cfg env index ext0 s) as [a Ha];
        rewrite H1 in Ha; done..].
    pose proof (process_file_events_grow cfg env _ _ _ _ _ H1) as Hgrow1.
    pose proof (for_ext_events_grow _ _ _ _ _ H) as Hgrow.
    destruct (decide (url ∈ FileMonitor.found_files (self s1))) as [Hin1|Hout1].
    + eapply probed_since_before; [|exact Hgrow].
      by eapply process_file_new_seen.
    + eapply probed_since_after; [exact Hgrow1|]. by eapply IH.
Qed.

Lemma scan_range_events_grow indices counts :
  preserves events_grow (scan_range cfg env indices counts).
Proof.
  revert counts. induction indices as [|i indices IH]; intros counts; simpl.
  - preserves_step.
  - preserves_step;
      [apply preserves_modify; intros ?; unfold events_grow; simpl; reflexivity|].
    preserves_step; [apply for_ext_events_grow | apply IH].
Qed.

Lemma scan_range_coverage indices counts s r s' index ext :
  scan_range cfg env indices counts s = (r, s') →
  index ∈ indices → ext ∈ SUPPORTED_EXTENSIONS cfg →
  url_of cfg index ext ∉ FileMonitor.found_files (self s) →
  probed_since (url_of cfg index ext) s s'.
Proof.
  revert counts s. induction indices as [|i indices IH];
    intros counts s H Hindex Hext Hout; simpl in H;
    [by apply elem_of_nil in Hindex|].
  erewrite bind_Ret in H by reflexivity.
  set (s0 := put_current_index i s) in *.
  assert (events_grow s s0) as Hgrow0
    by (unfold events_grow; simpl; reflexivity).
  apply bind_inv in H as [(counts1 & s1 & H1 & H)|[(e & H1 & _)|[H1 _]]];
    [|destruct (for_ext_returns cfg env (SUPPORTED_EXTENSIONS cfg) counts s0)
        as [a Ha]; rewrite H1 in Ha; done..].
  pose proof (for_ext_events_grow _ _ _ _ _ H1) as Hgrow1.
  pose proof (scan_range_events_grow _ _ _ _ _ H) as Hgrow.
  eapply probed_since_after; [exact Hgrow0|].
  destruct (decide (url_of cfg index ext ∈ FileMonitor.found_files (self s1)))
    as [Hin1|Hout1].
  - eapply probed_since_before; [|exact Hgrow].
    by eapply for_ext_new_seen.
  - apply elem_of_cons in Hindex as [->|Hindex].
    + eapply probed_since_before; [|exact Hgrow].
      by apply (for_ext_coverage _ _ s0 _ _ ext H1).
    + eapply probed_since_after; [exact Hgrow1|]. by eapply IH.
Qed.

(** X17: a scan pass leaves no candidate out: for every index from the
    cursor to [END_INDEX] and every supported extension, a candidate whose
    URL is not in the seen-set when the pass starts gets a HEAD request
    during the pass. *)
Theorem pass_probes_every_unseen_candidate index ext s r s' :
  check_new_files cfg env s = (r, s') →
  FileMonitor.current_index (self s) ≤ index ≤ END_INDEX cfg →
  ext ∈ SUPPORTED_EXTENSIONS cfg →
  url_of cfg index ext ∉ FileMonitor.found_files (self s) →
  ∃ during,
    events s' = (events s ++ during)%list
    ∧ EvHead (url_of cfg index ext) ∈ during.
Proof.
  intros H Hindex Hext Hout.
  change (probed_since (url_of cfg index ext) s s').
  rewrite check_new_files_scan_pass in H. unfold scan_pass in H.
  rewrite !(bind_Ret _ _ _ _ _ (print_status_quiet cfg env _ _ s)) in H.
  erewrite !(bind_Ret (gets _)) in H by reflexivity.
  rewrite !(bind_Ret _ _ _ _ _ (print_status_quiet cfg env _ _ _)) in H.
  simpl in H.
  set (c := FileMonitor.current_index (self s)) in *.
  set (s1 := add_event _ (add_event _ s)) in H.
  assert (events_grow s s1) as Hgrow1.
  { subst s1. etrans; apply events_grow_event. }
  destruct (scan_range_returns cfg env (seqZ c (END_INDEX cfg - c + 1)) (0, 0) s1)
    as [counts Hr].
  destruct (scan_range cfg env (seqZ c (END_INDEX cfg - c + 1)) (0, 0) s1)
    as [r2 s2] eqn:E. simpl in Hr. subst r2.
  rewrite (bind_Ret _ _ _ _ _ E) in H.
  eapply probed_since_after; [exact Hgrow1|].
  eapply probed_since_before.
  - eapply (scan_range_coverage _ _ s1 _ _ index ext E); [|done|done].
    apply elem_of_seqZ. lia.
  - assert (preserves events_grow
              ((if c <=? END_INDEX cfg
                then modify (put_current_index (START_INDEX cfg));;
                     print_status cfg env
                       (MsgCycleCompleted (START_INDEX cfg) (END_INDEX cfg))
                       false false
                else mret ());; record_pass env counts)) as Hrest.
    { unfold record_pass, datetime_now.
      repeat first
        [ apply preserves_modify; intros ?; unfold events_grow; simpl; reflexivity
        | apply print_status_preserves;
            first [exact events_grow_event | apply _]
        | preserves_step
        | match goal with |- PreOrder _ => apply _ end ]. }
    by apply (Hrest _ _ _ H).
Qed.

End Coverage.

(** In the first pass over the indices 0 to 2 the candidate [file_2.txt] is
    probed. *)
Lemma pass_probes_every_unseen_candidate_witness :
  let cfg := config 0 2 ["txt"] in
  let env := world only_file_1 get_file_5 in
  let run := check_new_files cfg env (boot ∅) in
  ∃ during,
    events run.2 = during ∧ EvHead (url_of cfg 2 "txt") ∈ during.
Proof.
  intros cfg env run.
  destruct (pass_probes_every_unseen_candidate cfg env 2 "txt" (boot ∅)
              run.1 run.2) as (during & Hev & Hin).
  - apply surjective_pairing.
  - simpl. lia.
  - left.
  - vm_compute. set_solver.
  - exists during. split; [exact Hev | exact Hin].
Defined.

(** ** A file found is announced *)

Section Announce.

Variable cfg : Config.
Variable env : Env.

Lemma check_file_exists_events_grow url :
  preserves events_grow (check_file_exists cfg env url).
Proof. apply check_file_exists_preserves; [apply _ | apply events_grow_event]. Qed.

(** The events of a download: the GET request for the URL is among them. *)
Lemma download_file_new_events url filename s r s' :
  download_file cfg env url filename s = (r, s') →
  ∃ k, events s' = (events s ++ k)%list ∧ EvGet url ∈ k.
Proof.
  intros H.
  pose proof (events_grow_download cfg env _ _ _ _ _ H) as [k Hk].
  exists k. split; [done|].
  apply (download_file_count cfg env (is_get_to url)) in H; [|done..].
  unfold made in H. rewrite Hk, count_kind_app in H. simpl in H.
  rewrite bool_decide_eq_true_2 in H by done.
  destruct (count_kind_pos (is_get_to url) k) as (e & Hin & He); [lia|].
  destruct e; simpl in He; try done.
  apply bool_decide_eq_true in He as ->. done.
Qed.

(** X18: a file that [process_file] reports as found has been announced
    before its download began: the events of the call split in two parts,
    the first with the HEAD request and the notification of the new file
    (with its name and a size) and without any GET request, the second with
    the GET request for the URL.  With a [CHAT_ID] of 0 an
    error line in the log stands for the notification. *)
Theorem found_file_is_announced index ext d s s' :
  process_file cfg env index ext s = (Ret (true, d), s') →
  ∃ size before after,
    events s' = (events s ++ before ++ after)%list
    ∧ EvHead (url_of cfg index ext) ∈ before
    ∧ (if CHAT_ID cfg =? 0 then EvLog true MsgSetChatId
       else EvPost (MsgNewFile (filename_of index ext) size)) ∈ before
    ∧ count_kind is_get before = 0%nat
    ∧ EvGet (url_of cfg index ext) ∈ after.
Proof.
  intros H.
  destruct (decide (url_of cfg index ext ∈ FileMonitor.found_files (self s)))
    as [Hin|Hin]; [by rewrite process_file_seen in H by done|].
  rewrite process_file_unseen in H by done.
  set (filename := filename_of index ext) in *.
  set (url := url_of cfg index ext) in *.
  set (t := add_event (EvLog false (MsgChecking filename)) s) in H.
  apply bind_inv in H as [(o & s1 & H1 & H)|[(e & H1 & ?)|[H1 ?]]]; [|done..].
  injection H as Ho <-.
  apply try_except_inv in H1 as [[H1 _]|(e & s2 & _ & _ & Hh)]; cycle 1.
  { apply bind_inv in Hh as [([] & s3 & H2 & Hh)|[(e' & H2 & ?)|[H2 ?]]];
      [|done..].
    injection Hh as <- _. done. }
  destruct o as [[f d']|]; [|done]. simpl in Ho. injection Ho as -> ->.
  unfold process_file_try in H1.
  apply bind_inv in H1 as [([exists_ size] & t1 & Hprobe & H)|[(e & _ & ?)|[_ ?]]];
    [|done..].
  destruct exists_; [|done].
  apply bind_inv in H as [([] & t2 & Hsize & H)|[(e & _ & ?)|[_ ?]]]; [|done..].
  apply size_in_mb_pure in Hsize as [-> _].
  apply bind_inv in H as [([] & t3 & Hsend & H)|[(e & _ & ?)|[_ ?]]]; [|done..].
  apply bind_inv in H as [(ok & t4 & Hget & H)|[(e & _ & ?)|[_ ?]]]; [|done..].
  assert (events s1 = events t4) as Hlast.
  { destruct ok.
    - erewrite bind_Ret in H by reflexivity. by injection H as _ <-.
    - by injection H as _ <-. }
  pose proof (check_file_exists_probes cfg env _ _ _ _ Hprobe) as [k1 Hk1].
  pose proof (check_file_exists_heads cfg env _ _ _ _ Hprobe) as [_ Hg1].
  pose proof (send_telegram_message_events cfg env _ _ _ _ Hsend)
    as (_ & _ & _ & notify & Hk2 & Hnotify).
  pose proof (send_telegram_message_requests cfg env _ _ _ _ Hsend) as [_ Hg2].
  destruct (download_file_new_events _ _ _ _ _ Hget) as (after & Hk3 & Hafter).
  exists size,
    ([EvLog false (MsgChecking filename)] ++ [EvHead url] ++ k1 ++ notify)%list,
    after.
  split_and!.
  - rewrite Hlast, Hk3, Hk2, Hk1. subst t. simpl.
    by rewrite <- !app_assoc.
  - rewrite !elem_of_app, !elem_of_cons. auto.
  - rewrite !elem_of_app.
    destruct (CHAT_ID cfg =? 0); [subst notify|destruct Hnotify as [-> | ->]];
      rewrite !elem_of_cons; auto.
  - unfold made in Hg1, Hg2. rewrite Hk2, Hk1 in Hg2. rewrite Hk1 in Hg1.
    subst t. simpl in Hg1, Hg2.
    rewrite !count_kind_app in *. simpl in *. lia.
  - done.
Qed.

End Announce.

(** The file served in the scenario: announced with the size of the probe,
    then fetched. *)
Lemma found_file_is_announced_witness :
  let cfg := config 0 2 ["txt"] in
  let env := world only_file_1 get_file_5 in
  let run := process_file cfg env 1 "txt" (boot ∅) in
  ∃ size before after,
    events run.2 = (before ++ after)%list
    ∧ EvHead (url_of cfg 1 "txt") ∈ before
    ∧ EvPost (MsgNewFile "file_1.txt" size) ∈ before
    ∧ count_kind is_get before = 0%nat
    ∧ EvGet (url_of cfg 1 "txt") ∈ after.
Proof.
  intros cfg env run.
  apply (found_file_is_announced cfg env 1 "txt" true (boot ∅) run.2).
  assert (run.1 = Ret (true, true)) as Hr by (vm_compute; reflexivity).
  rewrite <- Hr. apply surjective_pairing.
Defined.

(** ** The result of a download is reported *)

Section Reports.

Variable cfg : Config.
Variable env : Env.

Lemma reported_later is_error message k new :
  reported cfg is_error message new → reported cfg is_error message (k ++ new).
Proof.
  intros [Hlog Hpost]. split; [|intros Hchat]; rewrite elem_of_app; auto.
Qed.

(** A status line with notification. *)
Lemma print_status_reported message is_error s r s' :
  print_status cfg env message is_error true s = (r, s') →
  r = Ret tt
  ∧ ∃ new, events s' = (events s ++ new)%list
           ∧ reported cfg is_error message new.
Proof.
  unfold print_status, logging. intros H.
  erewrite bind_Ret in H by reflexivity. simpl in H.
  destruct (CHAT_ID cfg =? 0) eqn:Hchat; simpl in H.
  - injection H as <- <-. split; [done|].
    exists [EvLog is_error message]. split; [done|]. split; [left|].
    apply Z.eqb_eq in Hchat. done.
  - apply send_telegram_message_events in H
      as (-> & _ & _ & notify & Hev & Hnotify).
    split; [done|]. rewrite Hchat in Hnotify.
    exists (EvLog is_error message :: notify). split.
    + rewrite Hev. simpl. by rewrite <- app_assoc.
    + split; [left|]. intros _. right.
      destruct Hnotify as [-> | ->]; left.
Qed.

Lemma download_file_try_events_grow url filename :
  preserves events_grow (download_file_try cfg env url filename).
Proof.
  unfold download_file_try, datetime_now.
  repeat first
    [ apply requests_get_preserves; exact events_grow_event
    | apply print_status_preserves; first [exact events_grow_event | apply _]
    | apply content_length_int_preserves | apply size_in_mb_preserves
    | apply download_speed_preserves
    | apply write_file_preserves;
        first [ exact events_grow_event | apply _
              | intros; unfold events_grow; simpl; reflexivity ]
    | apply read_content_preserves
    | preserves_step
    | match goal with |- PreOrder _ => apply _ end ].
Qed.

#[local] Arguments free_path : simpl never.

(** The [try] block of [download_file] returns only from one of its two
    last statements, after the report. *)
Lemma download_file_try_reports url filename s b s' :
  download_file_try cfg env url filename s = (Ret b, s') →
  ∃ new, events s' = (events s ++ new)%list
         ∧ if b : bool
           then ∃ name size time,
                  reported cfg false (MsgDownloadCompleted name size time) new
           else ∃ status excerpt,
                  status ≠ 200
                  ∧ reported cfg true
                      (MsgDownloadFailed filename status excerpt) new.
Proof.
  intros H.
  assert (∀ k s1 (P : list Event → Prop),
            events s1 = (events s ++ k)%list →
            (∃ new, events s' = (events s1 ++ new)%list ∧ P (k ++ new)%list) →
            ∃ new, events s' = (events s ++ new)%list ∧ P new) as Hshift.
  { intros k s1 P Hk (new & Hnew & HP). exists (k ++ new)%list.
    split; [by rewrite Hnew, Hk, app_assoc | done]. }
  unfold download_file_try, datetime_now in H.
  destruct (Py.splitext filename) as [base_name ext].
  rewrite (bind_Ret _ _ _ _ _ (print_status_quiet cfg env _ _ s)) in H.
  erewrite bind_Ret in H by reflexivity.
  set (s1 := add_event (EvLog false (MsgDownloading filename)) s) in H.
  apply bind_inv in H as [(response & s2 & H1 & H)|[(e & _ & ?)|[_ ?]]];
    [|done..].
  apply requests_get_run in H1 as [-> _].
  set (s2 := add_event (EvGet url) s1) in H.
  assert (events_grow s s2) as Hgrow2.
  { subst s2 s1. etrans; apply events_grow_event. }
  destruct (status_code response =? 200) eqn:Hstatus.
  - erewrite bind_Ret in H by reflexivity.
    destruct (free_path cfg (S (size (files s2))) (files s2) base_name ext
                (Py.path_join (DOWNLOAD_DIR cfg) filename) 1)
      as [[final_path counter]|]; [|done].
    apply bind_inv in H as [(name & s3 & H1 & H)|[(e & _ & ?)|[_ ?]]]; [|done..].
    assert (events_grow s2 s3) as Hgrow3.
    { destruct (1 <? counter).
      - rewrite (bind_Ret _ _ _ _ _ (print_status_quiet cfg env _ _ s2)) in H1.
        injection H1 as _ <-. apply events_grow_event.
      - by injection H1 as _ <-. }
    apply bind_inv in H as [(n & s4 & H2 & H)|[(e & _ & ?)|[_ ?]]]; [|done..].
    apply content_length_int_pure in H2 as [-> _].
    apply bind_inv in H as [([] & s4 & H2 & H)|[(e & _ & ?)|[_ ?]]]; [|done..].
    apply size_in_mb_pure in H2 as [-> _].
    apply bind_inv in H as [([] & s4 & H2 & H)|[(e & _ & ?)|[_ ?]]]; [|done..].
    apply write_file_effect in H2 as (_ & Hgrow4 & _).
    erewrite bind_Ret in H by reflexivity.
    apply bind_inv in H as [([] & s5 & H2 & H)|[(e & _ & ?)|[_ ?]]]; [|done..].
    apply download_speed_pure in H2 as [-> _].
    apply bind_inv in H as [([] & s5 & H2 & H)|[(e & _ & ?)|[_ ?]]]; [|done..].
    injection H as <- <-.
    apply print_status_reported in H2 as (_ & new & Hnew & Hrep).
    assert (events_grow s s4) as [k Hk]
      by (etrans; [exact Hgrow2|]; etrans; [exact Hgrow3 | exact Hgrow4]).
    apply (Hshift k s4); [done|]. exists new. split; [done|].
    eexists _, _, _. by apply reported_later.
  - apply bind_inv in H as [(text & s3 & H2 & H)|[(e & _ & ?)|[_ ?]]]; [|done..].
    apply read_content_pure in H2 as [-> _].
    apply bind_inv in H as [([] & s5 & H2 & H)|[(e & _ & ?)|[_ ?]]]; [|done..].
    injection H as <- <-.
    apply print_status_reported in H2 as (_ & new & Hnew & Hrep).
    destruct Hgrow2 as [k Hk].
    apply (Hshift k s2); [done|]. exists new. split; [done|].
    exists (status_code response), (Py.str_take 200 text).
    split; [by apply Z.eqb_neq | by apply reported_later].
Qed.

(** X19: [download_file] never returns without a report.  When it returns
    [True], a line that the download is completed has been logged, and
    posted to the operator when [CHAT_ID] is not 0.  When it returns
    [False], an error line has been logged and posted in the same way:
    either that the download failed, with a status that is not 200, or that
    there was an error downloading. *)
Theorem download_result_is_reported url filename s b s' :
  download_file cfg env url filename s = (Ret b, s') →
  ∃ new,
    events s' = (events s ++ new)%list
    ∧ if b : bool
      then ∃ name size time,
             reported cfg false (MsgDownloadCompleted name size time) new
      else (∃ status excerpt,
              status ≠ 200
              ∧ reported cfg true (MsgDownloadFailed filename status excerpt) new)
           ∨ reported cfg true MsgDownloadError new.
Proof.
  unfold download_file. intros H.
  apply try_except_inv in H as [[H _]|(e & s1 & H & _ & Hh)].
  - apply download_file_try_reports in H as (new & Hnew & Hrep).
    exists new. split; [done|]. destruct b; [done | by left].
  - apply download_file_try_events_grow in H as [k Hk].
    apply bind_inv in Hh as [([] & s2 & H2 & Hh)|[(e' & _ & ?)|[_ ?]]];
      [|done..].
    injection Hh as <- <-.
    apply print_status_reported in H2 as (_ & new & Hnew & Hrep).
    exists (k ++ new)%list. split; [by rewrite Hnew, Hk, app_assoc|].
    right. by apply reported_later.
Qed.

End Reports.

(** A download answered with status 500: the failure is logged and posted. *)
Lemma download_result_is_reported_witness :
  let cfg := config 0 10 ["txt"] in
  let env := world head_present get_broken in
  let run := download_file cfg env (url_of cfg 5 "txt") "file_5.txt" (boot ∅) in
  ∃ new,
    events run.2 = new
    ∧ ((∃ status excerpt,
          status ≠ 200
          ∧ reported cfg true (MsgDownloadFailed "file_5.txt" status excerpt) new)
       ∨ reported cfg true MsgDownloadError new).
Proof.
  intros cfg env run.
  apply (download_result_is_reported cfg env (url_of cfg 5 "txt") "file_5.txt"
           (boot ∅) false run.2).
  assert (run.1 = Ret false) as Hr by (vm_compute; reflexivity).
  rewrite <- Hr. apply surjective_pairing.
Defined.
